(** * Chart-Snapshot-Analyzer: the pattern analyzer ([src/pattern_analyzer.py])

    A shallow embedding of [PatternAnalyzer] and of the pandas operations it
    is written with, followed by the properties of the detectors.

    Numbers.  A Python/numpy float is modelled by an exact rational extended
    with the two infinities and NaN ([fval]); rounding and the sign of zero
    are not modelled.  A pandas Series of floats is a list, positions are
    [nat], timestamps are [Z] (seconds). *)

From Stdlib Require Import Ascii String List ZArith QArith Qabs Qminmax Qround.
From Stdlib Require Import Lia Lqa Bool Sorted Permutation.
Import ListNotations.
Local Open Scope Q_scope.

(** ** Floats *)

Inductive fval : Type :=
| Fin (q : Q)
| PInf
| NInf
| NaN.

Definition Qlt_bool (x y : Q) : bool := negb (Qle_bool y x).

Module Float.

Definition neg (x : fval) : fval :=
  match x with
  | Fin q => Fin (- q)
  | PInf => NInf
  | NInf => PInf
  | NaN => NaN
  end.

Definition add (x y : fval) : fval :=
  match x, y with
  | NaN, _ | _, NaN => NaN
  | Fin a, Fin b => Fin (a + b)
  | PInf, NInf | NInf, PInf => NaN
  | PInf, _ | _, PInf => PInf
  | NInf, _ | _, NInf => NInf
  end.

Definition sub (x y : fval) : fval := add x (neg y).

(** An infinity with the sign of [q]; NaN when [q] is zero. *)
Definition signed_inf (q : Q) : fval :=
  if Qlt_bool 0 q then PInf else if Qlt_bool q 0 then NInf else NaN.

Definition mul (x y : fval) : fval :=
  match x, y with
  | NaN, _ | _, NaN => NaN
  | Fin a, Fin b => Fin (a * b)
  | Fin a, PInf | PInf, Fin a => signed_inf a
  | Fin a, NInf | NInf, Fin a => signed_inf (- a)
  | PInf, PInf | NInf, NInf => PInf
  | PInf, NInf | NInf, PInf => NInf
  end.

(** numpy division: a zero divisor gives an infinity or NaN, never an
    exception. *)
Definition div (x y : fval) : fval :=
  match x, y with
  | NaN, _ | _, NaN => NaN
  | Fin a, Fin b => if Qeq_bool b 0 then signed_inf a else Fin (a / b)
  | Fin _, PInf | Fin _, NInf => Fin 0
  | PInf, Fin b => if Qlt_bool b 0 then NInf else PInf
  | NInf, Fin b => if Qlt_bool b 0 then PInf else NInf
  | _, _ => NaN
  end.

Definition abs (x : fval) : fval :=
  match x with
  | Fin q => Fin (Qabs q)
  | PInf | NInf => PInf
  | NaN => NaN
  end.

(** Comparisons: any comparison with NaN is false. *)
Definition lt (x y : fval) : bool :=
  match x, y with
  | NaN, _ | _, NaN => false
  | Fin a, Fin b => Qlt_bool a b
  | Fin _, PInf | NInf, Fin _ | NInf, PInf => true
  | Fin _, NInf | PInf, _ | NInf, NInf => false
  end.

Definition le (x y : fval) : bool :=
  match x, y with
  | NaN, _ | _, NaN => false
  | Fin a, Fin b => Qle_bool a b
  | NInf, _ | _, PInf => true
  | _, _ => false
  end.

Definition gt (x y : fval) : bool := lt y x.
Definition ge (x y : fval) : bool := le y x.

Definition eq (x y : fval) : bool :=
  match x, y with
  | Fin a, Fin b => Qeq_bool a b
  | PInf, PInf | NInf, NInf => true
  | _, _ => false
  end.

Definition isna (x : fval) : bool :=
  match x with NaN => true | _ => false end.

End Float.

(** ** Python control flow: exceptions and try/except *)

Inductive exn : Type := KeyError | ZeroDivisionError | IndexError | ValueError.

Inductive res (A : Type) : Type :=
| Ok (a : A)
| Raise (e : exn).
Arguments Ok {A} a.
Arguments Raise {A} e.

Definition res_bind {A B} (r : res A) (k : A -> res B) : res B :=
  match r with
  | Ok a => k a
  | Raise e => Raise e
  end.

(** A block of statements run inside a [try], over a result object [S]
    declared before the [try]: what the block stored in it before an
    exception survives the exception. *)
Definition M (S A : Type) : Type := S -> S * res A.

Definition ret {S A} (a : A) : M S A := fun s => (s, Ok a).
Definition bind {S A B} (m : M S A) (k : A -> M S B) : M S B :=
  fun s => match m s with
           | (s', Ok a) => k a s'
           | (s', Raise e) => (s', Raise e)
           end.
Definition lift {S A} (r : res A) : M S A := fun s => (s, r).
Definition modify {S} (f : S -> S) : M S unit := fun s => (f s, Ok tt).
(** [result.append(e)] *)
Definition append {E} (e : E) : M (list E) unit := modify (fun s => s ++ [e]).

Declare Scope py_scope.
Delimit Scope py_scope with py.
Notation "x <- m ;; k" := (bind m (fun x => k))
  (at level 61, m at next level, right associativity) : py_scope.
Notation "m ;;; k" := (bind m (fun _ => k))
  (at level 61, right associativity) : py_scope.

Fixpoint for_each {S A} (xs : list A) (body : A -> M S unit) : M S unit :=
  match xs with
  | [] => ret tt
  | x :: rest => bind (body x) (fun _ => for_each rest body)
  end.

(** [try: body / except Exception: log] followed by [return result]: the
    result object as the body left it, finished or not. *)
Definition try_except {S A} (init : S) (body : M S A) : S := fst (body init).

(** Python float division raises on a zero divisor. *)
Definition py_truediv (a b : Q) : res Q :=
  if Qeq_bool b 0 then Raise ZeroDivisionError else Ok (a / b).

(** ** pandas *)

Record Bar : Type := mkBar {
  timestamp : Z;
  open : Q;
  high : Q;
  low : Q;
  close : Q;
  volume : Q
}.

Inductive column : Type := Open | High | Low | Close | Volume.

Definition column_eqb (a b : column) : bool :=
  match a, b with
  | Open, Open | High, High | Low, Low | Close, Close | Volume, Volume => true
  | _, _ => false
  end.

Definition cell (c : column) (b : Bar) : Q :=
  match c with
  | Open => open b
  | High => high b
  | Low => low b
  | Close => close b
  | Volume => volume b
  end.

(** A DataFrame indexed by timestamp.  [columns] lists the columns the frame
    really has; a cell of an absent column is never read. *)
Record DataFrame : Type := mkDataFrame {
  rows : list Bar;
  columns : list column
}.

Definition index (data : DataFrame) : list Z := map timestamp (rows data).

(** [data[c]] *)
Definition getitem (data : DataFrame) (c : column) : res (list Q) :=
  if existsb (column_eqb c) (columns data)
  then Ok (map (cell c) (rows data))
  else Raise KeyError.

(** [s.iloc[i]] for a non-negative position. *)
Definition iloc {A} (s : list A) (i : nat) : res A :=
  match nth_error s i with
  | Some a => Ok a
  | None => Raise IndexError
  end.

Definition slice {A} (xs : list A) (start stop : nat) : list A :=
  firstn (stop - start) (skipn start xs).

(** Bounds of the fixed window of size [w] at position [i] of a series of
    length [n] (pandas [FixedWindowIndexer]): the window ends after position
    [i + offset], with [offset = (w - 1) // 2] for a centered window, and is
    clipped to the series. *)
Definition window_offset (w : nat) (center : bool) : nat :=
  if center then ((w - 1) / 2)%nat else 0%nat.

Definition window_bounds (w : nat) (center : bool) (n i : nat) : nat * nat :=
  let stop := (i + 1 + window_offset w center)%nat in
  (Nat.min (stop - w) n, Nat.min stop n).

(** [xs.rolling(window=w, center=center).agg()] at position [i]; undefined
    (NaN) unless the window holds [w] observations ([min_periods] defaults to
    the window size). *)
Definition rolling_at (agg : list Q -> fval) (w : nat) (center : bool)
           (xs : list Q) (i : nat) : fval :=
  let '(start, stop) := window_bounds w center (length xs) i in
  if ((w =? 0) || (stop - start <? w))%nat then NaN
  else agg (slice xs start stop).

Definition rolling (agg : list Q -> fval) (w : nat) (center : bool)
           (xs : list Q) : list fval :=
  map (rolling_at agg w center xs) (seq 0 (length xs)).

Definition Qsum (xs : list Q) : Q := fold_right Qplus 0 xs.

Definition Qlist_max (xs : list Q) : fval :=
  match xs with
  | [] => NaN
  | x :: rest => Fin (fold_left Qmax rest x)
  end.

Definition Qlist_min (xs : list Q) : fval :=
  match xs with
  | [] => NaN
  | x :: rest => Fin (fold_left Qmin rest x)
  end.

Definition Qlen (xs : list Q) : Q := inject_Z (Z.of_nat (length xs)).

Definition Qmean (xs : list Q) : Q := Qsum xs / Qlen xs.

Definition Qlist_mean (xs : list Q) : fval :=
  match xs with
  | [] => NaN
  | _ => Fin (Qmean xs)
  end.

(** Sample variance ([ddof = 1]). *)
Definition Qvar (xs : list Q) : Q :=
  Qsum (map (fun x => (x - Qmean xs) * (x - Qmean xs)) xs) / (Qlen xs - 1).

(** [s.shift(1)] *)
Definition shift1 (s : list fval) : list fval :=
  match s with
  | [] => []
  | _ => NaN :: removelast s
  end.

Fixpoint zip_with {A B C} (f : A -> B -> C) (xs : list A) (ys : list B)
  : list C :=
  match xs, ys with
  | x :: xs', y :: ys' => f x y :: zip_with f xs' ys'
  | _, _ => []
  end.

(** [data[mask]]: the rows at which the boolean series is true. *)
Fixpoint select {A} (xs : list A) (mask : list bool) : list A :=
  match xs, mask with
  | x :: xs', m :: mask' =>
      if m then x :: select xs' mask' else select xs' mask'
  | _, _ => []
  end.

(** [s.iloc[-k]] for [k >= 1]. *)
Definition iloc_last {A} (s : list A) (k : nat) : res A :=
  if (length s <? k)%nat then Raise IndexError
  else iloc s (length s - k).

Fixpoint is_monotonic_increasing (ts : list Z) : bool :=
  match ts with
  | [] => true
  | t :: rest =>
      match rest with
      | [] => true
      | t' :: _ => (t <=? t')%Z && is_monotonic_increasing rest
      end
  end.

Fixpoint is_monotonic_decreasing (ts : list Z) : bool :=
  match ts with
  | [] => true
  | t :: rest =>
      match rest with
      | [] => true
      | t' :: _ => (t' <=? t)%Z && is_monotonic_decreasing rest
      end
  end.

(** The first position of [label] in the index, if it is there, and the
    number of rows that carry it. *)
Fixpoint first_position (ts : list Z) (label : Z) : option nat :=
  match ts with
  | [] => None
  | t :: rest =>
      if (t =? label)%Z then Some 0%nat
      else option_map S (first_position rest label)
  end.

Definition occurrences (ts : list Z) (label : Z) : nat :=
  length (filter (fun t => (t =? label)%Z) ts).

Inductive Side : Type := side_left | side_right.

(** [index.get_slice_bound(label, side)]: the position at which a slice
    bounded by [label] starts (left) or stops (right).  A label of the
    index gives the positions of its occurrences, which must be contiguous;
    a label that is not in the index is placed by binary search, which
    needs a monotonic index.  Otherwise KeyError. *)
Definition get_slice_bound (ts : list Z) (label : Z) (side : Side)
  : res nat :=
  match first_position ts label with
  | Some start =>
      let stop := (start + occurrences ts label)%nat in
      if forallb (fun t => (t =? label)%Z) (slice ts start stop)
      then Ok match side with
              | side_left => start
              | side_right => stop
              end
      else Raise KeyError
  | None =>
      if is_monotonic_increasing ts
      then Ok (length (filter (fun t => (t <? label)%Z) ts))
      else if is_monotonic_decreasing ts
      then Ok (length (filter (fun t => (label <? t)%Z) ts))
      else Raise KeyError
  end.

(** [data[c].loc[lo:hi]] with timestamp bounds: the values from the position
    of [lo] to the position of [hi], both included; none when [lo] is placed
    after [hi]. *)
Definition loc_slice (data : DataFrame) (c : column) (lo hi : Z)
  : res (list Q) :=
  res_bind (getitem data c) (fun values =>
    res_bind (get_slice_bound (index data) lo side_left) (fun start =>
      res_bind (get_slice_bound (index data) hi side_right) (fun stop =>
        Ok (slice values start stop)))).

(** [data.loc[idx, c]]: the cell of the row labelled [idx], or a Series of
    cells when several rows carry the label; KeyError when none does. *)
Inductive loc_result : Type :=
| Scalar (q : Q)
| Cells (qs : list Q).

Definition loc_cell (data : DataFrame) (idx : Z) (c : column)
  : res loc_result :=
  res_bind (getitem data c) (fun _ =>
    match filter (fun b => (timestamp b =? idx)%Z) (rows data) with
    | [] => Raise KeyError
    | [b] => Ok (Scalar (cell c b))
    | bs => Ok (Cells (map (cell c) bs))
    end).

(** [pd.Timedelta(days=d)], in seconds. *)
Definition Timedelta_days (d : Z) : Z := (d * 86400)%Z.

(** [xs.ewm(span=span).mean()] (adjusted weights, defined from the first
    observation on). *)
Fixpoint ewm_from (alpha : Q) (xs : list Q) (num den : Q) : list Q :=
  match xs with
  | [] => []
  | x :: rest =>
      let num' := x + (1 - alpha) * num in
      let den' := 1 + (1 - alpha) * den in
      (num' / den') :: ewm_from alpha rest num' den'
  end.

Definition ewm_mean (span : Z) (xs : list Q) : list Q :=
  ewm_from (2 / (inject_Z span + 1)) xs 0 0.

(** [s.diff()] *)
Definition diff (xs : list Q) : list fval :=
  match xs with
  | [] => []
  | _ => NaN :: zip_with (fun cur prev => Fin (cur - prev)) (tl xs) xs
  end.

(** A Series with its index, as [_cluster_levels] receives it. *)
Definition Series : Type := list (Z * Q).

Fixpoint insert_by_value (x : Z * Q) (s : Series) : Series :=
  match s with
  | [] => [x]
  | y :: rest =>
      if Qlt_bool (snd x) (snd y) then x :: s
      else y :: insert_by_value x rest
  end.

(** [s.sort_values()]: ascending by value. *)
Definition sort_values (s : Series) : Series :=
  fold_left (fun acc x => insert_by_value x acc) s [].

(** A Python [dict] keyed by floats, in insertion order. *)
Definition dict (V : Type) : Type := list (Q * V).

Fixpoint dict_update {V} (d : dict V) (k : Q) (f : V -> V) : dict V :=
  match d with
  | [] => []
  | (k', v) :: rest =>
      if Qeq_bool k' k then (k', f v) :: rest
      else (k', v) :: dict_update rest k f
  end.

Definition dict_has {V} (d : dict V) (k : Q) : bool :=
  existsb (fun kv => Qeq_bool (fst kv) k) d.

(** [d[k] = v]: replaces the value of an existing key, which keeps its place,
    or adds the key at the end. *)
Definition dict_set {V} (d : dict V) (k : Q) (v : V) : dict V :=
  if dict_has d k then dict_update d k (fun _ => v) else d ++ [(k, v)].

Definition keys {V} (d : dict V) : list Q := map fst d.

(** Python [max] over a list of floats. *)
Definition py_max (xs : list Q) : res Q :=
  match xs with
  | [] => Raise ValueError
  | x :: rest => Ok (fold_left Qmax rest x)
  end.

(** ** Configuration ([config.py], the [patterns] section) *)

Record Config : Type := mkConfig {
  breakout_enabled : bool;
  lookback_periods : nat;
  volume_threshold : Q;
  divergence_enabled : bool;
  rsi_periods : nat;
  min_divergence_strength : Q;
  support_resistance_enabled : bool;
  min_touches : nat;
  tolerance : Q
}.

Definition default_config : Config :=
  {| breakout_enabled := true;
     lookback_periods := 20;
     volume_threshold := 15 # 10;
     divergence_enabled := true;
     rsi_periods := 14;
     min_divergence_strength := 3 # 10;
     support_resistance_enabled := true;
     min_touches := 2;
     tolerance := 2 # 100 |}.

(** ** Pattern events

    The source builds every event as a dict; each kind is a record here, with
    the dict's keys as fields. *)

Inductive BreakoutType : Type := resistance_breakout | support_breakout.

Record Breakout : Type := mkBreakout {
  bo_type : BreakoutType;
  bo_timestamp : Z;
  bo_price : Q;
  bo_volume : Q;
  bo_strength : fval
}.

Inductive DivergenceType : Type := bullish_divergence | bearish_divergence.

Record Divergence : Type := mkDivergence {
  dv_type : DivergenceType;
  dv_timestamp : Z;
  dv_price : Q;
  dv_rsi : fval;
  dv_strength : fval
}.

Inductive LevelType : Type := resistance | support.

(** A dict value is dynamically typed: what [last_touch] holds is either a
    float or a timestamp. *)
Inductive pyobj : Type :=
| PyFloat (q : Q)
| PyTimestamp (t : Z).

Record Level : Type := mkLevel {
  lv_type : LevelType;
  lv_level : Q;
  lv_touches : nat;
  lv_strength : Q;
  lv_last_touch : pyobj
}.

Inductive TrendChangeType : Type := bullish_crossover | bearish_crossover.

Record TrendChange : Type := mkTrendChange {
  tc_type : TrendChangeType;
  tc_timestamp : Z;
  tc_price : Q;
  tc_sma_20 : fval;
  tc_sma_50 : fval
}.

Record VolumeAnomaly : Type := mkVolumeAnomaly {
  va_timestamp : Z;
  va_volume : Q;
  va_avg_volume : fval;
  va_deviation : fval
}.

Record RsiSignal : Type := mkRsiSignal {
  rsi_current : option fval;
  rsi_overbought : bool;
  rsi_oversold : bool
}.

Record MacdSignal : Type := mkMacdSignal {
  macd_current : option Q;
  macd_signal : option Q;
  macd_histogram : option Q;
  macd_bullish_crossover : bool;
  macd_bearish_crossover : bool
}.

Record TrendSignal : Type := mkTrendSignal {
  trend_sma_20 : option fval;
  trend_sma_50 : option fval;
  trend_bullish : option bool
}.

(** The [technical_signals] dict: a key is absent until it is assigned. *)
Record TechnicalSignals : Type := mkTechnicalSignals {
  sig_rsi : option RsiSignal;
  sig_macd : option MacdSignal;
  sig_trend : option TrendSignal
}.

Record AnalysisResult : Type := mkAnalysisResult {
  symbol : string;
  generated : Z;
  breakouts : list Breakout;
  divergences : list Divergence;
  support_resistance : list Level;
  trend_changes : list TrendChange;
  volume_anomalies : list VolumeAnomaly;
  technical_signals : TechnicalSignals
}.

(** ** PatternAnalyzer *)

Local Open Scope py_scope.

(** Python [max(0, x)]: [x] when [x > 0], else [0]. *)
Definition max0 (x : fval) : fval := if Float.gt x (Fin 0) then x else Fin 0.

(** [_calculate_breakout_strength(data, idx, breakout_type)].  The window is
    the 20 calendar days up to the label [idx].  When several rows carry the
    label the strength is a Series and [max(0, strength)] raises ValueError
    on its truth value.  Any exception gives 0.0. *)
Definition _calculate_breakout_strength (data : DataFrame) (idx : Z)
           (breakout_type : LevelType) : fval :=
  let lookback := 20%Z in
  let attempt :=
    match breakout_type with
    | resistance =>
        res_bind (loc_slice data High (idx - Timedelta_days lookback) idx)
          (fun window =>
             let recent_high := Qlist_max window in
             res_bind (loc_cell data idx Close) (fun c =>
               match c with
               | Scalar c =>
                   Ok (max0 (Float.div (Float.sub (Fin c) recent_high)
                               recent_high))
               | Cells _ => Raise ValueError
               end))
    | support =>
        res_bind (loc_slice data Low (idx - Timedelta_days lookback) idx)
          (fun window =>
             let recent_low := Qlist_min window in
             res_bind (loc_cell data idx Close) (fun c =>
               match c with
               | Scalar c =>
                   Ok (max0 (Float.div (Float.sub recent_low (Fin c))
                               recent_low))
               | Cells _ => Raise ValueError
               end))
    end in
  match attempt with
  | Ok strength => strength
  | Raise _ => Fin 0
  end.

Definition Fins (xs : list Q) : list fval := map Fin xs.

(** The three boolean series of [_detect_breakouts]. *)
Definition resistance_breaks (lookback : nat)
           (high_col close_col open_col : list Q) : list bool :=
  let highs := rolling Qlist_max lookback true high_col in
  zip_with andb
    (zip_with Float.gt (Fins close_col) (shift1 highs))
    (zip_with Float.gt (Fins close_col) (Fins open_col)).

Definition support_breaks (lookback : nat)
           (low_col close_col open_col : list Q) : list bool :=
  let lows := rolling Qlist_min lookback true low_col in
  zip_with andb
    (zip_with Float.lt (Fins close_col) (shift1 lows))
    (zip_with Float.lt (Fins close_col) (Fins open_col)).

Definition high_volume (lookback : nat) (volume_threshold : Q)
           (volume_col : list Q) : list bool :=
  let avg_volume := rolling Qlist_mean lookback false volume_col in
  zip_with Float.gt (Fins volume_col)
    (map (fun a => Float.mul a (Fin volume_threshold)) avg_volume).

(** The event of the row [b], whose label is [idx = timestamp b].  The price
    and the volume are the cells [data.loc[idx, ...]] of that row, the label
    being unique in the index. *)
Definition breakout_event (data : DataFrame) (ty : BreakoutType) (b : Bar)
  : Breakout :=
  {| bo_type := ty;
     bo_timestamp := timestamp b;
     bo_price := close b;
     bo_volume := volume b;
     bo_strength :=
       _calculate_breakout_strength data (timestamp b)
         match ty with
         | resistance_breakout => resistance
         | support_breakout => support
         end |}.

(** The body of the [try] of [_detect_breakouts]. *)
Definition detect_breakouts_body (cfg : Config) (data : DataFrame)
  : M (list Breakout) unit :=
  let lookback := lookback_periods cfg in
  high_col <- lift (getitem data High) ;;
  low_col <- lift (getitem data Low) ;;
  close_col <- lift (getitem data Close) ;;
  open_col <- lift (getitem data Open) ;;
  let resistance := resistance_breaks lookback high_col close_col open_col in
  let support := support_breaks lookback low_col close_col open_col in
  volume_col <- lift (getitem data Volume) ;;
  let high_volume := high_volume lookback (volume_threshold cfg) volume_col in
  let resistance_indices :=
    select (rows data) (zip_with andb resistance high_volume) in
  let support_indices :=
    select (rows data) (zip_with andb support high_volume) in
  for_each resistance_indices
    (fun b => append (breakout_event data resistance_breakout b)) ;;;
  for_each support_indices
    (fun b => append (breakout_event data support_breakout b)).

Definition _detect_breakouts (cfg : Config) (data : DataFrame)
  : list Breakout :=
  try_except [] (detect_breakouts_body cfg data).

(** [_calculate_rsi(data, period)]; the [except] branch, which returns
    [None], is not reachable for a Series of floats. *)
Definition rsi_gain (data : list Q) (period : nat) : list fval :=
  rolling Qlist_mean period false
    (map (fun d => if Float.gt d (Fin 0)
                   then match d with Fin q => q | _ => 0 end
                   else 0) (diff data)).

Definition rsi_loss (data : list Q) (period : nat) : list fval :=
  rolling Qlist_mean period false
    (map (fun d => - (if Float.lt d (Fin 0)
                      then match d with Fin q => q | _ => 0 end
                      else 0)) (diff data)).

Definition rsi_of (gain loss : fval) : fval :=
  let rs := Float.div gain loss in
  Float.sub (Fin 100) (Float.div (Fin 100) (Float.add (Fin 1) rs)).

Definition _calculate_rsi (data : list Q) (period : nat)
  : option (list fval) :=
  Some (zip_with rsi_of (rsi_gain data period) (rsi_loss data period)).

Section Analyzer.

(** [scipy.signal.find_peaks(x, distance=5)[0]]: the positions of the
    peaks it keeps.  The library is not part of the repository; nothing is
    assumed about the positions it returns. *)
Variable find_peaks : list fval -> list nat.

(** The floating-point square root used by the rolling standard
    deviation. *)
Variable fsqrt : Q -> Q.

(** [pd.Timestamp.now()] *)
Variable now : Z.

Definition Qnat (n : nat) : Q := inject_Z (Z.of_nat n).

(** Slope between two positions of a series:
    [(s.iloc[b] - s.iloc[a]) / (b - a)]. *)
Definition slope (va vb : fval) (a b : nat) : fval :=
  Float.div (Float.sub vb va)
    (Fin (inject_Z (Z.of_nat b - Z.of_nat a))).

Definition in_range (lo hi : nat) (xs : list nat) : list nat :=
  filter (fun x => (lo <=? x)%nat && (x <=? hi)%nat) xs.

(** One iteration of either loop of [_detect_divergences], for the
    consecutive price extrema [prev] and [cur]. *)
Definition divergence_step (ty : DivergenceType) (min_strength : Q)
           (data : DataFrame) (close_col : list Q) (rsi : list fval)
           (rsi_extrema : list nat) (pair : nat * nat)
  : M (list Divergence) unit :=
  let '(prev, cur) := pair in
  c_cur <- lift (iloc close_col cur) ;;
  c_prev <- lift (iloc close_col prev) ;;
  let price_slope := slope (Fin c_prev) (Fin c_cur) prev cur in
  let extrema_in_range := in_range prev cur rsi_extrema in
  if (2 <=? length extrema_in_range)%nat then
    let last_ := List.last extrema_in_range 0%nat in
    let first_ := hd 0%nat extrema_in_range in
    r_last <- lift (iloc rsi last_) ;;
    r_first <- lift (iloc rsi first_) ;;
    let rsi_slope := slope r_first r_last first_ last_ in
    let diverges :=
      match ty with
      | bullish_divergence =>
          Float.lt price_slope (Fin 0) && Float.gt rsi_slope (Fin 0)
      | bearish_divergence =>
          Float.gt price_slope (Fin 0) && Float.lt rsi_slope (Fin 0)
      end in
    if diverges then
      let strength := Float.abs (Float.mul price_slope rsi_slope) in
      if Float.gt strength (Fin min_strength) then
        ts <- lift (iloc (index data) cur) ;;
        price <- lift (iloc close_col cur) ;;
        r <- lift (iloc rsi cur) ;;
        append {| dv_type := ty;
                  dv_timestamp := ts;
                  dv_price := price;
                  dv_rsi := r;
                  dv_strength := strength |}
      else ret tt
    else ret tt
  else ret tt.

(** [enumerate(xs)] with the first element skipped: each element with its
    predecessor. *)
Definition consecutive (xs : list nat) : list (nat * nat) :=
  combine xs (tl xs).

Definition detect_divergences_body (cfg : Config) (data : DataFrame)
  : M (list Divergence) unit :=
  close_col <- lift (getitem data Close) ;;
  match _calculate_rsi close_col (rsi_periods cfg) with
  | None => ret tt
  | Some rsi =>
      if (length rsi <? 20)%nat then ret tt
      else
        let price_peaks := find_peaks (Fins close_col) in
        let price_troughs := find_peaks (map Float.neg (Fins close_col)) in
        let rsi_peaks := find_peaks rsi in
        let rsi_troughs := find_peaks (map Float.neg rsi) in
        let min_strength := min_divergence_strength cfg in
        for_each (consecutive price_troughs)
          (divergence_step bullish_divergence min_strength data close_col
             rsi rsi_troughs) ;;;
        for_each (consecutive price_peaks)
          (divergence_step bearish_divergence min_strength data close_col
             rsi rsi_peaks)
  end.

Definition _detect_divergences (cfg : Config) (data : DataFrame)
  : list Divergence :=
  try_except [] (detect_divergences_body cfg data).

(** [abs(level - cluster_level) / cluster_level <= tolerance], on Python
    floats. *)
Definition near (level cluster_level tolerance : Q) : res bool :=
  res_bind (py_truediv (Qabs (level - cluster_level)) cluster_level)
    (fun d => Ok (Qle_bool d tolerance)).

(** The inner loop of [_cluster_levels]: the first key the level is near
    to. *)
Fixpoint find_cluster (level tolerance : Q) (ks : list Q)
  : res (option Q) :=
  match ks with
  | [] => Ok None
  | cluster_level :: rest =>
      res_bind (near level cluster_level tolerance) (fun b =>
        if b then Ok (Some cluster_level)
        else find_cluster level tolerance rest)
  end.

Definition cluster_step (tolerance : Q) (clustered : dict (list Q))
           (level : Q) : res (dict (list Q)) :=
  res_bind (find_cluster level tolerance (keys clustered)) (fun found =>
    match found with
    | Some cluster_level =>
        Ok (dict_update clustered cluster_level (fun l => l ++ [level]))
    | None => Ok (dict_set clustered level [level])
    end).

Fixpoint cluster_loop (tolerance : Q) (levels : list Q)
         (clustered : dict (list Q)) : res (dict (list Q)) :=
  match levels with
  | [] => Ok clustered
  | level :: rest =>
      res_bind (cluster_step tolerance clustered level)
        (cluster_loop tolerance rest)
  end.

(** [_cluster_levels(levels, tolerance)]: iterating the sorted Series
    yields its values; the index is not read. *)
Definition _cluster_levels (levels : Series) (tolerance : Q)
  : res (dict (list Q)) :=
  let sorted_levels := sort_values levels in
  cluster_loop tolerance (map snd sorted_levels) [].

Definition level_events (ty : LevelType) (cfg : Config) (data : DataFrame)
           (clusters : dict (list Q)) : M (list Level) unit :=
  for_each clusters (fun '(level, touches) =>
    if (min_touches cfg <=? length touches)%nat then
      ratio <- lift (py_truediv (Qnat (length touches))
                       (Qnat (length (rows data)))) ;;
      last_touch <- lift (py_max touches) ;;
      append {| lv_type := ty;
                lv_level := level;
                lv_touches := length touches;
                lv_strength := ratio * 100;
                lv_last_touch := PyFloat last_touch |}
    else ret tt).

(** [data[data[c] == extrema][c]]: the candidate touches, with their
    timestamps as index. *)
Definition candidates (data : DataFrame) (col : list Q)
           (extrema : list fval) : Series :=
  select (combine (index data) col)
    (zip_with Float.eq (Fins col) extrema).

Definition detect_support_resistance_body (cfg : Config) (data : DataFrame)
  : M (list Level) unit :=
  high_col <- lift (getitem data High) ;;
  let highs := rolling Qlist_max 5 true high_col in
  low_col <- lift (getitem data Low) ;;
  let lows := rolling Qlist_min 5 true low_col in
  let resistance_candidates := candidates data high_col highs in
  resistance_levels <-
    lift (_cluster_levels resistance_candidates (tolerance cfg)) ;;
  level_events resistance cfg data resistance_levels ;;;
  let support_candidates := candidates data low_col lows in
  support_levels <-
    lift (_cluster_levels support_candidates (tolerance cfg)) ;;
  level_events support cfg data support_levels.

Definition _detect_support_resistance (cfg : Config) (data : DataFrame)
  : list Level :=
  try_except [] (detect_support_resistance_body cfg data).

(** The two boolean series of [_detect_trend_changes]. *)
Definition sma_crossovers (sma_20 sma_50 : list fval) : list bool :=
  zip_with andb
    (zip_with Float.gt sma_20 sma_50)
    (zip_with Float.le (shift1 sma_20) (shift1 sma_50)).

Definition sma_crossunders (sma_20 sma_50 : list fval) : list bool :=
  zip_with andb
    (zip_with Float.lt sma_20 sma_50)
    (zip_with Float.ge (shift1 sma_20) (shift1 sma_50)).

Definition trend_event (ty : TrendChangeType)
           (row : Bar * (fval * fval)) : TrendChange :=
  {| tc_type := ty;
     tc_timestamp := timestamp (fst row);
     tc_price := close (fst row);
     tc_sma_20 := fst (snd row);
     tc_sma_50 := snd (snd row) |}.

Definition detect_trend_changes_body (data : DataFrame)
  : M (list TrendChange) unit :=
  close_col <- lift (getitem data Close) ;;
  let sma_20 := rolling Qlist_mean 20 false close_col in
  let sma_50 := rolling Qlist_mean 50 false close_col in
  let located := combine (rows data) (combine sma_20 sma_50) in
  let bullish_crosses := select located (sma_crossovers sma_20 sma_50) in
  for_each bullish_crosses
    (fun row => append (trend_event bullish_crossover row)) ;;;
  let bearish_crosses := select located (sma_crossunders sma_20 sma_50) in
  for_each bearish_crosses
    (fun row => append (trend_event bearish_crossover row)).

Definition _detect_trend_changes (data : DataFrame) : list TrendChange :=
  try_except [] (detect_trend_changes_body data).

(** Rolling sample standard deviation; undefined on a single
    observation. *)
Definition Qlist_std (xs : list Q) : fval :=
  if (length xs <=? 1)%nat then NaN else Fin (fsqrt (Qvar xs)).

Definition anomaly_mask (volume_col : list Q) (avg_volume volume_std : list fval)
  : list bool :=
  zip_with Float.gt (Fins volume_col)
    (zip_with (fun a s => Float.add a (Float.mul (Fin 2) s))
       avg_volume volume_std).

Definition anomaly_event (row : Bar * (fval * fval)) : VolumeAnomaly :=
  let '(b, (avg, std)) := row in
  {| va_timestamp := timestamp b;
     va_volume := volume b;
     va_avg_volume := avg;
     va_deviation := Float.div (Float.sub (Fin (volume b)) avg) std |}.

Definition detect_volume_anomalies_body (data : DataFrame)
  : M (list VolumeAnomaly) unit :=
  volume_col <- lift (getitem data Volume) ;;
  let avg_volume := rolling Qlist_mean 20 false volume_col in
  let volume_std := rolling Qlist_std 20 false volume_col in
  let high_volume := anomaly_mask volume_col avg_volume volume_std in
  let located := combine (rows data) (combine avg_volume volume_std) in
  for_each (select located high_volume)
    (fun row => append (anomaly_event row)).

Definition _detect_volume_anomalies (data : DataFrame)
  : list VolumeAnomaly :=
  try_except [] (detect_volume_anomalies_body data).

(** [_calculate_macd(data)], with the default spans 12, 26 and 9. *)
Definition _calculate_macd (data : list Q)
  : option (list Q) * option (list Q) * option (list Q) :=
  let ema_fast := ewm_mean 12 data in
  let ema_slow := ewm_mean 26 data in
  let macd := zip_with Qminus ema_fast ema_slow in
  let signal_line := ewm_mean 9 macd in
  let histogram := zip_with Qminus macd signal_line in
  (Some macd, Some signal_line, Some histogram).

Definition not_na (x : fval) : option fval :=
  if Float.isna x then None else Some x.

Definition no_signals : TechnicalSignals :=
  {| sig_rsi := None; sig_macd := None; sig_trend := None |}.

Definition analyze_technical_signals_body (data : DataFrame)
  : M TechnicalSignals unit :=
  close_col <- lift (getitem data Close) ;;
  match _calculate_rsi close_col 14 with
  | None => ret tt
  | Some rsi =>
      r <- lift (iloc_last rsi 1) ;;
      modify (fun s =>
        {| sig_rsi :=
             Some {| rsi_current := not_na r;
                     rsi_overbought := Float.gt r (Fin 70);
                     rsi_oversold := Float.lt r (Fin 30) |};
           sig_macd := sig_macd s;
           sig_trend := sig_trend s |})
  end ;;;
  match _calculate_macd close_col with
  | (Some macd, Some signal_line, Some histogram) =>
      m1 <- lift (iloc_last macd 1) ;;
      s1 <- lift (iloc_last signal_line 1) ;;
      h1 <- lift (iloc_last histogram 1) ;;
      up <- (if Qlt_bool s1 m1
             then m2 <- lift (iloc_last macd 2) ;;
                  s2 <- lift (iloc_last signal_line 2) ;;
                  ret (Qle_bool m2 s2)
             else ret false) ;;
      down <- (if Qlt_bool m1 s1
               then m2 <- lift (iloc_last macd 2) ;;
                    s2 <- lift (iloc_last signal_line 2) ;;
                    ret (Qle_bool s2 m2)
               else ret false) ;;
      modify (fun s =>
        {| sig_rsi := sig_rsi s;
           sig_macd :=
             Some {| macd_current := Some m1;
                     macd_signal := Some s1;
                     macd_histogram := Some h1;
                     macd_bullish_crossover := up;
                     macd_bearish_crossover := down |};
           sig_trend := sig_trend s |})
  | _ => ret tt
  end ;;;
  let sma_20 := rolling Qlist_mean 20 false close_col in
  let sma_50 := rolling Qlist_mean 50 false close_col in
  a <- lift (iloc_last sma_20 1) ;;
  b <- lift (iloc_last sma_50 1) ;;
  modify (fun s =>
    {| sig_rsi := sig_rsi s;
       sig_macd := sig_macd s;
       sig_trend :=
         Some {| trend_sma_20 := not_na a;
                 trend_sma_50 := not_na b;
                 trend_bullish :=
                   if Float.isna a || Float.isna b then None
                   else Some (Float.gt a b) |} |}).

Definition _analyze_technical_signals (data : DataFrame)
  : TechnicalSignals :=
  try_except no_signals (analyze_technical_signals_body data).

(** The result object [analyze] starts from. *)
Definition initial_patterns (symbol : string) : AnalysisResult :=
  {| symbol := symbol;
     generated := now;
     breakouts := [];
     divergences := [];
     support_resistance := [];
     trend_changes := [];
     volume_anomalies := [];
     technical_signals := no_signals |}.

Definition analyze_body (cfg : Config) (data : DataFrame)
  : M AnalysisResult unit :=
  (if breakout_enabled cfg then
     modify (fun p =>
       {| symbol := symbol p; generated := generated p;
          breakouts := _detect_breakouts cfg data;
          divergences := divergences p;
          support_resistance := support_resistance p;
          trend_changes := trend_changes p;
          volume_anomalies := volume_anomalies p;
          technical_signals := technical_signals p |})
   else ret tt) ;;;
  (if divergence_enabled cfg then
     modify (fun p =>
       {| symbol := symbol p; generated := generated p;
          breakouts := breakouts p;
          divergences := _detect_divergences cfg data;
          support_resistance := support_resistance p;
          trend_changes := trend_changes p;
          volume_anomalies := volume_anomalies p;
          technical_signals := technical_signals p |})
   else ret tt) ;;;
  (if support_resistance_enabled cfg then
     modify (fun p =>
       {| symbol := symbol p; generated := generated p;
          breakouts := breakouts p;
          divergences := divergences p;
          support_resistance := _detect_support_resistance cfg data;
          trend_changes := trend_changes p;
          volume_anomalies := volume_anomalies p;
          technical_signals := technical_signals p |})
   else ret tt) ;;;
  modify (fun p =>
    {| symbol := symbol p; generated := generated p;
       breakouts := breakouts p;
       divergences := divergences p;
       support_resistance := support_resistance p;
       trend_changes := _detect_trend_changes data;
       volume_anomalies := volume_anomalies p;
       technical_signals := technical_signals p |}) ;;;
  modify (fun p =>
    {| symbol := symbol p; generated := generated p;
       breakouts := breakouts p;
       divergences := divergences p;
       support_resistance := support_resistance p;
       trend_changes := trend_changes p;
       volume_anomalies := _detect_volume_anomalies data;
       technical_signals := technical_signals p |}) ;;;
  modify (fun p =>
    {| symbol := symbol p; generated := generated p;
       breakouts := breakouts p;
       divergences := divergences p;
       support_resistance := support_resistance p;
       trend_changes := trend_changes p;
       volume_anomalies := volume_anomalies p;
       technical_signals := _analyze_technical_signals data |}).

(** [analyze(data, symbol)].  The call is modelled with its outcome: the
    value it returns, or the exception that leaves it. *)
Definition analyze (cfg : Config) (data : DataFrame) (symbol : string)
  : res AnalysisResult :=
  Ok (try_except (initial_patterns symbol) (analyze_body cfg data)).

End Analyzer.

(** ** Views of the detectors used to state their properties *)

Definition has_column (data : DataFrame) (c : column) : bool :=
  existsb (column_eqb c) (columns data).

Definition col (c : column) (data : DataFrame) : list Q :=
  map (cell c) (rows data).

(** [resistance_breaks & high_volume] and [support_breaks & high_volume], the
    masks [_detect_breakouts] selects its rows with. *)
Definition resistance_flags (cfg : Config) (data : DataFrame) : list bool :=
  zip_with andb
    (resistance_breaks (lookback_periods cfg)
       (col High data) (col Close data) (col Open data))
    (high_volume (lookback_periods cfg) (volume_threshold cfg)
       (col Volume data)).

Definition support_flags (cfg : Config) (data : DataFrame) : list bool :=
  zip_with andb
    (support_breaks (lookback_periods cfg)
       (col Low data) (col Close data) (col Open data))
    (high_volume (lookback_periods cfg) (volume_threshold cfg)
       (col Volume data)).

(** Hourly bars from a list of (open, high, low, close, volume). *)
Definition hourly_from (start : nat) (xs : list (Q * Q * Q * Q * Q))
  : list Bar :=
  map (fun '(i, (o, h, l, c, v)) => mkBar (3600 * Z.of_nat i) o h l c v)
    (combine (seq start (length xs)) xs).

Definition ohlcv : list column := [Open; High; Low; Close; Volume].

(** Twenty-nine bars, with highs of 10 in the first nine and of 1 after
    them; bar 20 closes at 5, above its own high, on ten times the usual
    volume. *)
Definition lookahead_data : DataFrame :=
  {| rows :=
       hourly_from 0 (repeat (1, 10, 1, 1, 100) 9
                      ++ repeat (1, 1, 1, 1, 100) 11
                      ++ [(4, 1, 1, 5, 1000)]
                      ++ repeat (1, 1, 1, 1, 100) 8);
     columns := ohlcv |}.

(** Five well-formed bars: bar 2 closes under the lows of bars 0 and 1 and
    bar 4 closes over the highs of bars 2 and 3, both on four times the
    usual volume. *)
Definition two_breakouts_data : DataFrame :=
  {| rows :=
       hourly_from 0 [ (10, 11, 9, 10, 100);
                       (10, 11, 9, 10, 100);
                       (10, 10, 7, 8, 400);
                       (8, 9, 7, 8, 100);
                       (9, 12, 9, 11, 400) ];
     columns := ohlcv |}.

Definition lookback2_config : Config :=
  {| breakout_enabled := true;
     lookback_periods := 2;
     volume_threshold := 15 # 10;
     divergence_enabled := true;
     rsi_periods := 14;
     min_divergence_strength := 3 # 10;
     support_resistance_enabled := true;
     min_touches := 2;
     tolerance := 2 # 100 |}.

(** One cluster per value, holding that value alone. *)
Definition singleton_clusters (ks : list Q) : dict (list Q) :=
  map (fun k => (k, [k])) ks.

(** No key is near a key that comes before it, and comparing it with those
    keys raises nothing. *)
Definition separated (tolerance : Q) (ks : list Q) : Prop :=
  forall n k, nth_error ks n = Some k ->
              find_cluster k tolerance (firstn n ks) = Ok None.

(** The order [sort_values] sorts a Series by. *)
Definition by_value (a b : Z * Q) : Prop := snd a <= snd b.

(** *** Instances used to run the analyzer on concrete series *)

(** A peak finder to run the divergence detector with: the positions that
    are strictly above both neighbours.  (scipy additionally thins the peaks
    to a minimal distance; the properties below hold for any finder.) *)
Fixpoint strict_peaks_from (i : nat) (xs : list fval) : list nat :=
  match xs with
  | a :: ((b :: c :: _) as rest) =>
      if Float.lt a b && Float.lt c b
      then S i :: strict_peaks_from (S i) rest
      else strict_peaks_from (S i) rest
  | _ => []
  end.

Definition strict_peaks (xs : list fval) : list nat := strict_peaks_from 0 xs.

(** A rational square root: three Newton steps from the integer square
    root of the integer part, plus one. *)
Fixpoint newton (n : nat) (x y : Q) : Q :=
  match n with
  | O => y
  | S m => newton m x (Qred ((y + x / y) / 2))
  end.

Definition newton_sqrt (x : Q) : Q :=
  if Qlt_bool 0 x
  then newton 3 x (inject_Z (Z.sqrt (Qfloor x) + 1))
  else 0.

(** Nine well-formed bars with a high of 10.1 at bar 2 and of 10 elsewhere,
    and lows of 9. *)
Definition levels_data : DataFrame :=
  {| rows :=
       hourly_from 0 (repeat (95 # 10, 10, 9, 95 # 10, 100) 2
                      ++ [(95 # 10, 101 # 10, 9, 95 # 10, 100)]
                      ++ repeat (95 # 10, 10, 9, 95 # 10, 100) 6);
     columns := ohlcv |}.

(** Six bars whose lows are zero. *)
Definition zero_lows_data : DataFrame :=
  {| rows := hourly_from 0 (repeat (5, 10, 0, 5, 100) 6);
     columns := ohlcv |}.

Definition empty_data : DataFrame := {| rows := []; columns := ohlcv |}.

(** Three well-formed bars, the latest first. *)
Definition unsorted_data : DataFrame :=
  {| rows := [ mkBar 7200 10 11 9 10 100;
               mkBar 3600 10 11 9 10 100;
               mkBar 0 10 11 9 10 100 ];
     columns := ohlcv |}.

(** A block keeps the property [P] of the events of its result list. *)
Definition preserves {E A} (P : E -> Prop) (m : M (list E) A) : Prop :=
  forall s, Forall P s -> Forall P (fst (m s)).

(** [price_slope] and [rsi_slope] are the slopes [_detect_divergences]
    computes for the pair of consecutive price extrema that ends at position
    [cur]: the price slope between the two extrema, and the RSI slope
    between the first and the last RSI extremum lying between them. *)
Definition slopes_of_pair (extrema rsi_extrema : list nat)
           (close_col : list Q) (rsi : list fval)
           (cur : nat) (price_slope rsi_slope : fval) : Prop :=
  exists prev c_prev c_cur r_first r_last,
    In (prev, cur) (consecutive extrema) /\
    (2 <= length (in_range prev cur rsi_extrema))%nat /\
    iloc close_col prev = Ok c_prev /\
    iloc close_col cur = Ok c_cur /\
    iloc rsi (hd 0%nat (in_range prev cur rsi_extrema)) = Ok r_first /\
    iloc rsi (List.last (in_range prev cur rsi_extrema) 0%nat) = Ok r_last /\
    price_slope = slope (Fin c_prev) (Fin c_cur) prev cur /\
    rsi_slope = slope r_first r_last
                  (hd 0%nat (in_range prev cur rsi_extrema))
                  (List.last (in_range prev cur rsi_extrema) 0%nat).

(** What [_detect_divergences] guarantees of an event it reports. *)
Definition divergence_ok (find_peaks : list fval -> list nat) (cfg : Config)
           (data : DataFrame) (e : Divergence) : Prop :=
  exists close_col rsi cur price_slope rsi_slope,
    getitem data Close = Ok close_col /\
    _calculate_rsi close_col (rsi_periods cfg) = Some rsi /\
    iloc (index data) cur = Ok (dv_timestamp e) /\
    match dv_type e with
    | bullish_divergence =>
        slopes_of_pair (find_peaks (map Float.neg (Fins close_col)))
          (find_peaks (map Float.neg rsi)) close_col rsi cur
          price_slope rsi_slope /\
        Float.lt price_slope (Fin 0) = true /\
        Float.gt rsi_slope (Fin 0) = true
    | bearish_divergence =>
        slopes_of_pair (find_peaks (Fins close_col)) (find_peaks rsi)
          close_col rsi cur price_slope rsi_slope /\
        Float.gt price_slope (Fin 0) = true /\
        Float.lt rsi_slope (Fin 0) = true
    end /\
    dv_strength e = Float.abs (Float.mul price_slope rsi_slope) /\
    Float.le (Fin 0) (dv_strength e) = true /\
    Float.gt (dv_strength e) (Fin (min_divergence_strength cfg)) = true /\
    Float.le (dv_strength e) (Fin (min_divergence_strength cfg)) = false.

(** Well-formed hourly bars around a list of closes: open = close,
    high = close + 1, low = close - 1, volume 100. *)
Definition bars_of_closes (closes : list Q) : list Bar :=
  hourly_from 0 (map (fun c => (c, c + 1, c - 1, c, 100)) closes).

(** Twenty-four bars whose closes peak at bar 18, at 12, and at bar 21, at
    14, while the RSI(14) peaks between the two fall. *)
Definition divergence_data : DataFrame :=
  {| rows := bars_of_closes
               [7; 14; 6; 9; 6; 12; 12; 12; 15; 11; 8; 6; 12; 5; 11; 11;
                14; 5; 12; 9; 8; 14; 6; 10];
     columns := ohlcv |}.

(** Closes at 12, then 10, a jump to 100 at bar 50, then 0: the 20-bar
    mean crosses over the 50-bar mean at bar 50 and back under it later. *)
Definition trend_data : DataFrame :=
  {| rows := bars_of_closes
               (repeat 12 30 ++ repeat 10 20 ++ [100] ++ repeat 0 25);
     columns := ohlcv |}.

(** The rolling 20-bar mean and standard deviation of the volume at a
    position, and what it is for a bar to be reported as an anomaly. *)
Definition volume_mean (data : DataFrame) (i : nat) : fval :=
  rolling_at Qlist_mean 20 false (col Volume data) i.

Definition volume_std (fsqrt : Q -> Q) (data : DataFrame) (i : nat) : fval :=
  rolling_at (Qlist_std fsqrt) 20 false (col Volume data) i.

Definition anomaly_at (fsqrt : Q -> Q) (data : DataFrame) (b : Bar) : Prop :=
  exists e, In e (_detect_volume_anomalies fsqrt data)
            /\ va_timestamp e = timestamp b.

(** Twenty bars with volumes 100 and 110 in turn, then a bar with volume
    1000. *)
Definition spike_data : DataFrame :=
  {| rows :=
       hourly_from 0
         (map (fun v => (10, 11, 9, 10, v))
            (concat (repeat [100; 110] 10) ++ [1000]));
     columns := ohlcv |}.

(** Every bar has its close between its low and its high. *)
Definition close_within_range (data : DataFrame) : Prop :=
  Forall (fun b => low b <= close b /\ close b <= high b) (rows data).

(** Every bar has a positive low, under its close, under its high. *)
Definition positive_ohlc (data : DataFrame) : Prop :=
  Forall (fun b => 0 < low b /\ low b <= close b /\ close b <= high b)
    (rows data).

(** Some bar of the frame has this timestamp, close and volume. *)
Definition bar_of (data : DataFrame) (ts : Z) (price : option Q)
           (vol : option Q) : Prop :=
  exists b, In b (rows data) /\ timestamp b = ts /\
            (forall p, price = Some p -> close b = p) /\
            (forall v, vol = Some v -> volume b = v).

(** Shapes of a price series, by its consecutive values. *)
Definition flat (data : list Q) : Prop :=
  forall k a b, nth_error data k = Some a -> nth_error data (S k) = Some b ->
                a == b.

Definition rising (data : list Q) : Prop :=
  forall k a b, nth_error data k = Some a -> nth_error data (S k) = Some b ->
                a < b.

Definition falling (data : list Q) : Prop :=
  forall k a b, nth_error data k = Some a -> nth_error data (S k) = Some b ->
                b < a.

(** ** Technical indicators ([chart_generator.py], [TechnicalIndicators]) *)

(** The defined values of a window, or [None] when one is NaN: a rolling
    aggregate over a Series that holds NaN is undefined on every window
    that holds one. *)
Fixpoint all_defined (xs : list fval) : option (list Q) :=
  match xs with
  | [] => Some []
  | Fin q :: rest =>
      match all_defined rest with
      | Some qs => Some (q :: qs)
      | None => None
      end
  | _ :: _ => None
  end.

(** [xs.rolling(window=w).agg()] over a Series that may hold NaN. *)
Definition rolling_nan_at (agg : list Q -> fval) (w : nat)
           (xs : list fval) (i : nat) : fval :=
  let '(start, stop) := window_bounds w false (length xs) i in
  if ((w =? 0) || (stop - start <? w))%nat then NaN
  else match all_defined (slice xs start stop) with
       | Some qs => agg qs
       | None => NaN
       end.

Definition rolling_nan (agg : list Q -> fval) (w : nat) (xs : list fval)
  : list fval :=
  map (rolling_nan_at agg w xs) (seq 0 (length xs)).

(** [max] of two cells of a row with NaN skipped
    ([DataFrame.max(axis=1)]). *)
Definition max_skipna (x y : fval) : fval :=
  match x, y with
  | NaN, _ => y
  | _, NaN => x
  | _, _ => if Float.lt x y then y else x
  end.

Module TechnicalIndicators.

Definition sma (data : list Q) (period : nat) : list fval :=
  rolling Qlist_mean period false data.

Definition ema (data : list Q) (period : Z) : list Q :=
  ewm_mean period data.

Definition rsi (data : list Q) (period : nat) : list fval :=
  zip_with rsi_of (rsi_gain data period) (rsi_loss data period).

Definition macd (data : list Q) (fast slow signal : Z)
  : list Q * list Q * list Q :=
  let ema_fast := ema data fast in
  let ema_slow := ema data slow in
  let macd_line := zip_with Qminus ema_fast ema_slow in
  let signal_line := ema macd_line signal in
  let histogram := zip_with Qminus macd_line signal_line in
  (macd_line, signal_line, histogram).

Definition bollinger_bands (fsqrt : Q -> Q) (data : list Q) (period : nat)
           (std_dev : Q) : list fval * list fval * list fval :=
  let sma := sma data period in
  let std := rolling (Qlist_std fsqrt) period false data in
  let upper_band :=
    zip_with Float.add sma (map (fun s => Float.mul s (Fin std_dev)) std) in
  let lower_band :=
    zip_with Float.sub sma (map (fun s => Float.mul s (Fin std_dev)) std) in
  (upper_band, sma, lower_band).

(** The three Series are those of one frame: they have one index. *)
Definition true_range (high low close : list Q) : list fval :=
  let tr1 := zip_with (fun h l => Fin (h - l)) high low in
  let tr2 :=
    zip_with (fun h c => Float.abs (Float.sub (Fin h) c))
      high (shift1 (Fins close)) in
  let tr3 :=
    zip_with (fun l c => Float.abs (Float.sub (Fin l) c))
      low (shift1 (Fins close)) in
  zip_with max_skipna (zip_with max_skipna tr1 tr2) tr3.

Definition atr (high low close : list Q) (period : nat) : list fval :=
  rolling_nan Qlist_mean period (true_range high low close).

End TechnicalIndicators.

(** A well-formed cluster: its touches start with its representative, and
    every later touch is at or above the representative and near it. *)
Definition cluster_ok (tolerance : Q) (c : Q * list Q) : Prop :=
  exists rest,
    snd c = fst c :: rest /\
    Forall (fun t => fst c <= t /\ near t (fst c) tolerance = Ok true) rest.

(** The price of a level is the high (for a resistance) or the low (for a
    support) of some bar of the frame. *)
Definition level_source (data : DataFrame) (e : Level) : Prop :=
  exists b, In b (rows data) /\
            lv_level e = match lv_type e with
                         | resistance => high b
                         | support => low b
                         end.

(** What [_detect_support_resistance] guarantees of a level it reports. *)
Definition level_ok (cfg : Config) (data : DataFrame) (e : Level) : Prop :=
  (min_touches cfg <= lv_touches e)%nat /\
  level_source data e /\
  (0 <= tolerance cfg ->
   (1 <= lv_touches e <= length (rows data))%nat /\
   0 < lv_strength e <= 100).

(** ** The application ([main.py]) and the report statistics
       ([report_generator.py]) *)

(** A Python [dict] keyed by strings, in insertion order. *)
Definition sdict (V : Type) : Type := list (string * V).

Fixpoint sdict_get {V} (d : sdict V) (k : string) : option V :=
  match d with
  | [] => None
  | (k', v) :: rest => if String.eqb k' k then Some v else sdict_get rest k
  end.

(** [d[k] = v] *)
Fixpoint sdict_set {V} (d : sdict V) (k : string) (v : V) : sdict V :=
  match d with
  | [] => [(k, v)]
  | (k', v') :: rest =>
      if String.eqb k' k then (k', v) :: rest
      else (k', v') :: sdict_set rest k v
  end.

(** One value of the dict [analyze_tickers] returns.  [_calculate_statistics]
    asks whether the key ['patterns'] is there: it may be absent. *)
Record ResultEntry : Type := mkResultEntry {
  entry_data : DataFrame;
  entry_chart_path : option string;
  entry_patterns : option AnalysisResult;
  entry_timestamp : Z
}.

(** [data.empty]: one of the two axes has no label. *)
Definition DataFrame_empty (data : DataFrame) : bool :=
  match rows data, columns data with
  | [], _ | _, [] => true
  | _, _ => false
  end.

Section Application.

(** The collaborators of [analyze_tickers], as the loop sees them in its
    iteration [i]: the data fetcher (a DataFrame, [None], or an exception),
    the chart generator (a path, [None], or an exception) and the two clock
    readings, [pd.Timestamp.now()] inside [analyze] and [datetime.now()] when
    the entry is stored.  The fetcher and the chart generator talk to the
    network and the file system, so two iterations on one ticker need not
    agree. *)
Variable get_data : nat -> string -> res (option DataFrame).
Variable create_chart : nat -> string -> DataFrame -> res (option string).
Variable find_peaks : list fval -> list nat.
Variable fsqrt : Q -> Q.
Variable analyzed_at : nat -> Z.
Variable stored_at : nat -> Z.
Variable cfg : Config.

(** The body of the loop of [analyze_tickers]: every exception, and missing
    or empty data, skips the ticker. *)
Definition analyze_ticker (i : nat) (results : sdict ResultEntry)
           (ticker : string) : sdict ResultEntry :=
  match get_data i ticker with
  | Raise _ | Ok None => results
  | Ok (Some data) =>
      if DataFrame_empty data then results
      else
        match create_chart i ticker data with
        | Raise _ => results
        | Ok chart_path =>
            match analyze find_peaks fsqrt (analyzed_at i) cfg data ticker with
            | Raise _ => results
            | Ok patterns =>
                sdict_set results ticker
                  {| entry_data := data;
                     entry_chart_path := chart_path;
                     entry_patterns := Some patterns;
                     entry_timestamp := stored_at i |}
            end
        end
  end.

Fixpoint analyze_tickers_loop (i : nat) (tickers : list string)
         (results : sdict ResultEntry) : sdict ResultEntry :=
  match tickers with
  | [] => results
  | ticker :: rest =>
      analyze_tickers_loop (S i) rest (analyze_ticker i results ticker)
  end.

Definition analyze_tickers (tickers : list string) : sdict ResultEntry :=
  analyze_tickers_loop 0 tickers [].

(** Iteration [i] on [ticker] stores [entry]: the fetch returned data with
    bars and columns, the chart generator returned, and [entry] holds the
    data, the chart path, the result of [analyze] and the clock reading. *)
Definition entry_of (i : nat) (ticker : string) (entry : ResultEntry)
  : Prop :=
  exists data chart_path patterns,
    get_data i ticker = Ok (Some data) /\
    rows data <> [] /\ columns data <> [] /\
    create_chart i ticker data = Ok chart_path /\
    analyze find_peaks fsqrt (analyzed_at i) cfg data ticker = Ok patterns /\
    entry = {| entry_data := data;
               entry_chart_path := chart_path;
               entry_patterns := Some patterns;
               entry_timestamp := stored_at i |}.

End Application.

Record Statistics : Type := mkStatistics {
  st_total_symbols : nat;
  st_total_breakouts : nat;
  st_total_divergences : nat;
  st_total_trend_changes : nat;
  st_total_volume_anomalies : nat;
  st_symbols_with_breakouts : nat;
  st_symbols_with_divergences : nat;
  st_resistance_breakouts : nat;
  st_support_breakouts : nat;
  st_bullish_divergences : nat;
  st_bearish_divergences : nat
}.

Definition count_breakout (s : Statistics) (e : Breakout) : Statistics :=
  {| st_total_symbols := st_total_symbols s;
     st_total_breakouts := st_total_breakouts s;
     st_total_divergences := st_total_divergences s;
     st_total_trend_changes := st_total_trend_changes s;
     st_total_volume_anomalies := st_total_volume_anomalies s;
     st_symbols_with_breakouts := st_symbols_with_breakouts s;
     st_symbols_with_divergences := st_symbols_with_divergences s;
     st_resistance_breakouts :=
       match bo_type e with
       | resistance_breakout => S (st_resistance_breakouts s)
       | support_breakout => st_resistance_breakouts s
       end;
     st_support_breakouts :=
       match bo_type e with
       | resistance_breakout => st_support_breakouts s
       | support_breakout => S (st_support_breakouts s)
       end;
     st_bullish_divergences := st_bullish_divergences s;
     st_bearish_divergences := st_bearish_divergences s |}.

Definition count_divergence (s : Statistics) (e : Divergence) : Statistics :=
  {| st_total_symbols := st_total_symbols s;
     st_total_breakouts := st_total_breakouts s;
     st_total_divergences := st_total_divergences s;
     st_total_trend_changes := st_total_trend_changes s;
     st_total_volume_anomalies := st_total_volume_anomalies s;
     st_symbols_with_breakouts := st_symbols_with_breakouts s;
     st_symbols_with_divergences := st_symbols_with_divergences s;
     st_resistance_breakouts := st_resistance_breakouts s;
     st_support_breakouts := st_support_breakouts s;
     st_bullish_divergences :=
       match dv_type e with
       | bullish_divergence => S (st_bullish_divergences s)
       | bearish_divergence => st_bullish_divergences s
       end;
     st_bearish_divergences :=
       match dv_type e with
       | bullish_divergence => st_bearish_divergences s
       | bearish_divergence => S (st_bearish_divergences s)
       end |}.

(** The part of the loop body that handles ['breakouts']. *)
Definition count_breakouts (s : Statistics) (bs : list Breakout)
  : Statistics :=
  let s1 :=
    {| st_total_symbols := st_total_symbols s;
       st_total_breakouts := st_total_breakouts s + length bs;
       st_total_divergences := st_total_divergences s;
       st_total_trend_changes := st_total_trend_changes s;
       st_total_volume_anomalies := st_total_volume_anomalies s;
       st_symbols_with_breakouts :=
         match bs with
         | [] => st_symbols_with_breakouts s
         | _ => st_symbols_with_breakouts s + 1
         end;
       st_symbols_with_divergences := st_symbols_with_divergences s;
       st_resistance_breakouts := st_resistance_breakouts s;
       st_support_breakouts := st_support_breakouts s;
       st_bullish_divergences := st_bullish_divergences s;
       st_bearish_divergences := st_bearish_divergences s |} in
  fold_left count_breakout bs s1.

(** The part of the loop body that handles ['divergences']. *)
Definition count_divergences (s : Statistics) (ds : list Divergence)
  : Statistics :=
  let s1 :=
    {| st_total_symbols := st_total_symbols s;
       st_total_breakouts := st_total_breakouts s;
       st_total_divergences := st_total_divergences s + length ds;
       st_total_trend_changes := st_total_trend_changes s;
       st_total_volume_anomalies := st_total_volume_anomalies s;
       st_symbols_with_breakouts := st_symbols_with_breakouts s;
       st_symbols_with_divergences :=
         match ds with
         | [] => st_symbols_with_divergences s
         | _ => st_symbols_with_divergences s + 1
         end;
       st_resistance_breakouts := st_resistance_breakouts s;
       st_support_breakouts := st_support_breakouts s;
       st_bullish_divergences := st_bullish_divergences s;
       st_bearish_divergences := st_bearish_divergences s |} in
  fold_left count_divergence ds s1.

Definition count_rest (s : Statistics) (p : AnalysisResult) : Statistics :=
  {| st_total_symbols := st_total_symbols s;
     st_total_breakouts := st_total_breakouts s;
     st_total_divergences := st_total_divergences s;
     st_total_trend_changes :=
       st_total_trend_changes s + length (trend_changes p);
     st_total_volume_anomalies :=
       st_total_volume_anomalies s + length (volume_anomalies p);
     st_symbols_with_breakouts := st_symbols_with_breakouts s;
     st_symbols_with_divergences := st_symbols_with_divergences s;
     st_resistance_breakouts := st_resistance_breakouts s;
     st_support_breakouts := st_support_breakouts s;
     st_bullish_divergences := st_bullish_divergences s;
     st_bearish_divergences := st_bearish_divergences s |}.

(** The body of the loop of [_calculate_statistics]. *)
Definition count_entry (s : Statistics) (item : string * ResultEntry)
  : Statistics :=
  match entry_patterns (snd item) with
  | None => s
  | Some p =>
      count_rest
        (count_divergences (count_breakouts s (breakouts p)) (divergences p))
        p
  end.

Definition _calculate_statistics (analysis_results : sdict ResultEntry)
  : Statistics :=
  fold_left count_entry analysis_results
    {| st_total_symbols := length analysis_results;
       st_total_breakouts := 0;
       st_total_divergences := 0;
       st_total_trend_changes := 0;
       st_total_volume_anomalies := 0;
       st_symbols_with_breakouts := 0;
       st_symbols_with_divergences := 0;
       st_resistance_breakouts := 0;
       st_support_breakouts := 0;
       st_bullish_divergences := 0;
       st_bearish_divergences := 0 |}.

(** The bookkeeping [_calculate_statistics] keeps: the counts by type add
    up to the totals, and the symbols counted as having events number at
    most the entries seen ([seen]) and at most the events. *)
Definition statistics_consistent (seen : nat) (s : Statistics) : Prop :=
  (st_resistance_breakouts s + st_support_breakouts s
   = st_total_breakouts s)%nat /\
  (st_bullish_divergences s + st_bearish_divergences s
   = st_total_divergences s)%nat /\
  (st_symbols_with_breakouts s <= seen)%nat /\
  (st_symbols_with_breakouts s <= st_total_breakouts s)%nat /\
  (st_symbols_with_divergences s <= seen)%nat /\
  (st_symbols_with_divergences s <= st_total_divergences s)%nat.

(** A fetcher that has bars for AAA, nothing for BBB, an empty frame for CCC
    and fails on every other ticker, and a chart generator that always
    returns a path. *)
Definition sample_get_data (i : nat) (ticker : string)
  : res (option DataFrame) :=
  if String.eqb ticker "AAA" then Ok (Some levels_data)
  else if String.eqb ticker "BBB" then Ok None
  else if String.eqb ticker "CCC" then Ok (Some empty_data)
  else Raise ValueError.

Definition sample_create_chart (i : nat) (ticker : string)
           (data : DataFrame) : res (option string) :=
  Ok (Some ("charts/" ++ ticker ++ ".png")%string).

Definition sample_tickers : list string := ["BBB"; "AAA"; "CCC"; "DDD"]%string.

(** ** Config: the nested dict behind [get] and [set] *)

(** A value of the configuration, as [yaml.safe_load] or
    [_get_default_config] builds it.  The keys of a dict are strings, and the
    configuration is a tree: no dict is reachable by two paths. *)
Inductive yaml : Type :=
| YDict (items : sdict yaml)
| YList (items : list yaml)
| YStr (s : string)
| YInt (z : Z)
| YFloat (q : Q)
| YBool (b : bool)
| YNone.

(** What [set] does: it returns with the dict updated, or raises. *)
Inductive set_result : Type :=
| Updated (config : yaml)
| TypeError
| KeysIndexError.

Module ConfigDict.

(** [key.split('.')] *)
Fixpoint split_dots (key : string) : list string :=
  match key with
  | EmptyString => [EmptyString]
  | String c rest =>
      if Ascii.eqb c "."%char then EmptyString :: split_dots rest
      else
        match split_dots rest with
        | [] => [String c EmptyString]
        | k :: ks => String c k :: ks
        end
  end.

(** The loop of [get]: follow the keys through the dicts, and give the
    default at the first value that is no dict or lacks the key. *)
Fixpoint get_path (keys : list string) (value default : yaml) : yaml :=
  match keys with
  | [] => value
  | k :: rest =>
      match value with
      | YDict items =>
          match sdict_get items k with
          | Some v => get_path rest v default
          | None => default
          end
      | _ => default
      end
  end.

Definition get (config : yaml) (key : string) (default : yaml) : yaml :=
  get_path (split_dots key) config default.

(** The loop of [set] over [keys[:-1]], which creates the dicts that are
    missing, and the assignment [config[keys[-1]] = value].  The dicts are
    updated in place, so the updated root is returned.  A value that is no
    dict raises TypeError: at its membership test, at its item assignment or
    at its subscript with a string. *)
Fixpoint set_path (keys : list string) (value config : yaml) : set_result :=
  match keys with
  | [] => KeysIndexError
  | [k] =>
      match config with
      | YDict items => Updated (YDict (sdict_set items k value))
      | _ => TypeError
      end
  | k :: rest =>
      match config with
      | YDict items =>
          let child := match sdict_get items k with
                       | Some v => v
                       | None => YDict []
                       end in
          match set_path rest value child with
          | Updated child' => Updated (YDict (sdict_set items k child'))
          | raised => raised
          end
      | _ => TypeError
      end
  end.

Definition set (config : yaml) (key : string) (value : yaml) : set_result :=
  set_path (split_dots key) value config.

Local Open Scope string_scope.

Definition _get_default_config : yaml :=
  YDict
    [("api", YDict [("provider", YStr "binance");
                    ("api_key", YStr "");
                    ("api_secret", YStr "");
                    ("rate_limit", YFloat 1)]);
     ("charts", YDict [("width", YInt 1200);
                       ("height", YInt 800);
                       ("dpi", YInt 100);
                       ("style", YStr "darkgrid");
                       ("indicators",
                        YDict [("sma", YList [YInt 20; YInt 50; YInt 200]);
                               ("ema", YList [YInt 12; YInt 26]);
                               ("rsi", YInt 14);
                               ("macd", YList [YInt 12; YInt 26; YInt 9]);
                               ("bollinger", YList [YInt 20; YInt 2]);
                               ("volume", YBool true)])]);
     ("patterns",
      YDict [("breakout", YDict [("enabled", YBool true);
                                 ("lookback_periods", YInt 20);
                                 ("volume_threshold", YFloat (15 # 10))]);
             ("divergence", YDict [("enabled", YBool true);
                                   ("rsi_periods", YInt 14);
                                   ("min_divergence_strength",
                                    YFloat (3 # 10))]);
             ("support_resistance", YDict [("enabled", YBool true);
                                           ("min_touches", YInt 2);
                                           ("tolerance", YFloat (2 # 100))])]);
     ("reports", YDict [("format", YStr "html");
                        ("include_charts", YBool true);
                        ("include_indicators", YBool true);
                        ("include_patterns", YBool true)]);
     ("output", YDict [("charts_dir", YStr "charts");
                       ("reports_dir", YStr "reports");
                       ("screenshots_dir", YStr "screenshots");
                       ("data_dir", YStr "data")])].

End ConfigDict.

(** The value a path of keys leads to, if every step is a key of a dict. *)
Fixpoint find_path (keys : list string) (value : yaml) : option yaml :=
  match keys with
  | [] => Some value
  | k :: rest =>
      match value with
      | YDict items =>
          match sdict_get items k with
          | Some v => find_path rest v
          | None => None
          end
      | _ => None
      end
  end.

Definition is_dict (value : yaml) : bool :=
  match value with
  | YDict _ => true
  | _ => false
  end.

(** * Properties *)

(** ** Comparisons *)

Lemma Qlt_bool_iff x y : Qlt_bool x y = true <-> x < y.
Proof.
  unfold Qlt_bool. rewrite negb_true_iff, <- not_true_iff_false, Qle_bool_iff.
  split; [apply Qnot_le_lt | apply Qlt_not_le].
Qed.

(** ** Lists, masks and loops *)

Lemma nth_error_map_seq {A} (f : nat -> A) n i :
  (i < n)%nat -> nth_error (map f (seq 0 n)) i = Some (f i).
Proof.
  intros Hi. rewrite nth_error_map, nth_error_seq.
  destruct (Nat.ltb_spec i n); [reflexivity | lia].
Qed.

Lemma nth_error_zip_with {A B C} (f : A -> B -> C) xs ys i c :
  nth_error (zip_with f xs ys) i = Some c <->
  exists a b, nth_error xs i = Some a /\ nth_error ys i = Some b /\ c = f a b.
Proof.
  revert ys i. induction xs as [|x xs IH]; intros ys i.
  - simpl. split.
    + destruct i; discriminate.
    + intros (a & b & Ha & _). destruct i; discriminate.
  - destruct ys as [|y ys].
    + simpl. split.
      * destruct i; discriminate.
      * intros (a & b & _ & Hb & _). destruct i; discriminate.
    + destruct i as [|i]; simpl.
      * split.
        -- intros [= <-]. eauto.
        -- intros (a & b & [= <-] & [= <-] & ->). reflexivity.
      * apply IH.
Qed.

Lemma zip_with_length {A B C} (f : A -> B -> C) xs ys :
  length (zip_with f xs ys) = Nat.min (length xs) (length ys).
Proof.
  revert ys. induction xs as [|x xs IH]; intros [|y ys]; simpl; auto.
Qed.

Lemma In_select {A} (xs : list A) mask x :
  In x (select xs mask) <->
  exists i, nth_error xs i = Some x /\ nth_error mask i = Some true.
Proof.
  revert mask. induction xs as [|a xs IH]; intros mask.
  - simpl. split; [tauto | intros (i & Hi & _); destruct i; discriminate].
  - destruct mask as [|m mask].
    + simpl. split; [tauto | intros (i & _ & Hi); destruct i; discriminate].
    + simpl. destruct m.
      * simpl. rewrite IH. split.
        -- intros [<- | (i & H1 & H2)]; [exists 0%nat | exists (S i)]; auto.
        -- intros (i & H1 & H2). destruct i as [|i]; simpl in *.
           ++ left. congruence.
           ++ right. eauto.
      * rewrite IH. split.
        -- intros (i & H1 & H2). exists (S i). auto.
        -- intros (i & H1 & H2). destruct i as [|i]; simpl in *.
           ++ discriminate.
           ++ eauto.
Qed.

Lemma select_nil_mask {A} (xs : list A) : select xs [] = [].
Proof. destruct xs; reflexivity. Qed.

Lemma nth_error_shift1 s i :
  nth_error (shift1 s) (S i) =
  if (S i <? length s)%nat then nth_error s i else None.
Proof.
  destruct s as [|x s]; [reflexivity|].
  cbn [shift1 nth_error]. revert x i.
  induction s as [|y s IH]; intros x i.
  - simpl. destruct i; reflexivity.
  - destruct i as [|i].
    + reflexivity.
    + change (removelast (x :: y :: s)) with (x :: removelast (y :: s)).
      cbn [nth_error]. rewrite IH. reflexivity.
Qed.

Lemma nth_error_shift1_0 s x :
  nth_error (shift1 s) 0 = Some x -> x = NaN.
Proof. destruct s; simpl; congruence. Qed.

Lemma rolling_length agg w c xs : length (rolling agg w c xs) = length xs.
Proof. unfold rolling. now rewrite length_map, length_seq. Qed.

Lemma nth_error_rolling agg w c xs i :
  (i < length xs)%nat ->
  nth_error (rolling agg w c xs) i = Some (rolling_at agg w c xs i).
Proof. apply nth_error_map_seq. Qed.

Lemma nth_error_rolling_inv agg w c xs i v :
  nth_error (rolling agg w c xs) i = Some v ->
  (i < length xs)%nat /\ v = rolling_at agg w c xs i.
Proof.
  intros H. assert (Hi : (i < length xs)%nat).
  { rewrite <- (rolling_length agg w c). apply nth_error_Some. congruence. }
  split; [exact Hi|]. rewrite nth_error_rolling in H by exact Hi. congruence.
Qed.

(** A defined rolling value is the aggregate of a full window inside the
    series. *)
Lemma rolling_at_defined agg w c xs i :
  rolling_at agg w c xs i <> NaN ->
  (1 <= w /\ w <= i + 1 + window_offset w c
   /\ i + 1 + window_offset w c <= length xs)%nat /\
  rolling_at agg w c xs i =
  agg (slice xs (i + 1 + window_offset w c - w) (i + 1 + window_offset w c)).
Proof.
  unfold rolling_at, window_bounds. generalize (window_offset w c) as off.
  intros off H.
  destruct (Nat.eqb_spec w 0) as [->|Hw]; [now elim H|].
  destruct (Nat.ltb_spec
              (Nat.min (i + 1 + off) (length xs)
               - Nat.min (i + 1 + off - w) (length xs)) w) as [Hlt|Hge];
    [now elim H|].
  cbn [orb] in H |- *.
  assert (i + 1 + off <= length xs)%nat by lia.
  assert (w <= i + 1 + off)%nat by lia.
  split; [lia|].
  rewrite !Nat.min_l by lia. reflexivity.
Qed.

Lemma for_each_append {A E} (f : A -> E) xs (s : list E) :
  for_each xs (fun x => append (f x)) s = (s ++ map f xs, Ok tt).
Proof.
  revert s. induction xs as [|x xs IH]; intros s; simpl.
  - unfold ret. now rewrite app_nil_r.
  - unfold bind, append, modify. rewrite IH, <- app_assoc. reflexivity.
Qed.

Lemma Float_gt_Fin a y :
  Float.gt (Fin a) y = true ->
  (exists b, y = Fin b /\ b < a) \/ y = NInf.
Proof.
  unfold Float.gt, Float.lt. destruct y; try discriminate; auto.
  rewrite Qlt_bool_iff. eauto.
Qed.

Lemma Float_lt_Fin a y :
  Float.lt (Fin a) y = true ->
  (exists b, y = Fin b /\ a < b) \/ y = PInf.
Proof.
  unfold Float.lt. destruct y; try discriminate; auto.
  rewrite Qlt_bool_iff. eauto.
Qed.

(** ** Breakouts *)

Lemma getitem_ok data c :
  has_column data c = true -> getitem data c = Ok (col c data).
Proof. unfold getitem, has_column, col. now intros ->. Qed.

Lemma getitem_missing data c :
  has_column data c = false -> getitem data c = Raise KeyError.
Proof. unfold getitem, has_column. now intros ->. Qed.

(** What [_detect_breakouts] returns: the flagged rows as resistance
    breakouts, then the flagged rows as support breakouts; nothing when a
    column is missing. *)
Lemma detect_breakouts_eq cfg data :
  _detect_breakouts cfg data =
  if has_column data High && has_column data Low && has_column data Close
     && has_column data Open && has_column data Volume
  then map (breakout_event data resistance_breakout)
         (select (rows data) (resistance_flags cfg data))
       ++ map (breakout_event data support_breakout)
            (select (rows data) (support_flags cfg data))
  else [].
Proof.
  unfold _detect_breakouts, try_except, detect_breakouts_body, bind, lift.
  destruct (has_column data High) eqn:Hh;
    [rewrite (getitem_ok _ _ Hh) | now rewrite (getitem_missing _ _ Hh)].
  destruct (has_column data Low) eqn:Hl;
    [rewrite (getitem_ok _ _ Hl) | now rewrite (getitem_missing _ _ Hl)].
  destruct (has_column data Close) eqn:Hc;
    [rewrite (getitem_ok _ _ Hc) | now rewrite (getitem_missing _ _ Hc)].
  destruct (has_column data Open) eqn:Ho;
    [rewrite (getitem_ok _ _ Ho) | now rewrite (getitem_missing _ _ Ho)].
  destruct (has_column data Volume) eqn:Hv;
    [rewrite (getitem_ok _ _ Hv) | now rewrite (getitem_missing _ _ Hv)].
  cbn [andb]. rewrite for_each_append, for_each_append. reflexivity.
Qed.

Lemma fval_nan_dec (x : fval) : {x = NaN} + {x <> NaN}.
Proof. destruct x; (now left) || (right; discriminate). Qed.

Lemma Qlist_max_cases xs :
  Qlist_max xs = NaN \/ exists m, Qlist_max xs = Fin m.
Proof. destruct xs; simpl; eauto. Qed.

Lemma Qlist_min_cases xs :
  Qlist_min xs = NaN \/ exists m, Qlist_min xs = Fin m.
Proof. destruct xs; simpl; eauto. Qed.

Lemma Qlist_mean_cases xs :
  Qlist_mean xs = NaN \/ Qlist_mean xs = Fin (Qmean xs).
Proof. destruct xs; simpl; eauto. Qed.

Lemma nth_error_col c data i b :
  nth_error (rows data) i = Some b ->
  nth_error (col c data) i = Some (cell c b).
Proof. intros H. unfold col. now rewrite nth_error_map, H. Qed.

Lemma nth_error_Fins xs i v :
  nth_error (Fins xs) i = Some v ->
  exists q, nth_error xs i = Some q /\ v = Fin q.
Proof.
  unfold Fins. rewrite nth_error_map.
  destruct (nth_error xs i); simpl; [intros [= <-]; eauto | discriminate].
Qed.

(** The value a position is compared with after [shift(1)] of a rolling
    series: the rolling value of the position before it. *)
Lemma shifted_rolling agg w c xs i v :
  nth_error (shift1 (rolling agg w c xs)) i = Some v ->
  v <> NaN ->
  exists j, i = S j /\ v = rolling_at agg w c xs j.
Proof.
  intros H Hv. destruct i as [|j].
  - apply nth_error_shift1_0 in H. contradiction.
  - exists j. split; [reflexivity|].
    rewrite nth_error_shift1 in H.
    destruct (S j <? length (rolling agg w c xs))%nat; [|discriminate].
    now apply nth_error_rolling_inv in H.
Qed.

(** The volume condition of a flagged row. *)
Lemma high_volume_true w thr vols i :
  nth_error (high_volume w thr vols) i = Some true ->
  exists v,
    nth_error vols i = Some v /\ (1 <= w <= i + 1)%nat /\
    exists xs, xs = slice vols (i + 1 - w) (i + 1) /\
               Qlist_mean xs = Fin (Qmean xs) /\ Qmean xs * thr < v.
Proof.
  unfold high_volume. intros H.
  apply nth_error_zip_with in H as (a & b & Ha & Hb & Hgt).
  apply nth_error_Fins in Ha as (v & Hv & ->).
  rewrite nth_error_map in Hb.
  destruct (nth_error (rolling Qlist_mean w false vols) i) as [r|] eqn:Hr;
    [|discriminate].
  injection Hb as <-.
  apply nth_error_rolling_inv in Hr as [Hi ->].
  symmetry in Hgt.
  destruct (fval_nan_dec (rolling_at Qlist_mean w false vols i)) as [E|Hdef];
    [rewrite E in Hgt; discriminate|].
  apply rolling_at_defined in Hdef as [(H1 & H2 & H3) Heq].
  cbn [window_offset] in *. rewrite Nat.add_0_r in *.
  rewrite Heq in Hgt.
  destruct (Qlist_mean_cases (slice vols (i + 1 - w) (i + 1))) as [E|E];
    rewrite E in Hgt; [discriminate|].
  exists v. split; [exact Hv|]. split; [lia|].
  eexists. split; [reflexivity|]. split; [exact E|].
  simpl in Hgt. unfold Float.gt, Float.lt in Hgt. now apply Qlt_bool_iff.
Qed.

(** A row flagged by [resistance_breaks & high_volume]: its close is above
    the centered rolling maximum of the row before it, above its open, and
    its volume is above the threshold times the trailing mean volume. *)
Lemma resistance_flag_true cfg data i :
  nth_error (resistance_flags cfg data) i = Some true ->
  exists b,
    nth_error (rows data) i = Some b /\
    (1 <= i /\ lookback_periods cfg <= i + window_offset (lookback_periods cfg) true
     /\ i + window_offset (lookback_periods cfg) true <= length (rows data))%nat /\
    (exists m,
        Qlist_max (slice (col High data)
                     (i + window_offset (lookback_periods cfg) true
                      - lookback_periods cfg)
                     (i + window_offset (lookback_periods cfg) true)) = Fin m /\
        m < close b) /\
    open b < close b /\
    (1 <= lookback_periods cfg <= i + 1)%nat /\
    Qmean (slice (col Volume data) (i + 1 - lookback_periods cfg) (i + 1))
    * volume_threshold cfg < volume b.
Proof.
  unfold resistance_flags. set (w := lookback_periods cfg). intros H.
  apply nth_error_zip_with in H as (r & hv & Hr & Hhv & Hand).
  symmetry in Hand. apply andb_true_iff in Hand as [-> ->].
  unfold resistance_breaks in Hr.
  apply nth_error_zip_with in Hr as (p & q & Hp & Hq & Hand).
  symmetry in Hand. apply andb_true_iff in Hand as [-> ->].
  apply nth_error_zip_with in Hp as (c & h & Hc & Hh & Hgt).
  apply nth_error_zip_with in Hq as (c' & o & Hc' & Ho & Hgt').
  apply nth_error_Fins in Hc as (cq & Hcq & ->).
  apply nth_error_Fins in Hc' as (cq' & Hcq' & ->).
  apply nth_error_Fins in Ho as (oq & Hoq & ->).
  assert (Hb : exists b, nth_error (rows data) i = Some b).
  { unfold col in Hcq. rewrite nth_error_map in Hcq.
    destruct (nth_error (rows data) i); [eauto | discriminate]. }
  destruct Hb as [b Hb].
  rewrite (nth_error_col Close _ _ _ Hb) in Hcq, Hcq'.
  rewrite (nth_error_col Open _ _ _ Hb) in Hoq.
  injection Hcq as <-. injection Hcq' as <-. injection Hoq as <-.
  cbn [cell] in *.
  symmetry in Hgt, Hgt'.
  apply Float_gt_Fin in Hgt' as [(o' & [= <-] & Hopen)|]; [|discriminate].
  apply Float_gt_Fin in Hgt as [(m & -> & Hm)| ->].
  - apply shifted_rolling in Hh as (j & -> & Hroll); [|discriminate].
    assert (Hdef : rolling_at Qlist_max w true (col High data) j <> NaN)
      by (rewrite <- Hroll; discriminate).
    apply rolling_at_defined in Hdef as [(H1 & H2 & H3) Heq].
    rewrite <- Hroll in Heq.
    replace (j + 1 + window_offset w true)%nat
      with (S j + window_offset w true)%nat in * by lia.
    apply high_volume_true in Hhv as (v & Hv & Hw & xs & -> & _ & Hvol).
    rewrite (nth_error_col Volume _ _ _ Hb) in Hv. injection Hv as <-.
    exists b. unfold col in H3. rewrite length_map in H3.
    repeat split; try lia; eauto.
  - apply shifted_rolling in Hh as (j & -> & Hroll); [|discriminate].
    assert (Hdef : rolling_at Qlist_max w true (col High data) j <> NaN)
      by (rewrite <- Hroll; discriminate).
    apply rolling_at_defined in Hdef as [_ Heq].
    rewrite <- Hroll in Heq.
    destruct (Qlist_max_cases
                (slice (col High data) (j + 1 + window_offset w true - w)
                   (j + 1 + window_offset w true))) as [E|[m E]];
      congruence.
Qed.

(** Every resistance breakout reported comes from a bar [i] whose close is
    strictly above the centered rolling maximum of the highs taken at bar
    [i-1], that is the maximum over the [lookback] bars
    [i + off - lookback .. i + off - 1] with [off = (lookback - 1) // 2];
    the bar closes above its open, and its volume is strictly above
    [volume_threshold] times the mean volume of the [lookback] bars ending
    at [i]. *)
Lemma resistance_breakout_centered_window cfg data e :
  In e (_detect_breakouts cfg data) ->
  bo_type e = resistance_breakout ->
  exists i b,
    nth_error (rows data) i = Some b /\
    e = breakout_event data resistance_breakout b /\
    (1 <= i /\ lookback_periods cfg <= i + window_offset (lookback_periods cfg) true
     /\ i + window_offset (lookback_periods cfg) true <= length (rows data))%nat /\
    (exists m,
        Qlist_max (slice (col High data)
                     (i + window_offset (lookback_periods cfg) true
                      - lookback_periods cfg)
                     (i + window_offset (lookback_periods cfg) true)) = Fin m /\
        m < close b) /\
    open b < close b /\
    (1 <= lookback_periods cfg <= i + 1)%nat /\
    Qmean (slice (col Volume data) (i + 1 - lookback_periods cfg) (i + 1))
    * volume_threshold cfg < volume b.
Proof.
  rewrite detect_breakouts_eq. intros Hin Hty.
  destruct (has_column data High && has_column data Low
            && has_column data Close && has_column data Open
            && has_column data Volume); [|contradiction].
  apply in_app_or in Hin as [Hin|Hin]; apply in_map_iff in Hin as (b & <- & Hb).
  - apply In_select in Hb as (i & Hrow & Hflag).
    apply resistance_flag_true in Hflag as (b' & Hrow' & Hrest).
    assert (b' = b) by congruence. subst b'.
    exists i, b. split; [exact Hrow|]. split; [reflexivity|]. exact Hrest.
  - discriminate.
Qed.

(** A bar that closes above its own high can be reported against the
    centered window alone: bar 20 of [lookahead_data] is such a bar, and
    with the default lookback of 20 it is reported as a resistance breakout
    although it closes at 5, under the maximum 10 of the highs of the twenty
    bars 0..19 that end at bar 19. *)
Lemma resistance_breakout_of_bar_above_its_high :
  exists b,
    nth_error (rows lookahead_data) 20 = Some b /\
    high b < close b /\
    In (breakout_event lookahead_data resistance_breakout b)
       (_detect_breakouts default_config lookahead_data) /\
    nth_error (resistance_flags default_config lookahead_data) 20 = Some true /\
    rolling_at Qlist_max (lookback_periods default_config) false
      (col High lookahead_data) 19 = Fin 10 /\
    ~ 10 < close b.
Proof.
  eexists. split; [reflexivity|].
  split; [reflexivity|].
  split; [vm_compute; left; reflexivity|].
  split; [vm_compute; reflexivity|].
  split; [vm_compute; reflexivity|].
  vm_compute. discriminate.
Qed.

Lemma fold_left_Qmax_ge xs a :
  a <= fold_left Qmax xs a /\ forall x, In x xs -> x <= fold_left Qmax xs a.
Proof.
  revert a. induction xs as [|y xs IH]; intros a; simpl.
  - split; [apply Qle_refl | tauto].
  - destruct (IH (Qmax a y)) as [H1 H2]. split.
    + eapply Qle_trans; [apply Q.le_max_l | exact H1].
    + intros x [<-|Hx]; [|exact (H2 x Hx)].
      eapply Qle_trans; [apply Q.le_max_r | exact H1].
Qed.

Lemma Qlist_max_ge xs m x : Qlist_max xs = Fin m -> In x xs -> x <= m.
Proof.
  destruct xs as [|a xs]; [discriminate|]. simpl.
  intros [= <-] [<-|Hx].
  - exact (proj1 (fold_left_Qmax_ge xs a)).
  - exact (proj2 (fold_left_Qmax_ge xs a) x Hx).
Qed.

Lemma In_slice {A} (xs : list A) start stop i x :
  nth_error xs i = Some x -> (start <= i < stop)%nat ->
  In x (slice xs start stop).
Proof.
  intros Hx Hi. unfold slice.
  apply (nth_error_In _ (i - start)).
  rewrite nth_error_firstn.
  destruct (Nat.ltb_spec (i - start) (stop - start)); [|lia].
  rewrite nth_error_skipn. now replace (start + (i - start))%nat with i by lia.
Qed.

(** With a lookback of three bars or more the centered window read at bar
    [i-1] holds bar [i] itself: no bar whose high is at least its close is
    ever flagged as a resistance breakout. *)
Lemma resistance_flag_needs_close_above_high cfg data i b :
  (3 <= lookback_periods cfg)%nat ->
  nth_error (rows data) i = Some b ->
  nth_error (resistance_flags cfg data) i = Some true ->
  high b < close b.
Proof.
  intros Hw Hrow Hflag.
  apply resistance_flag_true in Hflag
    as (b' & Hrow' & (H1 & H2 & H3) & (m & Hmax & Hm) & _).
  assert (b' = b) by congruence. subst b'.
  eapply Qle_lt_trans; [|exact Hm].
  apply (Qlist_max_ge _ _ _ Hmax).
  apply (In_slice _ _ _ i); [apply (nth_error_col High _ _ _ Hrow)|].
  unfold window_offset in *.
  assert (1 <= (lookback_periods cfg - 1) / 2)%nat
    by (apply Nat.div_le_lower_bound; lia).
  assert ((lookback_periods cfg - 1) / 2 < lookback_periods cfg)%nat
    by (apply Nat.Div0.div_lt_upper_bound; lia).
  lia.
Qed.

(** C1.  On a series whose bars close at or under their high, every
    resistance breakout reported comes from a bar [i] whose close is
    strictly above the maximum of the highs of the [lookback] bars
    [i - lookback .. i - 1], the window that ends at bar [i-1]; the bar
    closes above its open, and its volume is strictly above
    [volume_threshold] times the mean volume of the [lookback] bars ending
    at [i].  (The code reads a centered window: with a lookback of 1 or 2 it
    is this trailing window, and with a lookback of 3 or more it holds bar
    [i], so that no such bar is reported.) *)
Theorem resistance_breakout_conditions cfg data e :
  Forall (fun b => close b <= high b) (rows data) ->
  In e (_detect_breakouts cfg data) ->
  bo_type e = resistance_breakout ->
  exists i b,
    nth_error (rows data) i = Some b /\
    e = breakout_event data resistance_breakout b /\
    (1 <= lookback_periods cfg <= i)%nat /\
    (exists m,
        Qlist_max (slice (col High data) (i - lookback_periods cfg) i)
        = Fin m /\
        m < close b) /\
    open b < close b /\
    Qmean (slice (col Volume data) (i + 1 - lookback_periods cfg) (i + 1))
    * volume_threshold cfg < volume b.
Proof.
  intros Hwf Hin Hty.
  destruct (resistance_breakout_centered_window cfg data e Hin Hty)
    as (i & b & Hrow & He & (H1 & H2 & H3) & (m & Hmax & Hm) & Hopen
        & Hw & Hvol).
  assert (Hoff : window_offset (lookback_periods cfg) true = 0%nat).
  { destruct (Nat.le_gt_cases 3 (lookback_periods cfg)) as [Hge|Hlt].
    - exfalso. rewrite Forall_forall in Hwf.
      pose proof (Hwf b (nth_error_In _ _ Hrow)) as Hch.
      assert (Hhm : high b <= m).
      { apply (Qlist_max_ge _ _ _ Hmax).
        apply (In_slice _ _ _ i); [apply (nth_error_col High _ _ _ Hrow)|].
        unfold window_offset in *.
        assert (1 <= (lookback_periods cfg - 1) / 2)%nat
          by (apply Nat.div_le_lower_bound; lia).
        assert ((lookback_periods cfg - 1) / 2 < lookback_periods cfg)%nat
          by (apply Nat.Div0.div_lt_upper_bound; lia).
        lia. }
      lra.
    - unfold window_offset.
      destruct (lookback_periods cfg) as [|[|[|n]]]; try reflexivity. lia. }
  rewrite Hoff, !Nat.add_0_r in *.
  exists i, b. split; [exact Hrow|]. split; [exact He|].
  split; [lia|]. split; [exists m; split; assumption|].
  split; assumption.
Qed.

Lemma resistance_breakout_conditions_witness :
  exists i b,
    nth_error (rows two_breakouts_data) i = Some b /\
    mkBreakout resistance_breakout 14400 11 400 (Fin 0)
    = breakout_event two_breakouts_data resistance_breakout b /\
    (1 <= 2 <= i)%nat /\
    (exists m,
        Qlist_max (slice (col High two_breakouts_data) (i - 2) i) = Fin m /\
        m < close b) /\
    open b < close b /\
    Qmean (slice (col Volume two_breakouts_data) (i + 1 - 2) (i + 1))
    * (15 # 10) < volume b.
Proof.
  apply (resistance_breakout_conditions lookback2_config two_breakouts_data).
  - vm_compute. repeat constructor; discriminate.
  - vm_compute. left. reflexivity.
  - reflexivity.
Defined.

Lemma support_flag_true cfg data i :
  nth_error (support_flags cfg data) i = Some true ->
  exists b, nth_error (rows data) i = Some b /\ close b < open b.
Proof.
  unfold support_flags, support_breaks. intros H.
  apply nth_error_zip_with in H as (r & hv & Hr & _ & Hand).
  symmetry in Hand. apply andb_true_iff in Hand as [-> _].
  apply nth_error_zip_with in Hr as (p & q & _ & Hq & Hand).
  symmetry in Hand. apply andb_true_iff in Hand as [_ ->].
  apply nth_error_zip_with in Hq as (c & o & Hc & Ho & Hlt).
  apply nth_error_Fins in Hc as (cq & Hcq & ->).
  apply nth_error_Fins in Ho as (oq & Hoq & ->).
  assert (Hb : exists b, nth_error (rows data) i = Some b).
  { unfold col in Hcq. rewrite nth_error_map in Hcq.
    destruct (nth_error (rows data) i); [eauto | discriminate]. }
  destruct Hb as [b Hb]. exists b. split; [exact Hb|].
  rewrite (nth_error_col Close _ _ _ Hb) in Hcq.
  rewrite (nth_error_col Open _ _ _ Hb) in Hoq.
  injection Hcq as <-. injection Hoq as <-.
  symmetry in Hlt. now apply Qlt_bool_iff in Hlt.
Qed.

(** Selecting rows keeps their order. *)
Lemma select_sorted {A} (R : Z -> Z -> Prop) (f : A -> Z) xs mask :
  StronglySorted R (map f xs) -> StronglySorted R (map f (select xs mask)).
Proof.
  revert mask. induction xs as [|x xs IH]; intros mask Hs.
  - constructor.
  - destruct mask as [|m mask]; [constructor|].
    simpl in Hs. apply StronglySorted_inv in Hs as [Hs Hall].
    simpl. destruct m; [|auto].
    simpl. constructor; [auto|].
    rewrite Forall_forall in *. intros t Ht.
    apply in_map_iff in Ht as (y & <- & Hy).
    apply In_select in Hy as (i & Hy & _).
    apply Hall, in_map, (nth_error_In _ _ Hy).
Qed.

Lemma sorted_lt_nth_error_inj {A} (f : A -> Z) xs i j a b :
  StronglySorted Z.lt (map f xs) ->
  nth_error xs i = Some a -> nth_error xs j = Some b -> f a = f b -> i = j.
Proof.
  revert i j. induction xs as [|x xs IH]; intros i j Hs Ha Hb Hf.
  - destruct i; discriminate.
  - simpl in Hs. apply StronglySorted_inv in Hs as [Hs Hall].
    rewrite Forall_forall in Hall.
    destruct i as [|i], j as [|j]; simpl in *.
    + reflexivity.
    + injection Ha as <-.
      specialize (Hall (f b) (in_map f _ _ (nth_error_In _ _ Hb))). lia.
    + injection Hb as <-.
      specialize (Hall (f a) (in_map f _ _ (nth_error_In _ _ Ha))). lia.
    + f_equal. eauto.
Qed.

Lemma sorted_lt_NoDup xs : StronglySorted Z.lt xs -> NoDup xs.
Proof.
  induction 1 as [|x xs Hs IH Hall]; constructor; [|exact IH].
  intros Hin. rewrite Forall_forall in Hall. specialize (Hall _ Hin). lia.
Qed.

Lemma NoDup_app_disjoint {A} (xs ys : list A) :
  NoDup xs -> NoDup ys -> (forall x, In x xs -> In x ys -> False) ->
  NoDup (xs ++ ys).
Proof.
  induction 1 as [|x xs Hx Hnd IH]; intros Hys Hdis; simpl; [exact Hys|].
  constructor.
  - rewrite in_app_iff. intros [H|H]; [contradiction|].
    apply (Hdis x); simpl; auto.
  - apply IH; [exact Hys|]. intros y H1 H2. apply (Hdis y); simpl; auto.
Qed.

(** C7 (amended).  On a series with strictly increasing timestamps the
    breakouts reported are the resistance breakouts, in chronological order,
    followed by the support breakouts, in chronological order; no two
    events carry the same timestamp. *)
Theorem breakouts_grouped_by_type cfg data :
  StronglySorted Z.lt (index data) ->
  exists rs ss,
    _detect_breakouts cfg data = rs ++ ss /\
    Forall (fun e => bo_type e = resistance_breakout) rs /\
    Forall (fun e => bo_type e = support_breakout) ss /\
    StronglySorted Z.lt (map bo_timestamp rs) /\
    StronglySorted Z.lt (map bo_timestamp ss) /\
    NoDup (map bo_timestamp (_detect_breakouts cfg data)).
Proof.
  intros Hsorted. rewrite detect_breakouts_eq.
  destruct (has_column data High && has_column data Low
            && has_column data Close && has_column data Open
            && has_column data Volume).
  2:{ exists [], []. repeat split; constructor. }
  set (R := select (rows data) (resistance_flags cfg data)).
  set (S := select (rows data) (support_flags cfg data)).
  assert (HR : StronglySorted Z.lt
                 (map bo_timestamp
                    (map (breakout_event data resistance_breakout) R))).
  { rewrite map_map. cbn [breakout_event bo_timestamp].
    now apply select_sorted. }
  assert (HS : StronglySorted Z.lt
                 (map bo_timestamp
                    (map (breakout_event data support_breakout) S))).
  { rewrite map_map. cbn [breakout_event bo_timestamp].
    now apply select_sorted. }
  eexists _, _. split; [reflexivity|].
  split; [apply Forall_forall; intros e He;
          apply in_map_iff in He as (b & <- & _); reflexivity|].
  split; [apply Forall_forall; intros e He;
          apply in_map_iff in He as (b & <- & _); reflexivity|].
  split; [exact HR|]. split; [exact HS|].
  rewrite map_app. apply NoDup_app_disjoint; try now apply sorted_lt_NoDup.
  intros t H1 H2.
  rewrite map_map in H1, H2. cbn [breakout_event bo_timestamp] in H1, H2.
  apply in_map_iff in H1 as (b1 & Ht1 & Hb1).
  apply in_map_iff in H2 as (b2 & Ht2 & Hb2).
  apply In_select in Hb1 as (i & Hi & Hfi).
  apply In_select in Hb2 as (j & Hj & Hfj).
  assert (i = j)
    by (eapply (sorted_lt_nth_error_inj timestamp); eauto; congruence).
  subst j.
  apply resistance_flag_true in Hfi as (b & Hb & _ & _ & Hup & _).
  apply support_flag_true in Hfj as (b' & Hb' & Hdown).
  assert (b' = b) by congruence. subst b'.
  apply (Qlt_irrefl (close b)). now apply Qlt_trans with (open b).
Qed.

Lemma two_breakouts_index_sorted :
  StronglySorted Z.lt (index two_breakouts_data).
Proof.
  vm_compute. repeat (constructor; [|repeat constructor; reflexivity]).
  constructor.
Defined.

Lemma breakouts_grouped_by_type_witness :
  exists rs ss,
    _detect_breakouts lookback2_config two_breakouts_data = rs ++ ss /\
    Forall (fun e => bo_type e = resistance_breakout) rs /\
    Forall (fun e => bo_type e = support_breakout) ss /\
    StronglySorted Z.lt (map bo_timestamp rs) /\
    StronglySorted Z.lt (map bo_timestamp ss) /\
    NoDup (map bo_timestamp
             (_detect_breakouts lookback2_config two_breakouts_data)).
Proof.
  apply (breakouts_grouped_by_type lookback2_config two_breakouts_data).
  exact two_breakouts_index_sorted.
Defined.

(** C7 as stated fails: on five well-formed bars in chronological order,
    with a lookback of 2, the resistance breakout of bar 4 is reported
    before the support breakout of bar 2. *)
Lemma breakouts_not_chronological_counterexample :
  StronglySorted Z.lt (index two_breakouts_data) /\
  map (fun e => (bo_type e, bo_timestamp e))
    (_detect_breakouts lookback2_config two_breakouts_data)
  = [(resistance_breakout, 14400%Z); (support_breakout, 7200%Z)] /\
  ~ Sorted Z.le
      (map bo_timestamp
         (_detect_breakouts lookback2_config two_breakouts_data)).
Proof.
  split; [exact two_breakouts_index_sorted|].
  split; [vm_compute; reflexivity|].
  vm_compute. intros H.
  apply Sorted_inv in H as [_ H]. apply HdRel_inv in H.
  apply H. reflexivity.
Qed.

(** ** RSI *)

Lemma Qsum_nonneg xs : Forall (fun x => 0 <= x) xs -> 0 <= Qsum xs.
Proof.
  induction 1 as [|x xs Hx _ IH]; simpl; [apply Qle_refl|].
  change 0 with (0 + 0). now apply Qplus_le_compat.
Qed.

Lemma Qdiv_nonneg a b : 0 <= a -> 0 <= b -> 0 <= a / b.
Proof.
  intros Ha Hb. apply Qmult_le_0_compat; [exact Ha|].
  now apply Qinv_le_0_compat.
Qed.

Lemma Qlen_nonneg xs : 0 <= Qlen xs.
Proof.
  unfold Qlen. change 0 with (inject_Z 0). rewrite <- Zle_Qle. lia.
Qed.

Lemma In_slice_inv {A} (xs : list A) start stop x :
  In x (slice xs start stop) -> In x xs.
Proof.
  unfold slice. intros H.
  rewrite <- (firstn_skipn start xs). apply in_or_app. right.
  rewrite <- (firstn_skipn (stop - start) (skipn start xs)).
  apply in_or_app. now left.
Qed.

Lemma Forall_slice {A} (P : A -> Prop) xs start stop :
  Forall P xs -> Forall P (slice xs start stop).
Proof.
  rewrite !Forall_forall. intros H x Hx.
  apply H. now apply In_slice_inv in Hx.
Qed.

Lemma rolling_mean_nonneg w c xs i :
  Forall (fun x => 0 <= x) xs ->
  rolling_at Qlist_mean w c xs i = NaN \/
  exists q, rolling_at Qlist_mean w c xs i = Fin q /\ 0 <= q.
Proof.
  intros Hxs.
  destruct (fval_nan_dec (rolling_at Qlist_mean w c xs i)) as [E|Hdef];
    [now left|].
  apply rolling_at_defined in Hdef as [_ ->].
  destruct (Qlist_mean_cases
              (slice xs (i + 1 + window_offset w c - w)
                 (i + 1 + window_offset w c))) as [->| ->];
    [now left|right].
  eexists. split; [reflexivity|].
  apply Qdiv_nonneg; [|apply Qlen_nonneg].
  now apply Qsum_nonneg, Forall_slice.
Qed.

Lemma gains_nonneg (ds : list fval) :
  Forall (fun x => 0 <= x)
    (map (fun d => if Float.gt d (Fin 0)
                   then match d with Fin q => q | _ => 0 end
                   else 0) ds).
Proof.
  apply Forall_forall. intros x Hx.
  apply in_map_iff in Hx as (d & <- & _).
  destruct d as [q| | |]; simpl; try apply Qle_refl.
  destruct (Qlt_bool 0 q) eqn:E; [|apply Qle_refl].
  apply Qlt_le_weak. now apply Qlt_bool_iff.
Qed.

Lemma losses_nonneg (ds : list fval) :
  Forall (fun x => 0 <= x)
    (map (fun d => - (if Float.lt d (Fin 0)
                      then match d with Fin q => q | _ => 0 end
                      else 0)) ds).
Proof.
  apply Forall_forall. intros x Hx.
  apply in_map_iff in Hx as (d & <- & _).
  destruct d as [q| | |]; simpl; try (now vm_compute).
  destruct (Qlt_bool q 0) eqn:E; [|now vm_compute].
  apply Qlt_bool_iff in E. lra.
Qed.

(** [100 - 100 / (1 + rs)] for a finite ratio [rs >= 0]. *)
Lemma rsi_formula_range x :
  0 <= x -> 0 <= 100 - 100 / (1 + x) <= 100.
Proof.
  intros Hx.
  assert (Hd : 0 < 1 + x) by lra.
  assert (H1 : 100 / (1 + x) <= 100)
    by (apply Qle_shift_div_r; [exact Hd | lra]).
  assert (H2 : 0 <= 100 / (1 + x))
    by (apply Qle_shift_div_l; [exact Hd | lra]).
  lra.
Qed.

Lemma rsi_of_range g l :
  0 <= g -> 0 <= l ->
  rsi_of (Fin g) (Fin l) = NaN \/
  exists q, rsi_of (Fin g) (Fin l) = Fin q /\ 0 <= q <= 100.
Proof.
  intros Hg Hl. unfold rsi_of. cbn [Float.div].
  destruct (Qeq_bool l 0) eqn:El.
  - unfold Float.signed_inf.
    destruct (Qlt_bool 0 g) eqn:Eg.
    + right. simpl. eexists. split; [reflexivity|]. lra.
    + destruct (Qlt_bool g 0) eqn:Eg'.
      * apply Qlt_bool_iff in Eg'. lra.
      * now left.
  - right. apply Qeq_bool_neq in El.
    assert (Hl' : 0 < l).
    { destruct (Qle_lt_or_eq _ _ Hl) as [H|H]; [exact H|].
      elim El. now symmetry. }
    assert (Hrs : 0 <= g / l) by (apply Qdiv_nonneg; lra).
    cbn [Float.add Float.div].
    destruct (Qeq_bool (1 + g / l) 0) eqn:E1.
    + apply Qeq_bool_eq in E1. lra.
    + cbn [Float.sub Float.neg Float.add].
      eexists. split; [reflexivity|].
      apply (rsi_formula_range _ Hrs).
Qed.

(** All gains and no losses: the ratio is infinite and the RSI is 100. *)
Lemma rsi_of_no_loss g l :
  0 < g -> l == 0 -> exists q, rsi_of (Fin g) (Fin l) = Fin q /\ q == 100.
Proof.
  intros Hg Hl. unfold rsi_of. cbn [Float.div].
  apply Qeq_bool_iff in Hl. rewrite Hl.
  unfold Float.signed_inf. apply Qlt_bool_iff in Hg. rewrite Hg.
  simpl. eexists. split; [reflexivity|]. lra.
Qed.

Lemma rsi_gain_at data period i v :
  nth_error (rsi_gain data period) i = Some v ->
  v = NaN \/ exists q, v = Fin q /\ 0 <= q.
Proof.
  unfold rsi_gain. intros H. apply nth_error_rolling_inv in H as [_ ->].
  apply rolling_mean_nonneg, gains_nonneg.
Qed.

Lemma rsi_loss_at data period i v :
  nth_error (rsi_loss data period) i = Some v ->
  v = NaN \/ exists q, v = Fin q /\ 0 <= q.
Proof.
  unfold rsi_loss. intros H. apply nth_error_rolling_inv in H as [_ ->].
  apply rolling_mean_nonneg, losses_nonneg.
Qed.

(** C2.  Wherever the RSI is defined it is a finite value between 0 and
    100; where the mean loss is zero and the mean gain positive it is
    100. *)
Theorem rsi_between_0_and_100 data period rsi i v :
  _calculate_rsi data period = Some rsi ->
  nth_error rsi i = Some v ->
  (v <> NaN -> exists q, v = Fin q /\ 0 <= q <= 100) /\
  (forall g l,
      nth_error (rsi_gain data period) i = Some (Fin g) ->
      nth_error (rsi_loss data period) i = Some (Fin l) ->
      0 < g -> l == 0 ->
      exists q, v = Fin q /\ q == 100).
Proof.
  unfold _calculate_rsi. intros [= <-] Hv.
  apply nth_error_zip_with in Hv as (g & l & Hg & Hl & ->).
  split.
  - intros Hdef.
    destruct (rsi_gain_at _ _ _ _ Hg) as [->|(gq & -> & Hgq)];
      [now elim Hdef|].
    destruct (rsi_loss_at _ _ _ _ Hl) as [->|(lq & -> & Hlq)];
      [now elim Hdef|].
    destruct (rsi_of_range gq lq Hgq Hlq) as [E|H]; [contradiction|exact H].
  - intros g' l' Hg' Hl' Hpos Hzero.
    rewrite Hg in Hg'. rewrite Hl in Hl'.
    injection Hg' as ->. injection Hl' as ->.
    now apply rsi_of_no_loss.
Qed.

Lemma rsi_between_0_and_100_witness :
  exists rsi v,
    _calculate_rsi [10; 11; 12; 11; 13] 2 = Some rsi /\
    nth_error rsi 2 = Some v /\
    (v <> NaN -> exists q, v = Fin q /\ 0 <= q <= 100) /\
    (forall g l,
        nth_error (rsi_gain [10; 11; 12; 11; 13] 2) 2 = Some (Fin g) ->
        nth_error (rsi_loss [10; 11; 12; 11; 13] 2) 2 = Some (Fin l) ->
        0 < g -> l == 0 ->
        exists q, v = Fin q /\ q == 100).
Proof.
  eexists. eexists. split; [reflexivity|]. split; [vm_compute; reflexivity|].
  apply (rsi_between_0_and_100 [10; 11; 12; 11; 13] 2 _ 2 _ eq_refl).
  vm_compute. reflexivity.
Defined.

(** ** Level clustering *)

Lemma In_insert_by_value x s z :
  In z (insert_by_value x s) <-> z = x \/ In z s.
Proof.
  induction s as [|y s IH]; simpl.
  - intuition.
  - destruct (Qlt_bool (snd x) (snd y)); simpl; [intuition|].
    rewrite IH. intuition.
Qed.

Lemma insert_by_value_sorted x s :
  StronglySorted by_value s -> StronglySorted by_value (insert_by_value x s).
Proof.
  induction 1 as [|y s Hs IH Hall]; simpl.
  - repeat constructor.
  - destruct (Qlt_bool (snd x) (snd y)) eqn:E.
    + apply Qlt_bool_iff in E. constructor; [now constructor|].
      constructor; [now apply Qlt_le_weak|].
      rewrite Forall_forall in *. intros z Hz. unfold by_value in *.
      apply Qle_trans with (snd y); [now apply Qlt_le_weak | auto].
    + constructor; [exact IH|].
      rewrite Forall_forall in *. intros z Hz.
      apply In_insert_by_value in Hz as [->|Hz]; [|auto].
      unfold by_value. apply Qnot_lt_le. intros Hlt.
      apply Qlt_bool_iff in Hlt. congruence.
Qed.

Lemma sort_values_sorted s : StronglySorted by_value (sort_values s).
Proof.
  unfold sort_values.
  assert (H : StronglySorted by_value []) by constructor.
  revert H. generalize (@nil (Z * Q)) as acc.
  induction s as [|x s IH]; intros acc Hacc; simpl; [exact Hacc|].
  apply IH. now apply insert_by_value_sorted.
Qed.

Lemma insert_by_value_last x s :
  Forall (fun y => snd y <= snd x) s -> insert_by_value x s = s ++ [x].
Proof.
  induction 1 as [|y s Hy _ IH]; simpl; [reflexivity|].
  destruct (Qlt_bool (snd x) (snd y)) eqn:E.
  - apply Qlt_bool_iff in E. exfalso. now apply (Qlt_not_le _ _ E).
  - now rewrite IH.
Qed.

(** Sorting a Series whose values are already ascending changes nothing. *)
Lemma sort_values_of_sorted s :
  StronglySorted by_value s -> sort_values s = s.
Proof.
  unfold sort_values. intros Hs.
  enough (H : forall acc,
             Forall (fun y => Forall (by_value y) s) acc ->
             fold_left (fun acc x => insert_by_value x acc) s acc = acc ++ s)
    by (apply (H []); constructor).
  induction Hs as [|x s Hs IH Hall]; intros acc Hacc; simpl.
  - now rewrite app_nil_r.
  - rewrite insert_by_value_last.
    + rewrite IH, <- app_assoc; [reflexivity|].
      apply Forall_app. split.
      * eapply Forall_impl; [|exact Hacc]. intros y Hy.
        now apply Forall_inv_tail in Hy.
      * repeat constructor. exact Hall.
    + eapply Forall_impl; [|exact Hacc]. intros y Hy.
      now apply Forall_inv in Hy.
Qed.

Lemma sorted_values s :
  StronglySorted by_value s <-> StronglySorted Qle (map snd s).
Proof.
  induction s as [|x s IH]; simpl.
  - split; constructor.
  - split; intros H; apply StronglySorted_inv in H as [H1 H2];
      (constructor; [now apply IH|]).
    + rewrite Forall_forall in *. intros q Hq.
      apply in_map_iff in Hq as (y & <- & Hy). now apply H2.
    + rewrite Forall_forall in *. intros y Hy.
      apply H2. now apply in_map.
Qed.

Lemma keys_dict_update {V} (d : dict V) k f :
  keys (dict_update d k f) = keys d.
Proof.
  induction d as [|[k' v] d IH]; simpl; [reflexivity|].
  destruct (Qeq_bool k' k); simpl; [reflexivity|]. now rewrite IH.
Qed.

Lemma dict_has_keys {V} (d : dict V) k :
  dict_has d k = existsb (fun k' => Qeq_bool k' k) (keys d).
Proof.
  unfold dict_has, keys. induction d as [|[k' v] d IH]; simpl; [reflexivity|].
  now rewrite IH.
Qed.

Lemma separated_snoc tol ks k :
  separated tol ks -> find_cluster k tol ks = Ok None ->
  separated tol (ks ++ [k]).
Proof.
  intros Hsep Hk n x Hx.
  destruct (Nat.lt_ge_cases n (length ks)) as [Hlt|Hge].
  - rewrite nth_error_app1 in Hx by exact Hlt.
    rewrite firstn_app. replace (n - length ks)%nat with 0%nat by lia.
    simpl. rewrite app_nil_r. now apply Hsep.
  - rewrite nth_error_app2 in Hx by exact Hge.
    destruct (n - length ks)%nat as [|m] eqn:E; simpl in Hx.
    + injection Hx as <-. assert (n = length ks) by lia. subst n.
      rewrite firstn_app, firstn_all, Nat.sub_diag. simpl.
      now rewrite app_nil_r.
    + destruct m; discriminate.
Qed.

(** The keys of the clusters stay strictly ascending and separated while
    the sorted levels are walked. *)
Lemma cluster_loop_invariant tol levels d d' :
  StronglySorted Qle levels ->
  StronglySorted Qlt (keys d) ->
  separated tol (keys d) ->
  (forall k l, In k (keys d) -> In l levels -> k <= l) ->
  cluster_loop tol levels d = Ok d' ->
  StronglySorted Qlt (keys d') /\ separated tol (keys d').
Proof.
  revert d. induction levels as [|level rest IH]; intros d Hlv Hks Hsep Hle.
  - simpl. intros [= <-]. split; assumption.
  - simpl. apply StronglySorted_inv in Hlv as [Hrest Hall].
    rewrite Forall_forall in Hall.
    unfold cluster_step.
    destruct (find_cluster level tol (keys d)) as [[c|]|e] eqn:Hfind;
      simpl; [| |discriminate].
    + apply IH; try assumption; rewrite keys_dict_update; try assumption.
      intros k l Hk Hl. apply Hle; simpl; auto.
    + unfold dict_set. destruct (dict_has d level) eqn:Hhas.
      * apply IH; try assumption; rewrite keys_dict_update; try assumption.
        intros k l Hk Hl. apply Hle; simpl; auto.
      * apply IH; try assumption; unfold keys; rewrite map_app; simpl;
          fold (keys d).
        -- clear IH. rewrite dict_has_keys in Hhas.
           assert (Hlt : Forall (fun k => k < level) (keys d)).
           { apply Forall_forall. intros k Hk.
             destruct (Qle_lt_or_eq k level) as [H|H];
               [apply Hle; simpl; auto | exact H |].
             exfalso. apply Qeq_bool_iff in H.
             assert (existsb (fun k' => Qeq_bool k' level) (keys d) = true)
               by (apply existsb_exists; eauto).
             congruence. }
           revert Hks Hlt. generalize (keys d) as ks.
           induction ks as [|k ks IHk]; intros Hks Hlt; simpl.
           ++ repeat constructor.
           ++ apply StronglySorted_inv in Hks as [Hks Hk].
              constructor; [apply IHk; [exact Hks | now inversion Hlt]|].
              apply Forall_app. split; [exact Hk|].
              repeat constructor. now inversion Hlt.
        -- now apply separated_snoc.
        -- intros k l Hk Hl. apply in_app_or in Hk as [Hk|[<-|[]]].
           ++ apply Hle; simpl; auto.
           ++ now apply Hall.
Qed.

Lemma keys_singleton_clusters ks : keys (singleton_clusters ks) = ks.
Proof.
  unfold keys, singleton_clusters. rewrite map_map. simpl. apply map_id.
Qed.

(** Walking separated, strictly ascending values opens one cluster per
    value. *)
Lemma cluster_loop_separated tol done todo :
  StronglySorted Qlt (done ++ todo) ->
  separated tol (done ++ todo) ->
  cluster_loop tol todo (singleton_clusters done)
  = Ok (singleton_clusters (done ++ todo)).
Proof.
  revert done. induction todo as [|k todo IH]; intros done Hs Hsep.
  - simpl. now rewrite app_nil_r.
  - simpl. unfold cluster_step. rewrite keys_singleton_clusters.
    assert (Hfind : find_cluster k tol done = Ok None).
    { specialize (Hsep (length done) k).
      rewrite nth_error_app2, Nat.sub_diag in Hsep by lia.
      rewrite firstn_app, firstn_all, Nat.sub_diag in Hsep.
      simpl in Hsep. rewrite app_nil_r in Hsep. now apply Hsep. }
    rewrite Hfind. simpl. unfold dict_set.
    assert (Hhas : dict_has (singleton_clusters done) k = false).
    { rewrite dict_has_keys, keys_singleton_clusters.
      apply not_true_iff_false. intros H.
      apply existsb_exists in H as (k' & Hk' & Heq).
      apply Qeq_bool_iff in Heq.
      assert (Hlt : k' < k).
      { clear - Hs Hk'. induction done as [|a done IHd]; [contradiction|].
        simpl in Hs. apply StronglySorted_inv in Hs as [Hs Ha].
        destruct Hk' as [->|Hk']; [|auto].
        rewrite Forall_forall in Ha. apply Ha.
        apply in_or_app. right. now left. }
      rewrite Heq in Hlt. now apply Qlt_irrefl in Hlt. }
    rewrite Hhas.
    replace (singleton_clusters done ++ [(k, [k])])
      with (singleton_clusters (done ++ [k]))
      by (unfold singleton_clusters; now rewrite map_app).
    rewrite IH; rewrite <- app_assoc; simpl; auto.
Qed.

(** Sorting rearranges a Series. *)
Lemma sort_values_perm s : Permutation (sort_values s) s.
Proof.
  unfold sort_values.
  enough (H : forall acc,
             Permutation (fold_left (fun acc x => insert_by_value x acc) s acc)
               (acc ++ s))
    by (apply (H [])).
  induction s as [|x s IH]; intros acc; simpl.
  - now rewrite app_nil_r.
  - eapply Permutation_trans; [apply IH|].
    apply Permutation_trans with ((x :: acc) ++ s).
    + apply Permutation_app_tail.
      clear. induction acc as [|y acc IHa]; simpl; [reflexivity|].
      destruct (Qlt_bool (snd x) (snd y)); [reflexivity|].
      eapply Permutation_trans; [apply perm_skip, IHa|]. apply perm_swap.
    + simpl. apply Permutation_middle.
Qed.

(** Ascending values that are a rearrangement of strictly ascending ones
    are those, in that order. *)
Lemma sorted_permutation_unique l1 l2 :
  StronglySorted Qle l1 -> StronglySorted Qlt l2 -> Permutation l1 l2 ->
  l1 = l2.
Proof.
  intros H1. revert l2. induction H1 as [|a l1 Hs IH Ha]; intros l2 H2 Hp.
  - now apply Permutation_nil in Hp.
  - destruct l2 as [|b l2];
      [apply Permutation_sym, Permutation_nil in Hp; discriminate|].
    apply StronglySorted_inv in H2 as [H2 Hb].
    rewrite Forall_forall in Ha, Hb.
    assert (Hab : a = b).
    { assert (Hina : In a (b :: l2))
        by (apply (Permutation_in _ Hp); now left).
      assert (Hinb : In b (a :: l1))
        by (apply (Permutation_in _ (Permutation_sym Hp)); now left).
      destruct Hina as [->|Hina]; [reflexivity|].
      destruct Hinb as [->|Hinb]; [reflexivity|].
      exfalso. apply (Qlt_not_le _ _ (Hb a Hina)). now apply Ha. }
    subst b. f_equal. apply IH; [exact H2|].
    now apply Permutation_cons_inv in Hp.
Qed.

(** C5.  Clustering again the representatives of the clusters, given in any
    order and under any labels, with the same tolerance, gives one cluster
    per representative, holding it alone. *)
Theorem cluster_levels_idempotent (levels : Series) tol clustered
        (reps : Series) :
  _cluster_levels levels tol = Ok clustered ->
  Permutation (map snd reps) (keys clustered) ->
  _cluster_levels reps tol = Ok (singleton_clusters (keys clustered)).
Proof.
  unfold _cluster_levels. intros Hrun Hreps.
  apply cluster_loop_invariant in Hrun as [Hsorted Hsep].
  - assert (Hs : map snd (sort_values reps) = keys clustered).
    { apply sorted_permutation_unique.
      - apply sorted_values, sort_values_sorted.
      - exact Hsorted.
      - eapply Permutation_trans; [|exact Hreps].
        apply Permutation_map, sort_values_perm. }
    rewrite Hs.
    apply (cluster_loop_separated tol [] (keys clustered)); assumption.
  - apply sorted_values, sort_values_sorted.
  - constructor.
  - intros n k Hk. destruct n; discriminate.
  - intros k l [].
Qed.

Lemma cluster_levels_idempotent_witness :
  _cluster_levels [(0%Z, 100); (1%Z, 10201 # 100); (2%Z, 101)] (2 # 100)
  = Ok [(100, [100; 101]); (10201 # 100, [10201 # 100])] /\
  _cluster_levels [(7%Z, 10201 # 100); (9%Z, 100)] (2 # 100)
  = Ok (singleton_clusters
          (keys [(100, [100; 101]); (10201 # 100, [10201 # 100])])).
Proof.
  split; [reflexivity|].
  apply (cluster_levels_idempotent
           [(0%Z, 100); (1%Z, 10201 # 100); (2%Z, 101)] (2 # 100)
           [(100, [100; 101]); (10201 # 100, [10201 # 100])]
           [(7%Z, 10201 # 100); (9%Z, 100)]);
    [reflexivity | apply perm_swap].
Defined.

(** ** Blocks that append events *)

Lemma preserves_ret {E A} (P : E -> Prop) (a : A) : preserves P (ret a).
Proof. intros s Hs. exact Hs. Qed.

Lemma preserves_lift {E A} (P : E -> Prop) (r : res A) :
  preserves P (lift r).
Proof. intros s Hs. exact Hs. Qed.

Lemma preserves_append {E} (P : E -> Prop) (e : E) :
  P e -> preserves P (append e).
Proof.
  intros He s Hs. simpl. apply Forall_app. split; [exact Hs|].
  now repeat constructor.
Qed.

Lemma preserves_bind {E A B} (P : E -> Prop) (m : M (list E) A)
      (k : A -> M (list E) B) :
  preserves P m ->
  (forall a s, snd (m s) = Ok a -> preserves P (k a)) ->
  preserves P (bind m k).
Proof.
  intros Hm Hk s Hs. unfold bind.
  specialize (Hm s Hs). specialize (Hk) with (s := s).
  destruct (m s) as [s' [a|e]]; simpl in *; [|exact Hm].
  now apply (Hk a).
Qed.

Lemma preserves_lift_bind {E A B} (P : E -> Prop) (r : res A)
      (k : A -> M (list E) B) :
  (forall a, r = Ok a -> preserves P (k a)) ->
  preserves P (bind (lift r) k).
Proof.
  intros Hk. apply preserves_bind; [apply preserves_lift|].
  intros a s Ha. apply Hk. exact Ha.
Qed.

Lemma preserves_for_each {E A} (P : E -> Prop) (xs : list A)
      (body : A -> M (list E) unit) :
  (forall x, In x xs -> preserves P (body x)) ->
  preserves P (for_each xs body).
Proof.
  induction xs as [|x xs IH]; intros Hbody; simpl.
  - apply preserves_ret.
  - apply preserves_bind; [apply Hbody; now left|].
    intros _ _ _. apply IH. intros y Hy. apply Hbody. now right.
Qed.

Lemma try_except_preserves {E A} (P : E -> Prop) (body : M (list E) A) :
  preserves P body -> Forall P (try_except [] body).
Proof. intros H. apply H. constructor. Qed.

(** ** Support and resistance levels *)

Lemma level_events_fields ty cfg data clusters :
  preserves
    (fun e => (exists q, lv_last_touch e = PyFloat q) /\
              lv_strength e
              == Qnat (lv_touches e) / Qnat (length (rows data)) * 100)
    (level_events ty cfg data clusters).
Proof.
  unfold level_events. apply preserves_for_each. intros [level touches] _.
  destruct (min_touches cfg <=? length touches)%nat; [|apply preserves_ret].
  apply preserves_lift_bind. intros ratio Hratio.
  apply preserves_lift_bind. intros last_touch _.
  apply preserves_append. simpl. split; [eauto|].
  unfold py_truediv in Hratio.
  destruct (Qeq_bool (Qnat (length (rows data))) 0); [discriminate|].
  injection Hratio as <-. reflexivity.
Qed.

(** Every level reported holds a float in [last_touch], the largest price
    of its cluster, and has strength [touches / len(data) * 100]. *)
Lemma support_resistance_fields cfg data e :
  In e (_detect_support_resistance cfg data) ->
  (exists q, lv_last_touch e = PyFloat q) /\
  lv_strength e == Qnat (lv_touches e) / Qnat (length (rows data)) * 100.
Proof.
  intros He. revert e He. apply Forall_forall.
  apply try_except_preserves. unfold detect_support_resistance_body.
  apply preserves_lift_bind. intros high_col _.
  apply preserves_lift_bind. intros low_col _.
  apply preserves_lift_bind. intros resistance_levels _.
  apply preserves_bind; [apply level_events_fields|]. intros _ _ _.
  apply preserves_lift_bind. intros support_levels _.
  apply level_events_fields.
Qed.

(** C3: the code on [levels_data].  The resistance cluster holds the highs
    of bars 2, 5 and 6, touched last at timestamp 21600; the level reports
    the float 10.1, the largest of the three prices, as [last_touch].  Its
    strength is 3/9*100. *)
Lemma support_resistance_last_touch_is_a_price :
  candidates levels_data (col High levels_data)
    (rolling Qlist_max 5 true (col High levels_data))
  = [(7200%Z, 101 # 10); (18000%Z, 10); (21600%Z, 10)] /\
  _detect_support_resistance default_config levels_data
  = [ mkLevel resistance 10 3 (300 # 9) (PyFloat (101 # 10));
      mkLevel support 9 5 (500 # 9) (PyFloat 9) ] /\
  forall e, In e (_detect_support_resistance default_config levels_data) ->
            lv_last_touch e <> PyTimestamp 21600.
Proof.
  split; [vm_compute; reflexivity|].
  split; [vm_compute; reflexivity|].
  intros e He. destruct (support_resistance_fields _ _ _ He) as [[q ->] _].
  discriminate.
Qed.

(** ** Divergences *)

Lemma Float_abs_gt_Fin x m :
  Float.gt (Float.abs x) (Fin m) = true ->
  Float.le (Fin 0) (Float.abs x) = true /\
  Float.le (Float.abs x) (Fin m) = false.
Proof.
  destruct x as [q| | |]; simpl; try discriminate; auto.
  unfold Float.gt, Float.lt. rewrite Qlt_bool_iff. intros H. split.
  - apply Qle_bool_iff, Qabs_nonneg.
  - apply not_true_iff_false. rewrite Qle_bool_iff.
    now apply Qlt_not_le.
Qed.

Lemma divergence_step_ok find_peaks cfg data close_col rsi ty extrema
      rsi_extrema pair :
  getitem data Close = Ok close_col ->
  _calculate_rsi close_col (rsi_periods cfg) = Some rsi ->
  extrema = match ty with
            | bullish_divergence => find_peaks (map Float.neg (Fins close_col))
            | bearish_divergence => find_peaks (Fins close_col)
            end ->
  rsi_extrema = match ty with
                | bullish_divergence => find_peaks (map Float.neg rsi)
                | bearish_divergence => find_peaks rsi
                end ->
  In pair (consecutive extrema) ->
  preserves (divergence_ok find_peaks cfg data)
    (divergence_step ty (min_divergence_strength cfg) data close_col rsi
       rsi_extrema pair).
Proof.
  intros Hclose Hrsi Hex Hrex Hpair. destruct pair as [prev cur].
  unfold divergence_step.
  apply preserves_lift_bind. intros c_cur Hc_cur.
  apply preserves_lift_bind. intros c_prev Hc_prev.
  destruct (2 <=? length (in_range prev cur rsi_extrema))%nat eqn:Hlen;
    [|apply preserves_ret].
  apply Nat.leb_le in Hlen.
  apply preserves_lift_bind. intros r_last Hr_last.
  apply preserves_lift_bind. intros r_first Hr_first.
  set (ps := slope (Fin c_prev) (Fin c_cur) prev cur).
  set (rs := slope r_first r_last _ _).
  match goal with
  | |- preserves _ (if ?c then _ else _) => destruct c eqn:Hdiv
  end; [|apply preserves_ret].
  destruct (Float.gt (Float.abs (Float.mul ps rs))
              (Fin (min_divergence_strength cfg))) eqn:Hgt;
    [|apply preserves_ret].
  apply preserves_lift_bind. intros ts Hts.
  apply preserves_lift_bind. intros price _.
  apply preserves_lift_bind. intros r _.
  apply preserves_append.
  destruct (Float_abs_gt_Fin _ _ Hgt) as [Hnonneg Hnle].
  exists close_col, rsi, cur, ps, rs. cbn [dv_timestamp dv_type dv_strength].
  split; [exact Hclose|]. split; [exact Hrsi|]. split; [exact Hts|].
  assert (Hslopes : slopes_of_pair extrema rsi_extrema close_col rsi cur ps rs).
  { exists prev, c_prev, c_cur, r_first, r_last. repeat split; assumption. }
  split; [|repeat split; assumption].
  destruct ty; subst extrema rsi_extrema;
    apply andb_true_iff in Hdiv as [H1 H2]; repeat split; assumption.
Qed.

(** C6.  Every divergence reported has, as strength, the absolute value of
    the product of the price slope and the RSI slope of its pair of
    extrema; the strength is not negative and is strictly above
    [min_divergence_strength], never at or under it. *)
Theorem divergence_strength find_peaks cfg data e :
  In e (_detect_divergences find_peaks cfg data) ->
  divergence_ok find_peaks cfg data e.
Proof.
  intros He. revert e He. apply Forall_forall.
  apply try_except_preserves. unfold detect_divergences_body.
  apply preserves_lift_bind. intros close_col Hclose.
  destruct (_calculate_rsi close_col (rsi_periods cfg)) as [rsi|] eqn:Hrsi;
    [|apply preserves_ret].
  destruct (length rsi <? 20)%nat; [apply preserves_ret|].
  apply preserves_bind.
  - apply preserves_for_each. intros pair Hpair.
    now apply (divergence_step_ok find_peaks cfg data close_col rsi
                 bullish_divergence _ _ pair Hclose Hrsi eq_refl eq_refl).
  - intros _ _ _. apply preserves_for_each. intros pair Hpair.
    now apply (divergence_step_ok find_peaks cfg data close_col rsi
                 bearish_divergence _ _ pair Hclose Hrsi eq_refl eq_refl).
Qed.

Lemma divergence_strength_witness :
  divergence_ok strict_peaks default_config divergence_data
    (mkDivergence bearish_divergence 75600 14
       (Fin (43400 # 840)) (Fin (4860800 # 5927040))).
Proof.
  apply (divergence_strength strict_peaks default_config divergence_data).
  vm_compute. left. reflexivity.
Defined.

(** ** Trend changes *)

Lemma detect_trend_changes_eq data :
  _detect_trend_changes data =
  if has_column data Close then
    let sma_20 := rolling Qlist_mean 20 false (col Close data) in
    let sma_50 := rolling Qlist_mean 50 false (col Close data) in
    let located := combine (rows data) (combine sma_20 sma_50) in
    map (trend_event bullish_crossover)
      (select located (sma_crossovers sma_20 sma_50))
    ++ map (trend_event bearish_crossover)
         (select located (sma_crossunders sma_20 sma_50))
  else [].
Proof.
  unfold _detect_trend_changes, try_except, detect_trend_changes_body,
    bind, lift.
  destruct (has_column data Close) eqn:Hc;
    [rewrite (getitem_ok _ _ Hc) | now rewrite (getitem_missing _ _ Hc)].
  cbv zeta. rewrite for_each_append, for_each_append. reflexivity.
Qed.

Lemma Float_gt_lt_exclusive a b :
  Float.gt a b = true -> Float.lt a b = true -> False.
Proof.
  unfold Float.gt. destruct a as [p| | |], b as [q| | |]; simpl;
    try discriminate.
  rewrite !Qlt_bool_iff. intros H1 H2.
  apply (Qlt_irrefl p). now apply Qlt_trans with q.
Qed.

(** No position is both a crossover and a crossunder. *)
Lemma crossover_crossunder_exclusive sma_20 sma_50 i :
  nth_error (sma_crossovers sma_20 sma_50) i = Some true ->
  nth_error (sma_crossunders sma_20 sma_50) i = Some true ->
  False.
Proof.
  unfold sma_crossovers, sma_crossunders. intros Hup Hdown.
  apply nth_error_zip_with in Hup as (u & u' & Hu & _ & Hand).
  symmetry in Hand. apply andb_true_iff in Hand as [-> _].
  apply nth_error_zip_with in Hdown as (d & d' & Hd & _ & Hand).
  symmetry in Hand. apply andb_true_iff in Hand as [-> _].
  apply nth_error_zip_with in Hu as (a & b & Ha & Hb & Hgt).
  apply nth_error_zip_with in Hd as (a' & b' & Ha' & Hb' & Hlt).
  rewrite Ha in Ha'. rewrite Hb in Hb'.
  injection Ha' as <-. injection Hb' as <-.
  now apply (Float_gt_lt_exclusive a b).
Qed.

Lemma nth_error_combine_fst {A B} (xs : list A) (ys : list B) i p :
  nth_error (combine xs ys) i = Some p -> nth_error xs i = Some (fst p).
Proof.
  revert ys i. induction xs as [|x xs IH]; intros [|y ys] [|i]; simpl;
    try discriminate.
  - now intros [= <-].
  - apply IH.
Qed.

(** C10.  On a series with strictly increasing timestamps the trend-change
    detector reports no bullish and bearish crossover with the same
    timestamp, that is at the same bar. *)
Theorem no_bullish_and_bearish_crossover_at_one_bar data :
  StronglySorted Z.lt (index data) ->
  ~ exists e1 e2,
      In e1 (_detect_trend_changes data) /\
      In e2 (_detect_trend_changes data) /\
      tc_type e1 = bullish_crossover /\
      tc_type e2 = bearish_crossover /\
      tc_timestamp e1 = tc_timestamp e2.
Proof.
  intros Hsorted (e1 & e2 & H1 & H2 & Ht1 & Ht2 & Hts).
  rewrite detect_trend_changes_eq in H1, H2.
  destruct (has_column data Close); [|contradiction].
  cbv zeta in H1, H2.
  apply in_app_or in H1 as [H1|H1];
    apply in_map_iff in H1 as (r1 & <- & Hr1); [|discriminate].
  apply in_app_or in H2 as [H2|H2];
    apply in_map_iff in H2 as (r2 & <- & Hr2); [discriminate|].
  apply In_select in Hr1 as (i & Hi & Hup).
  apply In_select in Hr2 as (j & Hj & Hdown).
  apply nth_error_combine_fst in Hi, Hj.
  assert (i = j)
    by (eapply (sorted_lt_nth_error_inj timestamp); eauto).
  subst j. eapply crossover_crossunder_exclusive; eauto.
Qed.

Lemma hourly_from_index start xs :
  map timestamp (hourly_from start xs)
  = map (fun i => (3600 * Z.of_nat i)%Z) (seq start (length xs)).
Proof.
  unfold hourly_from. revert start.
  induction xs as [|[[[[o h] l] c] v] xs IH]; intros start; simpl;
    [reflexivity|].
  now rewrite IH.
Qed.

Lemma hourly_from_sorted start xs :
  StronglySorted Z.lt (map timestamp (hourly_from start xs)).
Proof.
  rewrite hourly_from_index. generalize (length xs) as n. intros n.
  revert start. induction n as [|n IH]; intros start; cbn [seq map];
    constructor.
  - apply IH.
  - apply Forall_forall. intros t Ht.
    apply in_map_iff in Ht as (i & <- & Hi). apply in_seq in Hi. lia.
Qed.

Lemma no_bullish_and_bearish_crossover_at_one_bar_witness :
  ~ exists e1 e2,
      In e1 (_detect_trend_changes trend_data) /\
      In e2 (_detect_trend_changes trend_data) /\
      tc_type e1 = bullish_crossover /\
      tc_type e2 = bearish_crossover /\
      tc_timestamp e1 = tc_timestamp e2.
Proof.
  apply (no_bullish_and_bearish_crossover_at_one_bar trend_data).
  apply hourly_from_sorted.
Defined.

(** The detector does report both kinds of crossover on [trend_data], at
    bars 50 and 56. *)
Lemma trend_data_crossovers :
  map (fun e => (tc_type e, tc_timestamp e)) (_detect_trend_changes trend_data)
  = [(bullish_crossover, 180000%Z); (bearish_crossover, 201600%Z)].
Proof. vm_compute. reflexivity. Qed.

(** ** Volume anomalies *)

Lemma rolling_at_full agg w c xs i :
  (1 <= w /\ w <= i + 1 + window_offset w c
   /\ i + 1 + window_offset w c <= length xs)%nat ->
  rolling_at agg w c xs i =
  agg (slice xs (i + 1 + window_offset w c - w) (i + 1 + window_offset w c)).
Proof.
  intros (H1 & H2 & H3). unfold rolling_at, window_bounds.
  rewrite !Nat.min_l by lia.
  destruct (Nat.eqb_spec w 0); [lia|].
  destruct (Nat.ltb_spec
              (i + 1 + window_offset w c - (i + 1 + window_offset w c - w)) w);
    [lia|reflexivity].
Qed.

Lemma slice_length {A} (xs : list A) start stop :
  (stop <= length xs)%nat -> length (slice xs start stop) = (stop - start)%nat.
Proof.
  intros H. unfold slice. rewrite length_firstn, length_skipn. lia.
Qed.

Lemma Qsum_zero xs :
  Forall (fun x => 0 <= x) xs -> Qsum xs <= 0 -> Forall (fun x => x == 0) xs.
Proof.
  induction 1 as [|x xs Hx Hxs IH]; simpl; intros Hsum; constructor.
  - pose proof (Qsum_nonneg xs Hxs). lra.
  - apply IH. lra.
Qed.

Lemma Qsquare_nonneg x : 0 <= x * x.
Proof.
  destruct (Qlt_le_dec x 0) as [H|H]; [|now apply Qmult_le_0_compat].
  setoid_replace (x * x) with ((- x) * (- x)) by ring.
  apply Qmult_le_0_compat; lra.
Qed.

(** A sample variance that is not positive: all observations equal the
    mean. *)
Lemma Qvar_zero xs x :
  (2 <= length xs)%nat -> ~ 0 < Qvar xs -> In x xs -> x == Qmean xs.
Proof.
  intros Hlen Hvar Hx. unfold Qvar in Hvar.
  set (sq := map (fun x => (x - Qmean xs) * (x - Qmean xs)) xs) in *.
  assert (Hsq : Forall (fun y => 0 <= y) sq).
  { apply Forall_forall. intros y Hy. apply in_map_iff in Hy as (z & <- & _).
    apply Qsquare_nonneg. }
  assert (Hden : 0 < Qlen xs - 1).
  { unfold Qlen.
    assert (H : inject_Z 2 <= inject_Z (Z.of_nat (length xs)))
      by (rewrite <- Zle_Qle; lia).
    change (inject_Z 2) with 2 in H. lra. }
  assert (Hsum : Qsum sq <= 0).
  { apply Qnot_lt_le. intros Hpos. apply Hvar.
    apply Qlt_shift_div_l; [exact Hden|lra]. }
  pose proof (Qsum_zero sq Hsq Hsum) as Hall.
  rewrite Forall_forall in Hall.
  specialize (Hall ((x - Qmean xs) * (x - Qmean xs))
                (in_map _ _ _ Hx)).
  apply Qmult_integral in Hall. lra.
Qed.

Lemma detect_volume_anomalies_eq fsqrt data :
  _detect_volume_anomalies fsqrt data =
  if has_column data Volume then
    let avg_volume := rolling Qlist_mean 20 false (col Volume data) in
    let volume_std := rolling (Qlist_std fsqrt) 20 false (col Volume data) in
    map (anomaly_event)
      (select (combine (rows data) (combine avg_volume volume_std))
         (anomaly_mask (col Volume data) avg_volume volume_std))
  else [].
Proof.
  unfold _detect_volume_anomalies, try_except, detect_volume_anomalies_body,
    bind, lift.
  destruct (has_column data Volume) eqn:Hv;
    [rewrite (getitem_ok _ _ Hv) | now rewrite (getitem_missing _ _ Hv)].
  cbv zeta. rewrite for_each_append. reflexivity.
Qed.

Lemma nth_error_combine {A B} (xs : list A) (ys : list B) i x y :
  nth_error xs i = Some x -> nth_error ys i = Some y ->
  nth_error (combine xs ys) i = Some (x, y).
Proof.
  revert ys i. induction xs as [|a xs IH]; intros [|b ys] [|i]; simpl;
    try discriminate.
  - now intros [= <-] [= <-].
  - apply IH.
Qed.

Lemma nth_error_combine_inv {A B} (xs : list A) (ys : list B) i p :
  nth_error (combine xs ys) i = Some p ->
  nth_error xs i = Some (fst p) /\ nth_error ys i = Some (snd p).
Proof.
  revert ys i. induction xs as [|a xs IH]; intros [|b ys] [|i]; simpl;
    try discriminate.
  - now intros [= <-].
  - apply IH.
Qed.

(** The mask of [_detect_volume_anomalies] at a position of the series. *)
Lemma nth_error_anomaly_mask fsqrt data i b :
  nth_error (rows data) i = Some b ->
  nth_error
    (anomaly_mask (col Volume data)
       (rolling Qlist_mean 20 false (col Volume data))
       (rolling (Qlist_std fsqrt) 20 false (col Volume data))) i
  = Some (Float.gt (Fin (volume b))
            (Float.add (rolling_at Qlist_mean 20 false (col Volume data) i)
               (Float.mul (Fin 2)
                  (rolling_at (Qlist_std fsqrt) 20 false
                     (col Volume data) i)))).
Proof.
  intros Hb. pose proof (nth_error_col Volume _ _ _ Hb) as Hv.
  assert (Hi : (i < length (col Volume data))%nat)
    by (apply nth_error_Some; congruence).
  unfold anomaly_mask. apply nth_error_zip_with.
  eexists _, _. split; [|split; [|reflexivity]].
  - unfold Fins. rewrite nth_error_map, Hv. reflexivity.
  - apply nth_error_zip_with. eexists _, _.
    split; [now apply nth_error_rolling|].
    split; [now apply nth_error_rolling|reflexivity].
Qed.

(** With a zero or undefined standard deviation the mask is false. *)
Lemma anomaly_mask_false_without_std fsqrt vols i v :
  (forall x, 0 < x -> 0 < fsqrt x) ->
  nth_error vols i = Some v ->
  (rolling_at (Qlist_std fsqrt) 20 false vols i = NaN \/
   exists s, rolling_at (Qlist_std fsqrt) 20 false vols i = Fin s /\ s == 0) ->
  Float.gt (Fin v)
    (Float.add (rolling_at Qlist_mean 20 false vols i)
       (Float.mul (Fin 2) (rolling_at (Qlist_std fsqrt) 20 false vols i)))
  = false.
Proof.
  intros Hsqrt Hv [Hnan|(s & Hs & Hzero)].
  - rewrite Hnan. destruct (rolling_at Qlist_mean 20 false vols i); reflexivity.
  - assert (Hdef : rolling_at (Qlist_std fsqrt) 20 false vols i <> NaN)
      by (rewrite Hs; discriminate).
    apply rolling_at_defined in Hdef as [Hb Heq].
    rewrite (rolling_at_full Qlist_mean _ _ _ _ Hb).
    rewrite Hs in *. clear Hs.
    cbn [window_offset] in *. rewrite Nat.add_0_r in *.
    set (w := slice vols (i + 1 - 20) (i + 1)) in *.
    assert (Hlen : length w = 20%nat)
      by (unfold w; rewrite slice_length; lia).
    unfold Qlist_std in Heq. rewrite Hlen in Heq. cbn [Nat.leb] in Heq.
    injection Heq as Heq.
    assert (Hw : Qlist_mean w = Fin (Qmean w))
      by (destruct w; [discriminate|reflexivity]).
    rewrite Hw. cbn [Float.mul Float.add Float.gt Float.lt].
    apply not_true_iff_false. rewrite Qlt_bool_iff.
    assert (Hvar : ~ 0 < Qvar w).
    { intros Hpos. apply Hsqrt in Hpos. rewrite <- Heq in Hpos. lra. }
    assert (Hin : In v w).
    { apply (In_slice _ _ _ i); [exact Hv|].
      assert (i < length vols)%nat by (apply nth_error_Some; congruence).
      lia. }
    pose proof (Qvar_zero w v ltac:(lia) Hvar Hin). lra.
Qed.

Lemma Qlist_std_cases fsqrt xs :
  Qlist_std fsqrt xs = NaN \/ exists s, Qlist_std fsqrt xs = Fin s.
Proof. unfold Qlist_std. destruct (length xs <=? 1)%nat; eauto. Qed.

(** C9.  On a series with strictly increasing timestamps a bar is reported
    as a volume anomaly exactly when its volume is strictly above the
    rolling 20-bar mean plus twice the rolling 20-bar standard deviation;
    no anomaly is reported where the standard deviation is zero or
    undefined, so that the deviation of a reported anomaly is a quotient by
    a defined, non-zero standard deviation. *)
Theorem volume_anomaly_iff_above_two_sigma fsqrt data i b :
  (forall x, 0 < x -> 0 < fsqrt x) ->
  has_column data Volume = true ->
  StronglySorted Z.lt (index data) ->
  nth_error (rows data) i = Some b ->
  (anomaly_at fsqrt data b <->
   Float.gt (Fin (volume b))
     (Float.add (volume_mean data i)
        (Float.mul (Fin 2) (volume_std fsqrt data i))) = true) /\
  ((volume_std fsqrt data i = NaN \/
    exists s, volume_std fsqrt data i = Fin s /\ s == 0) ->
   ~ anomaly_at fsqrt data b) /\
  (forall e,
      In e (_detect_volume_anomalies fsqrt data) ->
      va_timestamp e = timestamp b ->
      va_deviation e
      = Float.div (Float.sub (Fin (volume b)) (volume_mean data i))
          (volume_std fsqrt data i) /\
      exists s, volume_std fsqrt data i = Fin s /\ ~ s == 0).
Proof.
  intros Hsqrt Hcol Hsorted Hb.
  unfold anomaly_at, volume_mean, volume_std.
  rewrite detect_volume_anomalies_eq, Hcol. cbv zeta.
  set (vols := col Volume data).
  set (avg := rolling Qlist_mean 20 false vols).
  set (std := rolling (Qlist_std fsqrt) 20 false vols).
  pose proof (nth_error_anomaly_mask fsqrt data i b Hb) as Hmask.
  fold vols avg std in Hmask.
  pose proof (nth_error_col Volume _ _ _ Hb) as Hv. fold vols in Hv.
  cbn [cell] in Hv.
  assert (Hi : (i < length vols)%nat) by (apply nth_error_Some; congruence).
  assert (Hloc : nth_error (combine (rows data) (combine avg std)) i
                 = Some (b, (rolling_at Qlist_mean 20 false vols i,
                             rolling_at (Qlist_std fsqrt) 20 false vols i))).
  { apply nth_error_combine; [exact Hb|].
    apply nth_error_combine; now apply nth_error_rolling. }
  assert (Hrow : forall e,
             In e (map anomaly_event
                     (select (combine (rows data) (combine avg std))
                        (anomaly_mask vols avg std))) ->
             va_timestamp e = timestamp b ->
             e = anomaly_event
                   (b, (rolling_at Qlist_mean 20 false vols i,
                        rolling_at (Qlist_std fsqrt) 20 false vols i)) /\
             Float.gt (Fin (volume b))
               (Float.add (rolling_at Qlist_mean 20 false vols i)
                  (Float.mul (Fin 2)
                     (rolling_at (Qlist_std fsqrt) 20 false vols i))) = true).
  { intros e He Hts. apply in_map_iff in He as ([b' [a s]] & <- & Hsel).
    apply In_select in Hsel as (j & Hj & Hmj).
    pose proof (nth_error_combine_inv _ _ _ _ Hj) as [Hbj _].
    cbn [fst] in Hbj. cbn [anomaly_event va_timestamp] in Hts.
    assert (j = i)
      by (eapply (sorted_lt_nth_error_inj timestamp); eauto).
    subst j. rewrite Hloc in Hj. injection Hj as <- <- <-.
    split; [reflexivity|]. congruence. }
  assert (Hfwd : (exists e,
                     In e (map anomaly_event
                             (select (combine (rows data) (combine avg std))
                                (anomaly_mask vols avg std)))
                     /\ va_timestamp e = timestamp b) ->
                 Float.gt (Fin (volume b))
                   (Float.add (rolling_at Qlist_mean 20 false vols i)
                      (Float.mul (Fin 2)
                         (rolling_at (Qlist_std fsqrt) 20 false vols i)))
                 = true).
  { intros (e & He & Hts). now apply (Hrow e He Hts). }
  split; [split; [exact Hfwd|]|split].
  - intros Hgt. eexists. split.
    + apply in_map, In_select. exists i. split; [exact Hloc|].
      now rewrite Hmask, Hgt.
    + reflexivity.
  - intros Hstd Hex. apply Hfwd in Hex.
    rewrite (anomaly_mask_false_without_std fsqrt vols i (volume b)
               Hsqrt Hv Hstd) in Hex.
    discriminate.
  - intros e He Hts. destruct (Hrow e He Hts) as [-> Hgt].
    split; [reflexivity|].
    destruct (fval_nan_dec (rolling_at (Qlist_std fsqrt) 20 false vols i))
      as [Hnan|Hdef].
    + rewrite (anomaly_mask_false_without_std fsqrt vols i (volume b)
                 Hsqrt Hv (or_introl Hnan)) in Hgt.
      discriminate.
    + pose proof Hdef as Hdef'.
      apply rolling_at_defined in Hdef' as [_ Heq].
      destruct (Qlist_std_cases fsqrt
                  (slice vols (i + 1 + window_offset 20 false - 20)
                     (i + 1 + window_offset 20 false))) as [E|[s E]];
        [congruence|].
      rewrite E in Heq. exists s. split; [exact Heq|].
      intros Hzero.
      rewrite (anomaly_mask_false_without_std fsqrt vols i (volume b)
                 Hsqrt Hv (or_intror (ex_intro _ s (conj Heq Hzero)))) in Hgt.
      discriminate.
Qed.

Lemma newton_pos n x y : 0 < x -> 0 < y -> 0 < newton n x y.
Proof.
  intros Hx. revert y. induction n as [|n IH]; intros y Hy; cbn [newton];
    [exact Hy|].
  apply IH.
  assert (0 < x / y) by (apply Qlt_shift_div_l; lra).
  assert (0 < (y + x / y) / 2) by (apply Qlt_shift_div_l; lra).
  pose proof (Qred_correct ((y + x / y) / 2)) as E.
  revert E. generalize (Qred ((y + x / y) / 2)) as r.
  revert H0. generalize ((y + x / y) / 2) as t. intros t Ht r E. lra.
Qed.

Lemma newton_sqrt_pos x : 0 < x -> 0 < newton_sqrt x.
Proof.
  intros Hx. unfold newton_sqrt.
  destruct (Qlt_bool 0 x) eqn:E.
  - apply newton_pos; [exact Hx|].
    change 0 with (inject_Z 0). rewrite <- Zlt_Qlt.
    pose proof (Z.sqrt_nonneg (Qfloor x)). lia.
  - apply Qlt_bool_iff in Hx. congruence.
Qed.

Lemma volume_anomaly_iff_above_two_sigma_witness :
  let b := mkBar 72000 10 11 9 10 1000 in
  (anomaly_at newton_sqrt spike_data b <->
   Float.gt (Fin (volume b))
     (Float.add (volume_mean spike_data 20)
        (Float.mul (Fin 2) (volume_std newton_sqrt spike_data 20))) = true) /\
  ((volume_std newton_sqrt spike_data 20 = NaN \/
    exists s, volume_std newton_sqrt spike_data 20 = Fin s /\ s == 0) ->
   ~ anomaly_at newton_sqrt spike_data b) /\
  (forall e,
      In e (_detect_volume_anomalies newton_sqrt spike_data) ->
      va_timestamp e = timestamp b ->
      va_deviation e
      = Float.div (Float.sub (Fin (volume b)) (volume_mean spike_data 20))
          (volume_std newton_sqrt spike_data 20) /\
      exists s, volume_std newton_sqrt spike_data 20 = Fin s /\ ~ s == 0).
Proof.
  intros b.
  apply (volume_anomaly_iff_above_two_sigma newton_sqrt spike_data 20 b).
  - exact newton_sqrt_pos.
  - reflexivity.
  - apply hourly_from_sorted.
  - reflexivity.
Defined.

(** The spike of [spike_data] is reported, and it is the only anomaly. *)
Lemma spike_data_anomalies :
  map va_timestamp (_detect_volume_anomalies newton_sqrt spike_data)
  = [72000%Z].
Proof. vm_compute. reflexivity. Qed.

(** ** The aggregator *)

Lemma for_each_append_snd {A E} (f : A -> E) xs (s : list E) :
  snd (for_each xs (fun x => append (f x)) s) = Ok tt.
Proof. now rewrite for_each_append. Qed.

(** A fault of the breakout detector comes before its first append. *)
Lemma detect_breakouts_fault cfg data e :
  snd (detect_breakouts_body cfg data []) = Raise e ->
  fst (detect_breakouts_body cfg data []) = [].
Proof.
  unfold detect_breakouts_body, bind, lift.
  destruct (getitem data High); [|reflexivity].
  destruct (getitem data Low); [|reflexivity].
  destruct (getitem data Close); [|reflexivity].
  destruct (getitem data Open); [|reflexivity].
  destruct (getitem data Volume); [|reflexivity].
  rewrite for_each_append, for_each_append. discriminate.
Qed.

Lemma detect_trend_changes_fault data e :
  snd (detect_trend_changes_body data []) = Raise e ->
  fst (detect_trend_changes_body data []) = [].
Proof.
  unfold detect_trend_changes_body, bind, lift.
  destruct (getitem data Close); [|reflexivity].
  cbv zeta. rewrite for_each_append, for_each_append. discriminate.
Qed.

Lemma detect_volume_anomalies_fault fsqrt data e :
  snd (detect_volume_anomalies_body fsqrt data []) = Raise e ->
  fst (detect_volume_anomalies_body fsqrt data []) = [].
Proof.
  unfold detect_volume_anomalies_body, bind, lift.
  destruct (getitem data Volume); [|reflexivity].
  cbv zeta. rewrite for_each_append. discriminate.
Qed.

(** What [analyze] returns, field by field. *)
Lemma analyze_eq find_peaks fsqrt now cfg data sym :
  analyze find_peaks fsqrt now cfg data sym =
  Ok {| symbol := sym;
        generated := now;
        breakouts :=
          if breakout_enabled cfg then _detect_breakouts cfg data else [];
        divergences :=
          if divergence_enabled cfg
          then _detect_divergences find_peaks cfg data else [];
        support_resistance :=
          if support_resistance_enabled cfg
          then _detect_support_resistance cfg data else [];
        trend_changes := _detect_trend_changes data;
        volume_anomalies := _detect_volume_anomalies fsqrt data;
        technical_signals := _analyze_technical_signals data |}.
Proof.
  unfold analyze, analyze_body, try_except, bind, modify, ret,
    initial_patterns.
  destruct (breakout_enabled cfg), (divergence_enabled cfg),
    (support_resistance_enabled cfg); reflexivity.
Qed.

(** C8 (amended).  [analyze] always returns a complete result.  Each
    sequence is what the [try] block of its own detector had appended when
    the block ended, by completion or by a fault, whatever happened in the
    other detectors; for the breakout, trend-change and volume-anomaly
    detectors a fault leaves the sequence empty. *)
Theorem analyze_isolates_detector_faults find_peaks fsqrt now cfg data sym :
  exists r,
    analyze find_peaks fsqrt now cfg data sym = Ok r /\
    symbol r = sym /\
    breakouts r
    = (if breakout_enabled cfg
       then fst (detect_breakouts_body cfg data []) else []) /\
    divergences r
    = (if divergence_enabled cfg
       then fst (detect_divergences_body find_peaks cfg data []) else []) /\
    support_resistance r
    = (if support_resistance_enabled cfg
       then fst (detect_support_resistance_body cfg data []) else []) /\
    trend_changes r = fst (detect_trend_changes_body data []) /\
    volume_anomalies r = fst (detect_volume_anomalies_body fsqrt data []) /\
    technical_signals r
    = fst (analyze_technical_signals_body data no_signals) /\
    (forall e, snd (detect_breakouts_body cfg data []) = Raise e ->
               breakouts r = []) /\
    (forall e, snd (detect_trend_changes_body data []) = Raise e ->
               trend_changes r = []) /\
    (forall e, snd (detect_volume_anomalies_body fsqrt data []) = Raise e ->
               volume_anomalies r = []).
Proof.
  eexists. split; [apply analyze_eq|]. cbn [symbol breakouts divergences
    support_resistance trend_changes volume_anomalies technical_signals].
  repeat split.
  - intros e He. destruct (breakout_enabled cfg); [|reflexivity].
    now apply detect_breakouts_fault with e.
  - intros e He. now apply detect_trend_changes_fault with e.
  - intros e He. now apply detect_volume_anomalies_fault with e.
Qed.

(** C8 as stated fails: on [zero_lows_data] the support/resistance detector
    faults, dividing by the zero representative of its first support
    cluster, after it has appended a resistance level; the level stays in
    the result. *)
Lemma faulting_detector_sequence_not_empty_counterexample :
  snd (detect_support_resistance_body default_config zero_lows_data [])
  = Raise ZeroDivisionError /\
  _detect_support_resistance default_config zero_lows_data
  = [mkLevel resistance 10 2 (200 # 6) (PyFloat 10)] /\
  exists r,
    analyze strict_peaks newton_sqrt 0 default_config zero_lows_data "X"
    = Ok r /\
    support_resistance r <> [].
Proof.
  split; [vm_compute; reflexivity|].
  split; [vm_compute; reflexivity|].
  eexists. split; [apply analyze_eq|].
  vm_compute. discriminate.
Qed.

Lemma getitem_empty data c :
  rows data = [] -> getitem data c = Ok [] \/ getitem data c = Raise KeyError.
Proof.
  intros H. unfold getitem. rewrite H.
  destruct (existsb (column_eqb c) (columns data)); auto.
Qed.

Lemma detect_breakouts_empty cfg data :
  rows data = [] -> _detect_breakouts cfg data = [].
Proof.
  intros H. rewrite detect_breakouts_eq, H.
  now destruct (has_column data High && has_column data Low
                && has_column data Close && has_column data Open
                && has_column data Volume).
Qed.

Lemma detect_divergences_empty find_peaks cfg data :
  rows data = [] -> _detect_divergences find_peaks cfg data = [].
Proof.
  intros H. unfold _detect_divergences, try_except, detect_divergences_body,
    bind, lift.
  destruct (getitem_empty data Close H) as [-> | ->]; reflexivity.
Qed.

Lemma detect_support_resistance_empty cfg data :
  rows data = [] -> _detect_support_resistance cfg data = [].
Proof.
  intros H. unfold _detect_support_resistance, try_except,
    detect_support_resistance_body, bind, lift.
  destruct (getitem_empty data High H) as [-> | ->]; [|reflexivity].
  destruct (getitem_empty data Low H) as [-> | ->]; [|reflexivity].
  unfold candidates, index. rewrite H. reflexivity.
Qed.

Lemma detect_trend_changes_empty data :
  rows data = [] -> _detect_trend_changes data = [].
Proof.
  intros H. rewrite detect_trend_changes_eq, H.
  now destruct (has_column data Close).
Qed.

Lemma detect_volume_anomalies_empty fsqrt data :
  rows data = [] -> _detect_volume_anomalies fsqrt data = [].
Proof.
  intros H. rewrite detect_volume_anomalies_eq, H.
  now destruct (has_column data Volume).
Qed.

Lemma analyze_technical_signals_empty data :
  rows data = [] -> _analyze_technical_signals data = no_signals.
Proof.
  intros H. unfold _analyze_technical_signals, try_except,
    analyze_technical_signals_body, bind, lift.
  destruct (getitem_empty data Close H) as [-> | ->]; reflexivity.
Qed.

(** C4 (amended).  [analyze] checks nothing about its input: for every
    series, empty or out of chronological order included, it returns a
    result object for the symbol, never an error, which holds what the
    detectors return on the series (the enabled ones, for the three that the
    configuration can disable); for the empty series the result is the
    initial one, with five empty sequences and no technical signal. *)
Theorem analyze_always_returns_a_result find_peaks fsqrt now cfg data sym :
  exists r,
    analyze find_peaks fsqrt now cfg data sym = Ok r /\
    symbol r = sym /\
    breakouts r
    = (if breakout_enabled cfg then _detect_breakouts cfg data else []) /\
    divergences r
    = (if divergence_enabled cfg
       then _detect_divergences find_peaks cfg data else []) /\
    support_resistance r
    = (if support_resistance_enabled cfg
       then _detect_support_resistance cfg data else []) /\
    trend_changes r = _detect_trend_changes data /\
    volume_anomalies r = _detect_volume_anomalies fsqrt data /\
    technical_signals r = _analyze_technical_signals data /\
    (rows data = [] -> r = initial_patterns now sym).
Proof.
  eexists. split; [apply analyze_eq|]. cbn [symbol breakouts divergences
    support_resistance trend_changes volume_anomalies technical_signals].
  repeat (split; [reflexivity|]).
  intros H. unfold initial_patterns.
  rewrite (detect_breakouts_empty cfg data H),
    (detect_divergences_empty find_peaks cfg data H),
    (detect_support_resistance_empty cfg data H),
    (detect_trend_changes_empty data H),
    (detect_volume_anomalies_empty fsqrt data H),
    (analyze_technical_signals_empty data H).
  now destruct (breakout_enabled cfg), (divergence_enabled cfg),
    (support_resistance_enabled cfg).
Qed.

(** C4 as stated fails: for the empty series and for a series given latest
    bar first, [analyze] returns a result object with empty event sequences,
    not an error. *)
Lemma analyze_accepts_empty_and_unsorted_counterexample :
  rows empty_data = [] /\
  analyze strict_peaks newton_sqrt 0 default_config empty_data "X"
  = Ok (initial_patterns 0 "X") /\
  ~ Sorted Z.le (index unsorted_data) /\
  exists r,
    analyze strict_peaks newton_sqrt 0 default_config unsorted_data "X"
    = Ok r /\
    breakouts r = [] /\ divergences r = [] /\ support_resistance r = [] /\
    trend_changes r = [] /\ volume_anomalies r = [].
Proof.
  split; [reflexivity|].
  split; [vm_compute; reflexivity|].
  split.
  - vm_compute. intros H. apply Sorted_inv in H as [_ H].
    apply HdRel_inv in H. apply H. reflexivity.
  - eexists. split; [apply analyze_eq|]. vm_compute. repeat split.
Qed.

(** * Further properties of the analyzer *)

(** ** Support breakouts *)

Lemma fold_left_Qmin_le xs a :
  fold_left Qmin xs a <= a /\ forall x, In x xs -> fold_left Qmin xs a <= x.
Proof.
  revert a. induction xs as [|y xs IH]; intros a; simpl.
  - split; [apply Qle_refl | tauto].
  - destruct (IH (Qmin a y)) as [H1 H2]. split.
    + eapply Qle_trans; [exact H1 | apply Q.le_min_l].
    + intros x [<-|Hx]; [|exact (H2 x Hx)].
      eapply Qle_trans; [exact H1 | apply Q.le_min_r].
Qed.

Lemma Qlist_min_le xs m x : Qlist_min xs = Fin m -> In x xs -> m <= x.
Proof.
  destruct xs as [|a xs]; [discriminate|]. simpl.
  intros [= <-] [<-|Hx].
  - exact (proj1 (fold_left_Qmin_le xs a)).
  - exact (proj2 (fold_left_Qmin_le xs a) x Hx).
Qed.

(** A row flagged by [support_breaks & high_volume]. *)
Lemma support_flag_full cfg data i :
  nth_error (support_flags cfg data) i = Some true ->
  exists b,
    nth_error (rows data) i = Some b /\
    (1 <= i /\ lookback_periods cfg <= i + window_offset (lookback_periods cfg) true
     /\ i + window_offset (lookback_periods cfg) true <= length (rows data))%nat /\
    (exists m,
        Qlist_min (slice (col Low data)
                     (i + window_offset (lookback_periods cfg) true
                      - lookback_periods cfg)
                     (i + window_offset (lookback_periods cfg) true)) = Fin m /\
        close b < m) /\
    close b < open b /\
    (1 <= lookback_periods cfg <= i + 1)%nat /\
    Qmean (slice (col Volume data) (i + 1 - lookback_periods cfg) (i + 1))
    * volume_threshold cfg < volume b.
Proof.
  unfold support_flags. set (w := lookback_periods cfg). intros H.
  apply nth_error_zip_with in H as (r & hv & Hr & Hhv & Hand).
  symmetry in Hand. apply andb_true_iff in Hand as [-> ->].
  unfold support_breaks in Hr.
  apply nth_error_zip_with in Hr as (p & q & Hp & Hq & Hand).
  symmetry in Hand. apply andb_true_iff in Hand as [-> ->].
  apply nth_error_zip_with in Hp as (c & h & Hc & Hh & Hlt).
  apply nth_error_zip_with in Hq as (c' & o & Hc' & Ho & Hlt').
  apply nth_error_Fins in Hc as (cq & Hcq & ->).
  apply nth_error_Fins in Hc' as (cq' & Hcq' & ->).
  apply nth_error_Fins in Ho as (oq & Hoq & ->).
  assert (Hb : exists b, nth_error (rows data) i = Some b).
  { unfold col in Hcq. rewrite nth_error_map in Hcq.
    destruct (nth_error (rows data) i); [eauto | discriminate]. }
  destruct Hb as [b Hb].
  rewrite (nth_error_col Close _ _ _ Hb) in Hcq, Hcq'.
  rewrite (nth_error_col Open _ _ _ Hb) in Hoq.
  injection Hcq as <-. injection Hcq' as <-. injection Hoq as <-.
  cbn [cell] in *.
  symmetry in Hlt, Hlt'.
  apply Float_lt_Fin in Hlt' as [(o' & [= <-] & Hopen)|]; [|discriminate].
  assert (Hh' : h <> NaN) by (intros ->; discriminate).
  apply shifted_rolling in Hh as (j & -> & Hroll); [|exact Hh'].
  assert (Hdef : rolling_at Qlist_min w true (col Low data) j <> NaN)
    by (rewrite <- Hroll; exact Hh').
  apply rolling_at_defined in Hdef as [(H1 & H2 & H3) Heq].
  rewrite <- Hroll in Heq.
  replace (j + 1 + window_offset w true)%nat
    with (S j + window_offset w true)%nat in * by lia.
  apply Float_lt_Fin in Hlt as [(m & -> & Hm)| ->].
  - apply high_volume_true in Hhv as (v & Hv & Hw & xs & -> & _ & Hvol).
    rewrite (nth_error_col Volume _ _ _ Hb) in Hv. injection Hv as <-.
    exists b. unfold col in H3. rewrite length_map in H3.
    repeat split; try lia; eauto.
  - destruct (Qlist_min_cases
                (slice (col Low data) (S j + window_offset w true - w)
                   (S j + window_offset w true))) as [E|[m E]];
      congruence.
Qed.

(** X1.  Every support breakout reported comes from a bar [i] whose close
    is strictly under the centered rolling minimum of the lows taken at bar
    [i-1], under its open, and whose volume is strictly above
    [volume_threshold] times the mean volume of the [lookback] bars ending
    at [i]. *)
Theorem support_breakout_conditions cfg data e :
  In e (_detect_breakouts cfg data) ->
  bo_type e = support_breakout ->
  exists i b,
    nth_error (rows data) i = Some b /\
    e = breakout_event data support_breakout b /\
    (1 <= i /\ lookback_periods cfg <= i + window_offset (lookback_periods cfg) true
     /\ i + window_offset (lookback_periods cfg) true <= length (rows data))%nat /\
    (exists m,
        Qlist_min (slice (col Low data)
                     (i + window_offset (lookback_periods cfg) true
                      - lookback_periods cfg)
                     (i + window_offset (lookback_periods cfg) true)) = Fin m /\
        close b < m) /\
    close b < open b /\
    (1 <= lookback_periods cfg <= i + 1)%nat /\
    Qmean (slice (col Volume data) (i + 1 - lookback_periods cfg) (i + 1))
    * volume_threshold cfg < volume b.
Proof.
  rewrite detect_breakouts_eq. intros Hin Hty.
  destruct (has_column data High && has_column data Low
            && has_column data Close && has_column data Open
            && has_column data Volume); [|contradiction].
  apply in_app_or in Hin as [Hin|Hin]; apply in_map_iff in Hin as (b & <- & Hb).
  - discriminate.
  - apply In_select in Hb as (i & Hrow & Hflag).
    apply support_flag_full in Hflag as (b' & Hrow' & Hrest).
    assert (b' = b) by congruence. subst b'.
    exists i, b. split; [exact Hrow|]. split; [reflexivity|]. exact Hrest.
Qed.

Lemma support_breakout_conditions_witness :
  exists i b,
    nth_error (rows two_breakouts_data) i = Some b /\
    mkBreakout support_breakout 7200 8 400 (Fin 0)
    = breakout_event two_breakouts_data support_breakout b /\
    (1 <= i /\ 2 <= i + window_offset 2 true
     /\ i + window_offset 2 true <= length (rows two_breakouts_data))%nat /\
    (exists m,
        Qlist_min (slice (col Low two_breakouts_data)
                     (i + window_offset 2 true - 2)
                     (i + window_offset 2 true)) = Fin m /\
        close b < m) /\
    close b < open b /\
    (1 <= 2 <= i + 1)%nat /\
    Qmean (slice (col Volume two_breakouts_data) (i + 1 - 2) (i + 1))
    * (15 # 10) < volume b.
Proof.
  apply (support_breakout_conditions lookback2_config two_breakouts_data).
  - vm_compute. right. left. reflexivity.
  - reflexivity.
Defined.

Lemma support_flag_needs_close_below_low cfg data i b :
  (3 <= lookback_periods cfg)%nat ->
  nth_error (rows data) i = Some b ->
  nth_error (support_flags cfg data) i = Some true ->
  close b < low b.
Proof.
  intros Hw Hrow Hflag.
  apply support_flag_full in Hflag
    as (b' & Hrow' & (H1 & H2 & H3) & (m & Hmin & Hm) & _).
  assert (b' = b) by congruence. subst b'.
  eapply Qlt_le_trans; [exact Hm|].
  apply (Qlist_min_le _ _ _ Hmin).
  apply (In_slice _ _ _ i); [apply (nth_error_col Low _ _ _ Hrow)|].
  unfold window_offset in *.
  assert (1 <= (lookback_periods cfg - 1) / 2)%nat
    by (apply Nat.div_le_lower_bound; lia).
  assert ((lookback_periods cfg - 1) / 2 < lookback_periods cfg)%nat
    by (apply Nat.Div0.div_lt_upper_bound; lia).
  lia.
Qed.

Lemma select_none {A} (xs : list A) mask :
  (forall i x, nth_error xs i = Some x -> nth_error mask i = Some true ->
               False) ->
  select xs mask = [].
Proof.
  intros H. destruct (select xs mask) as [|x l] eqn:E; [reflexivity|].
  assert (Hx : In x (select xs mask)) by (rewrite E; now left).
  apply In_select in Hx as (i & H1 & H2). elim (H i x H1 H2).
Qed.

(** X2.  With a lookback of three bars or more, a series whose closes lie
    between the low and the high of their bars yields no breakout at all:
    the centered window read at bar [i-1] holds bar [i] itself. *)
Theorem no_breakout_when_close_within_range cfg data :
  (3 <= lookback_periods cfg)%nat ->
  close_within_range data ->
  _detect_breakouts cfg data = [].
Proof.
  intros Hw Hwf. rewrite detect_breakouts_eq.
  destruct (has_column data High && has_column data Low
            && has_column data Close && has_column data Open
            && has_column data Volume); [|reflexivity].
  unfold close_within_range in Hwf. rewrite Forall_forall in Hwf.
  rewrite !select_none; [reflexivity| |].
  - intros i b Hb Hflag.
    pose proof (support_flag_needs_close_below_low cfg data i b Hw Hb Hflag).
    destruct (Hwf b (nth_error_In _ _ Hb)) as [Hlow _].
    apply (Qlt_irrefl (close b)). now apply Qlt_le_trans with (low b).
  - intros i b Hb Hflag.
    pose proof (resistance_flag_needs_close_above_high cfg data i b
                  Hw Hb Hflag).
    destruct (Hwf b (nth_error_In _ _ Hb)) as [_ Hhigh].
    apply (Qlt_irrefl (close b)). now apply Qle_lt_trans with (high b).
Qed.

Lemma bars_of_closes_within_range closes cols :
  close_within_range {| rows := bars_of_closes closes; columns := cols |}.
Proof.
  unfold close_within_range, bars_of_closes, hourly_from. cbn [rows].
  apply Forall_forall. intros b Hb.
  apply in_map_iff in Hb as ([i [[[[o h] l] c] v]] & <- & Hin).
  apply in_combine_r in Hin. apply in_map_iff in Hin as (c0 & [= <- <- <- <- <-] & _).
  cbn [low close high]. split; lra.
Qed.

Lemma no_breakout_when_close_within_range_witness :
  _detect_breakouts default_config divergence_data = [].
Proof.
  apply (no_breakout_when_close_within_range default_config divergence_data).
  - vm_compute. repeat constructor.
  - apply bars_of_closes_within_range.
Defined.

(** ** Breakout strength *)

Lemma max0_nonneg x : Float.le (Fin 0) (max0 x) = true.
Proof.
  unfold max0. destruct (Float.gt x (Fin 0)) eqn:E; [|reflexivity].
  destruct x as [q| | |]; try discriminate; [|reflexivity].
  simpl. apply Qle_bool_iff, Qlt_le_weak.
  unfold Float.gt, Float.lt in E. now apply Qlt_bool_iff.
Qed.

(** The strength is computed from the window and from the close of the one
    row labelled [idx]; every other course of the computation raises. *)
Lemma breakout_strength_eq data idx ty :
  _calculate_breakout_strength data idx ty
  = match loc_slice data match ty with
                         | resistance => High
                         | support => Low
                         end (idx - Timedelta_days 20) idx,
          loc_cell data idx Close with
    | Ok window, Ok (Scalar c) =>
        max0 match ty with
             | resistance =>
                 Float.div (Float.sub (Fin c) (Qlist_max window))
                   (Qlist_max window)
             | support =>
                 Float.div (Float.sub (Qlist_min window) (Fin c))
                   (Qlist_min window)
             end
    | _, _ => Fin 0
    end.
Proof.
  unfold _calculate_breakout_strength.
  destruct ty; destruct (loc_slice data _ _ idx);
    destruct (loc_cell data idx Close) as [[c|cs]|]; reflexivity.
Qed.

Lemma loc_cell_scalar data idx c q :
  loc_cell data idx c = Ok (Scalar q) ->
  has_column data c = true /\
  exists b,
    filter (fun x => (timestamp x =? idx)%Z) (rows data) = [b] /\
    q = cell c b.
Proof.
  unfold loc_cell, getitem, has_column.
  destruct (existsb (column_eqb c) (columns data)); [|discriminate].
  cbn [res_bind].
  destruct (filter _ (rows data)) as [|b [|b' bs]]; try discriminate.
  intros [= <-]. eauto.
Qed.

Lemma loc_slice_column data c lo hi window :
  loc_slice data c lo hi = Ok window -> has_column data c = true.
Proof.
  unfold loc_slice, getitem, has_column.
  now destruct (existsb (column_eqb c) (columns data)).
Qed.

(** X3.  The strength of a breakout is never negative and never undefined:
    it is a finite non-negative number or plus infinity, whatever the frame
    holds.  It is 0.0 whenever its computation raises: when the frame lacks
    the close column or the column of the window (high for a resistance, low
    for a support), and when the label is carried by no row, or by more than
    one. *)
Theorem breakout_strength_nonneg data idx ty :
  (Float.le (Fin 0) (_calculate_breakout_strength data idx ty) = true /\
   _calculate_breakout_strength data idx ty <> NaN) /\
  (has_column data Close = false \/
   has_column data match ty with
                   | resistance => High
                   | support => Low
                   end = false \/
   length (filter (fun b => (timestamp b =? idx)%Z) (rows data)) <> 1%nat ->
   _calculate_breakout_strength data idx ty = Fin 0).
Proof.
  rewrite breakout_strength_eq.
  destruct (loc_slice data _ _ idx) as [window|] eqn:Hw;
    [|split; [split; [reflexivity|discriminate]|reflexivity]].
  destruct (loc_cell data idx Close) as [[c|cs]|] eqn:Hc;
    try (split; [split; [reflexivity|discriminate]|reflexivity]).
  split.
  - assert (H : Float.le (Fin 0)
                  (max0 match ty with
                        | resistance =>
                            Float.div (Float.sub (Fin c) (Qlist_max window))
                              (Qlist_max window)
                        | support =>
                            Float.div (Float.sub (Qlist_min window) (Fin c))
                              (Qlist_min window)
                        end) = true) by apply max0_nonneg.
    split; [exact H|]. intros E. rewrite E in H. discriminate.
  - apply loc_cell_scalar in Hc as (Hclose & b & Hf & _).
    apply loc_slice_column in Hw.
    intros [H|[H|H]]; [congruence | congruence |].
    rewrite Hf in H. now contradiction H.
Qed.

Lemma breakout_strength_nonneg_witness :
  (Float.le (Fin 0) (_calculate_breakout_strength levels_data 5 resistance)
   = true /\
   _calculate_breakout_strength levels_data 5 resistance <> NaN) /\
  _calculate_breakout_strength levels_data 5 resistance = Fin 0.
Proof.
  destruct (breakout_strength_nonneg levels_data 5 resistance) as [H1 H2].
  split; [exact H1|]. apply H2. right. right. vm_compute. discriminate.
Defined.

Lemma fold_left_Qmin_pos xs a :
  0 < a -> Forall (fun x => 0 < x) xs -> 0 < fold_left Qmin xs a.
Proof.
  revert a. induction xs as [|y xs IH]; intros a Ha Hxs; simpl; [exact Ha|].
  apply IH; [|now inversion Hxs].
  apply Q.min_glb_lt; [exact Ha | now inversion Hxs].
Qed.

Lemma Qlist_min_pos xs m :
  Qlist_min xs = Fin m -> Forall (fun x => 0 < x) xs -> 0 < m.
Proof.
  destruct xs as [|a xs]; [discriminate|]. simpl. intros [= <-] H.
  apply fold_left_Qmin_pos; now inversion H.
Qed.

Lemma max0_of_nonpos_quotient a m :
  a <= 0 -> 0 < m -> max0 (Float.div (Fin a) (Fin m)) = Fin 0.
Proof.
  intros Ha Hm. cbn [Float.div].
  destruct (Qeq_bool m 0) eqn:E; [apply Qeq_bool_eq in E; lra|].
  unfold max0, Float.gt, Float.lt.
  destruct (Qlt_bool 0 (a / m)) eqn:E'; [|reflexivity].
  apply Qlt_bool_iff in E'.
  assert (a / m <= 0) by (apply Qle_shift_div_r; lra). lra.
Qed.

Lemma filter_singleton_split {A} (f : A -> bool) (l : list A) b :
  filter f l = [b] ->
  exists pre post,
    l = pre ++ b :: post /\
    Forall (fun x => f x = false) pre /\
    Forall (fun x => f x = false) post.
Proof.
  induction l as [|x l IH]; cbn [filter]; [discriminate|].
  destruct (f x) eqn:E.
  - intros [= -> Hrest]. exists [], l. split; [reflexivity|].
    split; [constructor|].
    apply Forall_forall. intros y Hy.
    destruct (f y) eqn:Ey; [|reflexivity].
    assert (In y (filter f l)) by (apply filter_In; auto).
    rewrite Hrest in H. contradiction.
  - intros H. destruct (IH H) as (pre & post & -> & Hpre & Hpost).
    exists (x :: pre), post. split; [reflexivity|].
    split; [constructor; assumption | exact Hpost].
Qed.

Lemma first_position_app pre label post :
  Forall (fun t => (t =? label)%Z = false) pre ->
  first_position (pre ++ label :: post) label = Some (length pre).
Proof.
  induction 1 as [|t pre Ht _ IH]; cbn [app first_position length].
  - now rewrite Z.eqb_refl.
  - now rewrite Ht, IH.
Qed.

Lemma slice_one {A} (pre : list A) x post :
  slice (pre ++ x :: post) (length pre) (length pre + 1) = [x].
Proof.
  unfold slice. rewrite skipn_app, skipn_all, Nat.sub_diag.
  now replace (length pre + 1 - length pre)%nat with 1%nat by lia.
Qed.

(** The slice up to a label carried by one row stops just after that row. *)
Lemma get_slice_bound_right data b :
  filter (fun x => (timestamp x =? timestamp b)%Z) (rows data) = [b] ->
  exists p,
    nth_error (rows data) p = Some b /\
    get_slice_bound (index data) (timestamp b) side_right = Ok (p + 1)%nat.
Proof.
  intros Hf.
  assert (Hocc : occurrences (index data) (timestamp b) = 1%nat).
  { unfold occurrences, index.
    rewrite filter_map_swap, length_map, Hf. reflexivity. }
  destruct (filter_singleton_split _ _ _ Hf) as (pre & post & Hrows & Hpre & _).
  exists (length pre). split.
  - rewrite Hrows, nth_error_app2, Nat.sub_diag by lia. reflexivity.
  - unfold get_slice_bound. rewrite Hocc. unfold index. rewrite Hrows.
    rewrite map_app. cbn [map].
    rewrite <- (length_map timestamp pre).
    rewrite first_position_app.
    + rewrite slice_one. cbn [forallb]. now rewrite Z.eqb_refl.
    + apply Forall_forall. intros t Ht.
      apply in_map_iff in Ht as (x & <- & Hx).
      rewrite Forall_forall in Hpre. now apply Hpre.
Qed.

(** The window of the strength of a row that alone carries its label is
    empty or holds the row itself; it is made of cells of the frame. *)
Lemma loc_slice_up_to data c lo b window :
  filter (fun x => (timestamp x =? timestamp b)%Z) (rows data) = [b] ->
  loc_slice data c lo (timestamp b) = Ok window ->
  (window = [] \/ In (cell c b) window) /\
  forall x, In x window -> exists y, In y (rows data) /\ x = cell c y.
Proof.
  intros Hf. unfold loc_slice, getitem.
  destruct (existsb (column_eqb c) (columns data)); [|discriminate].
  cbn [res_bind].
  destruct (get_slice_bound (index data) lo side_left) as [start|];
    [|discriminate].
  cbn [res_bind].
  destruct (get_slice_bound_right data b Hf) as (p & Hp & ->).
  cbn [res_bind]. intros [= <-]. split.
  - destruct (Nat.le_gt_cases start p) as [Hle|Hgt].
    + right. apply (In_slice _ _ _ p); [|lia].
      rewrite nth_error_map, Hp. reflexivity.
    + left. unfold slice.
      now replace (p + 1 - start)%nat with 0%nat by lia.
  - intros x Hx. apply In_slice_inv in Hx.
    apply in_map_iff in Hx as (y & <- & Hy). eauto.
Qed.

(** X4.  On a frame whose bars all have [0 < low <= close <= high], the
    strength computed for a breakout at any of its bars is 0.0, for either
    kind: the window the strength is measured against, when it is not
    empty, ends with the bar itself. *)
Theorem breakout_strength_zero data b ty :
  positive_ohlc data ->
  In b (rows data) ->
  _calculate_breakout_strength data (timestamp b) ty = Fin 0.
Proof.
  intros Hwf Hb. unfold positive_ohlc in Hwf. rewrite Forall_forall in Hwf.
  destruct (Hwf b Hb) as (Hlow & Hlc & Hch).
  rewrite breakout_strength_eq.
  destruct (loc_slice data _ _ (timestamp b)) as [window|] eqn:Hw;
    [|reflexivity].
  destruct (loc_cell data (timestamp b) Close) as [[c|cs]|] eqn:Hc;
    try reflexivity.
  apply loc_cell_scalar in Hc as (_ & b' & Hf & ->).
  assert (b' = b).
  { assert (Hin : In b (filter (fun x => (timestamp x =? timestamp b)%Z)
                          (rows data)))
      by (apply filter_In; split; [exact Hb | apply Z.eqb_refl]).
    rewrite Hf in Hin. destruct Hin as [->|[]]. reflexivity. }
  subst b'. cbn [cell].
  destruct (loc_slice_up_to _ _ _ _ _ Hf Hw) as [[->|Hin] Hcells].
  - now destruct ty.
  - destruct ty; cbn [cell] in Hin.
    + destruct (Qlist_max_cases window) as [E|[m E]];
        [destruct window; [contradiction|discriminate]|].
      pose proof (Qlist_max_ge _ _ _ E Hin) as Hm. rewrite E.
      cbn [Float.sub Float.neg Float.add].
      apply max0_of_nonpos_quotient; lra.
    + destruct (Qlist_min_cases window) as [E|[m E]];
        [destruct window; [contradiction|discriminate]|].
      pose proof (Qlist_min_le _ _ _ E Hin) as Hm.
      assert (Hpos : 0 < m).
      { apply (Qlist_min_pos _ _ E), Forall_forall. intros x Hx.
        destruct (Hcells x Hx) as (y & Hy & ->). apply (Hwf y Hy). }
      rewrite E. cbn [Float.sub Float.neg Float.add].
      apply max0_of_nonpos_quotient; lra.
Qed.

Lemma bars_of_closes_positive closes cols :
  Forall (fun c => 1 < c) closes ->
  positive_ohlc {| rows := bars_of_closes closes; columns := cols |}.
Proof.
  intros Hc. unfold positive_ohlc, bars_of_closes, hourly_from. cbn [rows].
  rewrite Forall_forall in *. intros b Hb.
  apply in_map_iff in Hb as ([i [[[[o h] l] c] v]] & <- & Hin).
  apply in_combine_r in Hin.
  apply in_map_iff in Hin as (c0 & [= <- <- <- <- <-] & Hc0).
  specialize (Hc c0 Hc0). cbn [low close high]. repeat split; lra.
Qed.

Lemma breakout_strength_zero_witness :
  _calculate_breakout_strength divergence_data
    (timestamp (mkBar 75600 14 15 13 14 100)) resistance = Fin 0.
Proof.
  apply (breakout_strength_zero divergence_data
           (mkBar 75600 14 15 13 14 100)).
  - apply bars_of_closes_positive. repeat constructor.
  - vm_compute. do 21 right. left. reflexivity.
Defined.

(** ** Where the events come from *)

Lemma iloc_map {A B} (f : A -> B) xs i y :
  iloc (map f xs) i = Ok y -> exists x, nth_error xs i = Some x /\ y = f x.
Proof.
  unfold iloc. rewrite nth_error_map.
  destruct (nth_error xs i); simpl; [intros [= <-]; eauto | discriminate].
Qed.

Lemma getitem_col data c xs : getitem data c = Ok xs -> xs = col c data.
Proof.
  unfold getitem, col.
  destruct (existsb (column_eqb c) (columns data)); [congruence|discriminate].
Qed.

Lemma divergence_step_bar ty min_strength data rsi rsi_extrema pair :
  preserves
    (fun e => bar_of data (dv_timestamp e) (Some (dv_price e)) None)
    (divergence_step ty min_strength data (col Close data) rsi rsi_extrema
       pair).
Proof.
  destruct pair as [prev cur]. unfold divergence_step.
  apply preserves_lift_bind. intros c_cur _.
  apply preserves_lift_bind. intros c_prev _.
  destruct (2 <=? length (in_range prev cur rsi_extrema))%nat;
    [|apply preserves_ret].
  apply preserves_lift_bind. intros r_last _.
  apply preserves_lift_bind. intros r_first _.
  match goal with
  | |- preserves _ (if ?c then _ else _) => destruct c
  end; [|apply preserves_ret].
  match goal with
  | |- preserves _ (if ?c then _ else _) => destruct c
  end; [|apply preserves_ret].
  apply preserves_lift_bind. intros ts Hts.
  apply preserves_lift_bind. intros price Hprice.
  apply preserves_lift_bind. intros r _.
  apply preserves_append. cbn [dv_timestamp dv_price].
  apply iloc_map in Hts as (b & Hb & ->).
  apply iloc_map in Hprice as (b' & Hb' & ->).
  assert (b' = b) by congruence. subst b'.
  exists b. split; [exact (nth_error_In _ _ Hb)|].
  split; [reflexivity|]. split; [now intros p [= <-] | discriminate].
Qed.

Lemma detect_divergences_bars find_peaks cfg data :
  Forall (fun e => bar_of data (dv_timestamp e) (Some (dv_price e)) None)
    (_detect_divergences find_peaks cfg data).
Proof.
  apply try_except_preserves. unfold detect_divergences_body.
  apply preserves_lift_bind. intros close_col Hclose.
  apply getitem_col in Hclose. subst close_col.
  destruct (_calculate_rsi (col Close data) (rsi_periods cfg)) as [rsi|];
    [|apply preserves_ret].
  destruct (length rsi <? 20)%nat; [apply preserves_ret|].
  apply preserves_bind.
  - apply preserves_for_each. intros pair _. apply divergence_step_bar.
  - intros _ _ _. apply preserves_for_each. intros pair _.
    apply divergence_step_bar.
Qed.

Lemma In_select_In {A} (xs : list A) mask x :
  In x (select xs mask) -> In x xs.
Proof.
  intros H. apply In_select in H as (i & H & _). exact (nth_error_In _ _ H).
Qed.

(** X5.  Every breakout, divergence, trend change and volume anomaly of a
    result carries the timestamp of a bar of the input, and the price (or
    the volume) it reports is the close (or the volume) of that bar. *)
Theorem events_report_bars_of_the_input find_peaks fsqrt now cfg data sym r :
  analyze find_peaks fsqrt now cfg data sym = Ok r ->
  Forall (fun e => bar_of data (bo_timestamp e) (Some (bo_price e))
                     (Some (bo_volume e))) (breakouts r) /\
  Forall (fun e => bar_of data (dv_timestamp e) (Some (dv_price e)) None)
    (divergences r) /\
  Forall (fun e => bar_of data (tc_timestamp e) (Some (tc_price e)) None)
    (trend_changes r) /\
  Forall (fun e => bar_of data (va_timestamp e) None (Some (va_volume e)))
    (volume_anomalies r).
Proof.
  rewrite analyze_eq. intros [= <-].
  cbn [breakouts divergences trend_changes volume_anomalies].
  split; [|split; [|split]].
  - destruct (breakout_enabled cfg); [|constructor].
    rewrite detect_breakouts_eq.
    destruct (has_column data High && has_column data Low
              && has_column data Close && has_column data Open
              && has_column data Volume); [|constructor].
    apply Forall_forall. intros e He.
    apply in_app_or in He as [He|He];
      apply in_map_iff in He as (b & <- & Hb); apply In_select_In in Hb;
      exists b; (split; [exact Hb|]); (split; [reflexivity|]);
      cbn [breakout_event bo_price bo_volume];
      split; intros x [= <-]; reflexivity.
  - destruct (divergence_enabled cfg); [|constructor].
    apply detect_divergences_bars.
  - rewrite detect_trend_changes_eq.
    destruct (has_column data Close); [|constructor]. cbv zeta.
    apply Forall_forall. intros e He.
    apply in_app_or in He as [He|He];
      apply in_map_iff in He as ([b p] & <- & Hb); apply In_select_In in Hb;
      apply in_combine_l in Hb;
      exists b; (split; [exact Hb|]); (split; [reflexivity|]);
      cbn [trend_event tc_price fst];
      (split; [now intros x [= <-] | discriminate]).
  - rewrite detect_volume_anomalies_eq.
    destruct (has_column data Volume); [|constructor]. cbv zeta.
    apply Forall_forall. intros e He.
    apply in_map_iff in He as ([b [a s]] & <- & Hb). apply In_select_In in Hb.
    apply in_combine_l in Hb.
    exists b. split; [exact Hb|]. split; [reflexivity|].
    cbn [anomaly_event va_volume]. split; [discriminate | now intros x [= <-]].
Qed.

Lemma events_report_bars_of_the_input_witness :
  exists r,
    analyze strict_peaks newton_sqrt 0 default_config divergence_data "X"
    = Ok r /\
    divergences r <> [] /\
    Forall (fun e => bar_of divergence_data (bo_timestamp e)
                       (Some (bo_price e)) (Some (bo_volume e)))
      (breakouts r) /\
    Forall (fun e => bar_of divergence_data (dv_timestamp e)
                       (Some (dv_price e)) None) (divergences r) /\
    Forall (fun e => bar_of divergence_data (tc_timestamp e)
                       (Some (tc_price e)) None) (trend_changes r) /\
    Forall (fun e => bar_of divergence_data (va_timestamp e) None
                       (Some (va_volume e))) (volume_anomalies r).
Proof.
  eexists. split; [apply analyze_eq|].
  split; [vm_compute; discriminate|].
  apply (events_report_bars_of_the_input strict_peaks newton_sqrt 0
           default_config divergence_data "X").
  apply analyze_eq.
Defined.

(** ** Series too short for a window *)

Lemma Float_le_defined a b : Float.le a b = true -> a <> NaN /\ b <> NaN.
Proof. destruct a, b; simpl; intros H; split; congruence. Qed.

Lemma Float_eq_defined a b : Float.eq a b = true -> a <> NaN /\ b <> NaN.
Proof. destruct a, b; simpl; intros H; split; congruence. Qed.

Lemma Float_gt_defined a b : Float.gt a b = true -> a <> NaN /\ b <> NaN.
Proof. destruct a, b; simpl; intros H; split; congruence. Qed.

Lemma Float_add_defined a b : Float.add a b <> NaN -> a <> NaN /\ b <> NaN.
Proof. destruct a, b; simpl; intros H; split; congruence. Qed.

Lemma rsi_length data period rsi :
  _calculate_rsi data period = Some rsi -> length rsi = length data.
Proof.
  unfold _calculate_rsi, rsi_gain, rsi_loss. intros [= <-].
  rewrite zip_with_length, !rolling_length, !length_map.
  destruct data as [|x data]; [reflexivity|].
  cbn [diff length]. rewrite zip_with_length. cbn [tl length]. lia.
Qed.

Lemma trend_mask_position (sma_20_shifted : list fval) (sma_50 : list Q)
      (cmp : fval -> fval -> bool) i (m : list bool) :
  nth_error (zip_with andb m
               (zip_with cmp sma_20_shifted
                  (shift1 (rolling Qlist_mean 50 false sma_50)))) i
  = Some true ->
  (forall a b, cmp a b = true -> b <> NaN) ->
  (50 <= i)%nat.
Proof.
  intros H Hcmp.
  apply nth_error_zip_with in H as (x & y & _ & Hy & Hand).
  symmetry in Hand. apply andb_true_iff in Hand as [_ ->].
  apply nth_error_zip_with in Hy as (a & b & _ & Hb & Hle).
  symmetry in Hle. apply Hcmp in Hle.
  apply shifted_rolling in Hb as (j & -> & Hroll); [|exact Hle].
  rewrite Hroll in Hle.
  apply rolling_at_defined in Hle as [(H1 & H2 & H3) _].
  cbn [window_offset] in *. lia.
Qed.

(** X6.  A series too short for a detector's windows gives that detector no
    event: fewer bars than the lookback window and its centering need for
    breakouts, fewer than 20 for divergences and volume anomalies, fewer
    than 5 for support and resistance levels, fewer than 51 for trend
    changes. *)
Theorem short_series_give_no_events find_peaks fsqrt cfg data :
  ((length (rows data) < lookback_periods cfg
    \/ length (rows data) + 1
       < lookback_periods cfg + window_offset (lookback_periods cfg) true)%nat
   -> _detect_breakouts cfg data = []) /\
  ((length (rows data) < 20)%nat ->
   _detect_divergences find_peaks cfg data = []) /\
  ((length (rows data) < 5)%nat ->
   _detect_support_resistance cfg data = []) /\
  ((length (rows data) < 51)%nat -> _detect_trend_changes data = []) /\
  ((length (rows data) < 20)%nat ->
   _detect_volume_anomalies fsqrt data = []).
Proof.
  split; [|split; [|split; [|split]]].
  - intros Hn. rewrite detect_breakouts_eq.
    destruct (has_column data High && has_column data Low
              && has_column data Close && has_column data Open
              && has_column data Volume); [|reflexivity].
    rewrite !select_none; [reflexivity| |].
    + intros i b Hb Hflag.
      apply support_flag_full in Hflag as (_ & _ & (H1 & H2 & H3) & _ & _ & H4 & _).
      assert (i < length (rows data))%nat by (apply nth_error_Some; congruence).
      lia.
    + intros i b Hb Hflag.
      apply resistance_flag_true in Hflag
        as (_ & _ & (H1 & H2 & H3) & _ & _ & H4 & _).
      assert (i < length (rows data))%nat by (apply nth_error_Some; congruence).
      lia.
  - intros Hn. unfold _detect_divergences, try_except, detect_divergences_body,
      bind, lift.
    destruct (getitem data Close) as [close_col|] eqn:Hc; [|reflexivity].
    apply getitem_col in Hc. subst close_col.
    destruct (_calculate_rsi (col Close data) (rsi_periods cfg)) as [rsi|] eqn:E;
      [|reflexivity].
    apply rsi_length in E. unfold col in E. rewrite length_map in E.
    destruct (Nat.ltb_spec (length rsi) 20); [reflexivity|lia].
  - intros Hn. unfold _detect_support_resistance, try_except,
      detect_support_resistance_body, bind, lift.
    destruct (getitem data High) as [high_col|] eqn:Hh; [|reflexivity].
    destruct (getitem data Low) as [low_col|] eqn:Hl; [|reflexivity].
    apply getitem_col in Hh, Hl. subst high_col low_col.
    assert (Hnone : forall c agg,
               candidates data (col c data) (rolling agg 5 true (col c data))
               = []).
    { intros c agg. unfold candidates. apply select_none.
      intros i x _ Hmask.
      apply nth_error_zip_with in Hmask as (a & r & _ & Hr & Heq).
      symmetry in Heq. apply Float_eq_defined in Heq as [_ Hdef].
      apply nth_error_rolling_inv in Hr as [_ ->].
      apply rolling_at_defined in Hdef as [(H1 & H2 & H3) _].
      unfold col in H3. rewrite length_map in H3. lia. }
    rewrite !Hnone. reflexivity.
  - intros Hn. rewrite detect_trend_changes_eq.
    destruct (has_column data Close); [|reflexivity]. cbv zeta.
    rewrite !select_none; [reflexivity| |].
    + intros i x Hx Hmask. unfold sma_crossunders in Hmask.
      apply trend_mask_position in Hmask.
      * apply nth_error_combine_fst in Hx.
        assert (i < length (rows data))%nat
          by (apply nth_error_Some; congruence).
        lia.
      * intros a b H. unfold Float.ge in H.
        now apply Float_le_defined in H as [H _].
    + intros i x Hx Hmask. unfold sma_crossovers in Hmask.
      apply trend_mask_position in Hmask.
      * apply nth_error_combine_fst in Hx.
        assert (i < length (rows data))%nat
          by (apply nth_error_Some; congruence).
        lia.
      * intros a b H. now apply Float_le_defined in H as [_ H].
  - intros Hn. rewrite detect_volume_anomalies_eq.
    destruct (has_column data Volume); [|reflexivity]. cbv zeta.
    rewrite select_none; [reflexivity|].
    intros i [b p] Hx Hmask.
    pose proof (nth_error_combine_fst _ _ _ _ Hx) as Hb. cbn [fst] in Hb.
    rewrite (nth_error_anomaly_mask fsqrt data i b Hb) in Hmask.
    injection Hmask as Hgt.
    apply Float_gt_defined in Hgt as [_ Hdef].
    apply Float_add_defined in Hdef as [Hdef _].
    apply rolling_at_defined in Hdef as [(H1 & H2 & H3) _].
    unfold col in H3. rewrite length_map in H3. cbn [window_offset] in *. lia.
Qed.

Lemma short_series_give_no_events_witness :
  let data := {| rows := hourly_from 0 (repeat (5, 10, 1, 5, 100) 3);
                 columns := ohlcv |} in
  _detect_breakouts default_config data = [] /\
  _detect_divergences strict_peaks default_config data = [] /\
  _detect_support_resistance default_config data = [] /\
  _detect_trend_changes data = [] /\
  _detect_volume_anomalies newton_sqrt data = [].
Proof.
  intros data.
  destruct (short_series_give_no_events strict_peaks newton_sqrt
              default_config data) as (H1 & H2 & H3 & H4 & H5).
  split; [apply H1; left; vm_compute; lia|].
  split; [apply H2; vm_compute; lia|].
  split; [apply H3; vm_compute; lia|].
  split; [apply H4; vm_compute; lia|].
  apply H5; vm_compute; lia.
Defined.

(** ** More on the RSI *)

Lemma rolling_at_early agg w xs i :
  (i + 1 < w)%nat -> rolling_at agg w false xs i = NaN.
Proof.
  intros H. unfold rolling_at, window_bounds. cbn [window_offset].
  rewrite Nat.add_0_r.
  destruct (w =? 0)%nat; [reflexivity|].
  destruct (Nat.ltb_spec (Nat.min (i + 1) (length xs)
                          - Nat.min (i + 1 - w) (length xs)) w);
    [reflexivity|lia].
Qed.

Lemma rsi_of_nan_gain l : rsi_of NaN l = NaN.
Proof. reflexivity. Qed.

Lemma nth_error_rsi data period rsi i v :
  _calculate_rsi data period = Some rsi ->
  nth_error rsi i = Some v ->
  (i < length data)%nat /\
  exists g l,
    nth_error (rsi_gain data period) i = Some g /\
    nth_error (rsi_loss data period) i = Some l /\
    v = rsi_of g l.
Proof.
  intros Hrsi Hv. split.
  - rewrite <- (rsi_length _ _ _ Hrsi). apply nth_error_Some. congruence.
  - unfold _calculate_rsi in Hrsi. injection Hrsi as <-.
    apply nth_error_zip_with in Hv as (g & l & Hg & Hl & ->). eauto.
Qed.

(** X7.  The RSI series has the length of its input and is undefined at
    the first [period - 1] positions. *)
Theorem rsi_undefined_before_period data period rsi :
  _calculate_rsi data period = Some rsi ->
  length rsi = length data /\
  forall i v, (i + 1 < period)%nat -> nth_error rsi i = Some v -> v = NaN.
Proof.
  intros Hrsi. split; [now apply rsi_length in Hrsi|].
  intros i v Hi Hv.
  destruct (nth_error_rsi _ _ _ _ _ Hrsi Hv) as (_ & g & l & Hg & _ & ->).
  unfold rsi_gain in Hg. apply nth_error_rolling_inv in Hg as [_ ->].
  now rewrite rolling_at_early.
Qed.

Lemma rsi_undefined_before_period_witness :
  exists rsi,
    _calculate_rsi [10; 11; 12; 11; 13] 3 = Some rsi /\
    length rsi = 5%nat /\
    forall i v, (i + 1 < 3)%nat -> nth_error rsi i = Some v -> v = NaN.
Proof.
  eexists. split; [reflexivity|].
  apply (rsi_undefined_before_period [10; 11; 12; 11; 13] 3 _ eq_refl).
Defined.

Lemma nth_error_diff data k a b :
  nth_error data k = Some a -> nth_error data (S k) = Some b ->
  nth_error (diff data) (S k) = Some (Fin (b - a)).
Proof.
  destruct data as [|x data]; [destruct k; discriminate|].
  cbn [diff tl nth_error]. intros Ha Hb.
  apply nth_error_zip_with. exists b, a. repeat split; assumption.
Qed.

Lemma nth_error_diff_inv data p d :
  nth_error (diff data) p = Some d ->
  (p = 0%nat /\ d = NaN) \/
  exists k a b, p = S k /\ nth_error data k = Some a
                /\ nth_error data (S k) = Some b /\ d = Fin (b - a).
Proof.
  destruct data as [|x data]; [destruct p; discriminate|].
  cbn [diff tl]. destruct p as [|k]; cbn [nth_error].
  - intros [= <-]. now left.
  - intros H. right.
    apply nth_error_zip_with in H as (b & a & Hb & Ha & ->).
    exists k, a, b. repeat split; assumption.
Qed.

Lemma In_slice_nth {A} (xs : list A) start stop x :
  In x (slice xs start stop) ->
  exists p, (start <= p < stop)%nat /\ nth_error xs p = Some x.
Proof.
  unfold slice. intros H. apply In_nth_error in H as [q Hq].
  assert (Hlt : (q < stop - start)%nat).
  { destruct (Nat.lt_ge_cases q (stop - start)) as [|Hge]; [assumption|].
    rewrite nth_error_firstn in Hq.
    destruct (Nat.ltb_spec q (stop - start)); [lia|discriminate]. }
  rewrite nth_error_firstn in Hq.
  destruct (Nat.ltb_spec q (stop - start)); [|lia].
  rewrite nth_error_skipn in Hq. exists (start + q)%nat. split; [lia|exact Hq].
Qed.

Lemma Qsum_pos xs x :
  Forall (fun y => 0 <= y) xs -> In x xs -> 0 < x -> 0 < Qsum xs.
Proof.
  induction 1 as [|y xs Hy Hxs IH]; [contradiction|].
  simpl. intros [->|Hin] Hx.
  - pose proof (Qsum_nonneg xs Hxs). lra.
  - specialize (IH Hin Hx). lra.
Qed.

Lemma Qsum_all_zero xs : Forall (fun y => y == 0) xs -> Qsum xs == 0.
Proof.
  induction 1 as [|y xs Hy _ IH]; simpl; [reflexivity|]. lra.
Qed.

Lemma Qlen_pos xs : xs <> [] -> 0 < Qlen xs.
Proof.
  destruct xs as [|x xs]; [congruence|]. intros _. unfold Qlen.
  change 0 with (inject_Z 0). rewrite <- Zlt_Qlt. simpl length. lia.
Qed.

Lemma Qmean_pos xs x :
  Forall (fun y => 0 <= y) xs -> In x xs -> 0 < x -> 0 < Qmean xs.
Proof.
  intros Hxs Hin Hx. unfold Qmean.
  apply Qlt_shift_div_l.
  - apply Qlen_pos. intros ->. contradiction.
  - pose proof (Qsum_pos xs x Hxs Hin Hx). lra.
Qed.

Lemma Qmean_all_zero xs : Forall (fun y => y == 0) xs -> Qmean xs == 0.
Proof.
  intros H. unfold Qmean. rewrite (Qsum_all_zero xs H).
  unfold Qdiv. ring.
Qed.

(** The rolling mean over a full trailing window. *)
Lemma rolling_mean_full w xs i :
  (1 <= w <= i + 1)%nat -> (i < length xs)%nat ->
  rolling_at Qlist_mean w false xs i
  = Fin (Qmean (slice xs (i + 1 - w) (i + 1))) /\
  slice xs (i + 1 - w) (i + 1) <> [].
Proof.
  intros Hw Hi.
  rewrite rolling_at_full by (cbn [window_offset]; lia).
  cbn [window_offset]. rewrite Nat.add_0_r.
  assert (Hlen : length (slice xs (i + 1 - w) (i + 1)) = w)
    by (rewrite slice_length; lia).
  destruct (slice xs (i + 1 - w) (i + 1)) eqn:E.
  - simpl in Hlen. lia.
  - split; [reflexivity|discriminate].
Qed.

(** The mean gain and the mean loss at a position with a full window, from
    a bound on the raw gains and losses of the differences. *)
Lemma rsi_gain_window data period i (P : Q -> Prop) :
  (1 <= period <= i + 1)%nat -> (i < length data)%nat ->
  (forall p d, nth_error (diff data) p = Some d ->
               P (if Float.gt d (Fin 0)
                  then match d with Fin q => q | _ => 0 end else 0)) ->
  exists w,
    nth_error (rsi_gain data period) i = Some (Fin (Qmean w)) /\
    w <> [] /\ Forall P w /\
    forall d, nth_error (diff data) i = Some d ->
              In (if Float.gt d (Fin 0)
                  then match d with Fin q => q | _ => 0 end else 0) w.
Proof.
  intros Hw Hi HP. unfold rsi_gain.
  set (G := map _ (diff data)).
  assert (HG : length G = length data).
  { unfold G. rewrite length_map. destruct data as [|x data]; [reflexivity|].
    cbn [diff length]. rewrite zip_with_length. cbn [tl length]. lia. }
  destruct (rolling_mean_full period G i Hw ltac:(lia)) as [Hroll Hne].
  exists (slice G (i + 1 - period) (i + 1)).
  split; [rewrite nth_error_rolling by lia; now rewrite Hroll|].
  split; [exact Hne|]. split.
  - apply Forall_forall. intros x Hx. apply In_slice_inv in Hx.
    unfold G in Hx. apply in_map_iff in Hx as (d & <- & Hd).
    apply In_nth_error in Hd as [p Hp]. exact (HP p d Hp).
  - intros d Hd. apply (In_slice _ _ _ i); [|lia].
    unfold G. now rewrite nth_error_map, Hd.
Qed.

Lemma rsi_loss_window data period i (P : Q -> Prop) :
  (1 <= period <= i + 1)%nat -> (i < length data)%nat ->
  (forall p d, nth_error (diff data) p = Some d ->
               P (- (if Float.lt d (Fin 0)
                     then match d with Fin q => q | _ => 0 end else 0))) ->
  exists w,
    nth_error (rsi_loss data period) i = Some (Fin (Qmean w)) /\
    w <> [] /\ Forall P w /\
    forall d, nth_error (diff data) i = Some d ->
              In (- (if Float.lt d (Fin 0)
                     then match d with Fin q => q | _ => 0 end else 0)) w.
Proof.
  intros Hw Hi HP. unfold rsi_loss.
  set (L := map _ (diff data)).
  assert (HL : length L = length data).
  { unfold L. rewrite length_map. destruct data as [|x data]; [reflexivity|].
    cbn [diff length]. rewrite zip_with_length. cbn [tl length]. lia. }
  destruct (rolling_mean_full period L i Hw ltac:(lia)) as [Hroll Hne].
  exists (slice L (i + 1 - period) (i + 1)).
  split; [rewrite nth_error_rolling by lia; now rewrite Hroll|].
  split; [exact Hne|]. split.
  - apply Forall_forall. intros x Hx. apply In_slice_inv in Hx.
    unfold L in Hx. apply in_map_iff in Hx as (d & <- & Hd).
    apply In_nth_error in Hd as [p Hp]. exact (HP p d Hp).
  - intros d Hd. apply (In_slice _ _ _ i); [|lia].
    unfold L. now rewrite nth_error_map, Hd.
Qed.

Lemma rsi_of_zero_zero g l : g == 0 -> l == 0 -> rsi_of (Fin g) (Fin l) = NaN.
Proof.
  intros Hg Hl. unfold rsi_of. cbn [Float.div].
  apply Qeq_bool_iff in Hl. rewrite Hl. unfold Float.signed_inf.
  destruct (Qlt_bool 0 g) eqn:E1; [apply Qlt_bool_iff in E1; lra|].
  destruct (Qlt_bool g 0) eqn:E2; [apply Qlt_bool_iff in E2; lra|].
  reflexivity.
Qed.

Lemma rsi_of_no_gain g l :
  g == 0 -> 0 < l -> exists q, rsi_of (Fin g) (Fin l) = Fin q /\ q == 0.
Proof.
  intros Hg Hl. unfold rsi_of. cbn [Float.div].
  destruct (Qeq_bool l 0) eqn:E; [apply Qeq_bool_eq in E; lra|].
  assert (Hrs : g / l == 0) by (rewrite Hg; unfold Qdiv; ring).
  cbn [Float.add Float.div].
  destruct (Qeq_bool (1 + g / l) 0) eqn:E1; [apply Qeq_bool_eq in E1; lra|].
  cbn [Float.sub Float.neg Float.add].
  eexists. split; [reflexivity|]. rewrite Hrs. reflexivity.
Qed.

(** X8.  On a flat series the RSI is undefined at every position: with no
    gain and no loss the ratio is 0/0. *)
Theorem rsi_of_flat_series_is_undefined data period rsi :
  flat data ->
  _calculate_rsi data period = Some rsi ->
  Forall (fun v => v = NaN) rsi.
Proof.
  intros Hflat Hrsi. apply Forall_forall. intros v Hv.
  apply In_nth_error in Hv as [i Hv].
  destruct (nth_error_rsi _ _ _ _ _ Hrsi Hv) as (Hi & g & l & Hg & Hl & ->).
  destruct (Nat.lt_ge_cases (i + 1) period) as [Hearly|Hfull].
  { unfold rsi_gain in Hg. apply nth_error_rolling_inv in Hg as [_ ->].
    now rewrite rolling_at_early. }
  destruct (Nat.eq_dec period 0) as [->|Hp].
  { unfold rsi_gain in Hg. apply nth_error_rolling_inv in Hg as [_ ->].
    reflexivity. }
  assert (Hd : forall p d, nth_error (diff data) p = Some d ->
                           d = NaN \/ exists q, d = Fin q /\ q == 0).
  { intros p d Hpd.
    apply nth_error_diff_inv in Hpd
      as [[_ ->]|(k & a & b & _ & Ha & Hb & ->)]; [now left|right].
    eexists. split; [reflexivity|]. specialize (Hflat k a b Ha Hb). lra. }
  destruct (rsi_gain_window data period i (fun x => x == 0)
              ltac:(lia) Hi) as (gw & Hgw & _ & Hgz & _).
  { intros p d Hpd. destruct (Hd p d Hpd) as [->|(q & -> & Hq)];
      [reflexivity|].
    cbn. destruct (Qlt_bool 0 q) eqn:E; [|reflexivity].
    apply Qlt_bool_iff in E. lra. }
  destruct (rsi_loss_window data period i (fun x => x == 0)
              ltac:(lia) Hi) as (lw & Hlw & _ & Hlz & _).
  { intros p d Hpd. destruct (Hd p d Hpd) as [->|(q & -> & Hq)];
      [reflexivity|].
    cbn. destruct (Qlt_bool q 0) eqn:E; [|reflexivity].
    apply Qlt_bool_iff in E. lra. }
  rewrite Hgw in Hg. rewrite Hlw in Hl.
  injection Hg as <-. injection Hl as <-.
  apply rsi_of_zero_zero; now apply Qmean_all_zero.
Qed.

Lemma flat_repeat c n : flat (repeat c n).
Proof.
  intros k a b Ha Hb.
  apply nth_error_In, repeat_spec in Ha.
  apply nth_error_In, repeat_spec in Hb. subst. reflexivity.
Qed.

Lemma rsi_of_flat_series_is_undefined_witness :
  exists rsi,
    _calculate_rsi (repeat 10 30) 14 = Some rsi /\
    length rsi = 30%nat /\ Forall (fun v => v = NaN) rsi.
Proof.
  eexists. split; [reflexivity|]. split; [vm_compute; reflexivity|].
  apply (rsi_of_flat_series_is_undefined (repeat 10 30) 14 _
           (flat_repeat 10 30) eq_refl).
Defined.

(** X9.  On a series that rises at every step the RSI is 100 at every
    position with a full window (from position 1 on); on a series that falls
    at every step it is 0 there. *)
Theorem rsi_of_monotone_series data period rsi i v :
  _calculate_rsi data period = Some rsi ->
  (1 <= period <= i + 1)%nat -> (1 <= i)%nat ->
  nth_error rsi i = Some v ->
  (rising data -> exists q, v = Fin q /\ q == 100) /\
  (falling data -> exists q, v = Fin q /\ q == 0).
Proof.
  intros Hrsi Hw Hi1 Hv.
  destruct (nth_error_rsi _ _ _ _ _ Hrsi Hv) as (Hi & g & l & Hg & Hl & ->).
  destruct i as [|k]; [lia|].
  assert (Hk : exists a b, nth_error data k = Some a
                           /\ nth_error data (S k) = Some b).
  { destruct (nth_error data k) as [a|] eqn:Ea;
      [|apply nth_error_None in Ea; lia].
    destruct (nth_error data (S k)) as [b|] eqn:Eb;
      [eauto|apply nth_error_None in Eb; lia]. }
  destruct Hk as (a & b & Ha & Hb).
  pose proof (nth_error_diff data k a b Ha Hb) as Hdk.
  split; intros Hshape.
  - assert (Hd : forall p d, nth_error (diff data) p = Some d ->
                             d = NaN \/ exists q, d = Fin q /\ 0 < q).
    { intros p d Hpd.
      apply nth_error_diff_inv in Hpd
        as [[_ ->]|(k' & a' & b' & _ & Ha' & Hb' & ->)]; [now left|right].
      eexists. split; [reflexivity|]. specialize (Hshape k' a' b' Ha' Hb').
      lra. }
    destruct (rsi_gain_window data period (S k) (fun x => 0 <= x) Hw Hi)
      as (gw & Hgw & _ & Hgn & Hgin).
    { intros p d _. pose proof (gains_nonneg [d]) as H.
      now apply Forall_inv in H. }
    destruct (rsi_loss_window data period (S k) (fun x => x == 0) Hw Hi)
      as (lw & Hlw & _ & Hlz & _).
    { intros p d Hpd. destruct (Hd p d Hpd) as [->|(q & -> & Hq)];
        [reflexivity|].
      cbn. destruct (Qlt_bool q 0) eqn:E; [|reflexivity].
      apply Qlt_bool_iff in E. lra. }
    rewrite Hgw in Hg. rewrite Hlw in Hl.
    injection Hg as <-. injection Hl as <-.
    apply rsi_of_no_loss; [|now apply Qmean_all_zero].
    specialize (Hgin _ Hdk). specialize (Hshape k a b Ha Hb).
    apply (Qmean_pos gw _ Hgn Hgin).
    cbn. destruct (Qlt_bool 0 (b - a)) eqn:E; [lra|].
    assert (H : Qlt_bool 0 (b - a) = true) by (apply Qlt_bool_iff; lra).
    congruence.
  - assert (Hd : forall p d, nth_error (diff data) p = Some d ->
                             d = NaN \/ exists q, d = Fin q /\ q < 0).
    { intros p d Hpd.
      apply nth_error_diff_inv in Hpd
        as [[_ ->]|(k' & a' & b' & _ & Ha' & Hb' & ->)]; [now left|right].
      eexists. split; [reflexivity|]. specialize (Hshape k' a' b' Ha' Hb').
      lra. }
    destruct (rsi_gain_window data period (S k) (fun x => x == 0) Hw Hi)
      as (gw & Hgw & _ & Hgz & _).
    { intros p d Hpd. destruct (Hd p d Hpd) as [->|(q & -> & Hq)];
        [reflexivity|].
      cbn. destruct (Qlt_bool 0 q) eqn:E; [|reflexivity].
      apply Qlt_bool_iff in E. lra. }
    destruct (rsi_loss_window data period (S k) (fun x => 0 <= x) Hw Hi)
      as (lw & Hlw & _ & Hln & Hlin).
    { intros p d _. pose proof (losses_nonneg [d]) as H.
      now apply Forall_inv in H. }
    rewrite Hgw in Hg. rewrite Hlw in Hl.
    injection Hg as <-. injection Hl as <-.
    apply rsi_of_no_gain; [now apply Qmean_all_zero|].
    specialize (Hlin _ Hdk). specialize (Hshape k a b Ha Hb).
    apply (Qmean_pos lw _ Hln Hlin).
    cbn. destruct (Qlt_bool (b - a) 0) eqn:E; [lra|].
    assert (H : Qlt_bool (b - a) 0 = true) by (apply Qlt_bool_iff; lra).
    congruence.
Qed.

Lemma sorted_rising data : StronglySorted Qlt data -> rising data.
Proof.
  induction 1 as [|x xs Hs IH Hall]; intros k a b Ha Hb.
  - destruct k; discriminate.
  - destruct k as [|k].
    + injection Ha as <-. rewrite Forall_forall in Hall.
      apply Hall. exact (nth_error_In xs 0 Hb).
    + exact (IH k a b Ha Hb).
Qed.

Lemma rsi_of_monotone_series_witness :
  exists rsi v q,
    _calculate_rsi [1; 2; 4; 7; 11] 3 = Some rsi /\
    nth_error rsi 3 = Some v /\ v = Fin q /\ q == 100.
Proof.
  assert (Hr : rising [1; 2; 4; 7; 11])
    by (apply sorted_rising; repeat constructor).
  destruct (proj1 (rsi_of_monotone_series [1; 2; 4; 7; 11] 3 _ 3 _ eq_refl
                     ltac:(lia) ltac:(lia) eq_refl) Hr) as (q & Hq & H100).
  eexists. eexists. exists q. split; [reflexivity|]. split; [reflexivity|].
  split; assumption.
Defined.

(** ** Exponential means and the MACD *)

Lemma ewm_from_length alpha xs num den :
  length (ewm_from alpha xs num den) = length xs.
Proof.
  revert num den. induction xs as [|x xs IH]; intros num den; simpl;
    [reflexivity|]. now rewrite IH.
Qed.

(** The running numerator and denominator of the weighted mean: the
    denominator is positive after the first observation and the ratio stays
    between the bounds of the observations. *)
Lemma ewm_from_bounds alpha lo hi xs num den :
  0 < alpha <= 1 ->
  0 <= den -> lo * den <= num <= hi * den ->
  Forall (fun x => lo <= x <= hi) xs ->
  Forall (fun y => lo <= y <= hi) (ewm_from alpha xs num den).
Proof.
  intros Ha. revert num den.
  induction xs as [|x xs IH]; intros num den Hden Hnum Hxs; simpl;
    [constructor|].
  apply Forall_cons_iff in Hxs as [Hx Hxs].
  set (num' := x + (1 - alpha) * num).
  set (den' := 1 + (1 - alpha) * den).
  assert (Hr : 0 <= 1 - alpha) by lra.
  assert (Hrd : 0 <= (1 - alpha) * den) by (apply Qmult_le_0_compat; lra).
  assert (Hden' : 0 < den') by (unfold den'; lra).
  assert (Hlo : lo * den' <= num').
  { unfold num', den'.
    assert ((lo * den) * (1 - alpha) <= num * (1 - alpha))
      by (apply Qmult_le_compat_r; lra).
    setoid_replace (lo * (1 + (1 - alpha) * den))
      with (lo + (lo * den) * (1 - alpha)) by ring.
    lra. }
  assert (Hhi : num' <= hi * den').
  { unfold num', den'.
    assert (num * (1 - alpha) <= (hi * den) * (1 - alpha))
      by (apply Qmult_le_compat_r; lra).
    setoid_replace (hi * (1 + (1 - alpha) * den))
      with (hi + (hi * den) * (1 - alpha)) by ring.
    lra. }
  constructor.
  - split; [apply Qle_shift_div_l | apply Qle_shift_div_r]; assumption.
  - apply IH; [lra | split; assumption | exact Hxs].
Qed.

Lemma span_alpha span :
  (1 <= span)%Z -> 0 < 2 / (inject_Z span + 1) <= 1.
Proof.
  intros H.
  assert (H1 : inject_Z 1 <= inject_Z span) by (now rewrite <- Zle_Qle).
  change (inject_Z 1) with 1 in H1.
  split.
  - apply Qlt_shift_div_l; lra.
  - apply Qle_shift_div_r; lra.
Qed.

Lemma ewm_mean_bounds span lo hi xs :
  (1 <= span)%Z ->
  Forall (fun x => lo <= x <= hi) xs ->
  Forall (fun y => lo <= y <= hi) (ewm_mean span xs).
Proof.
  intros Hspan Hxs. unfold ewm_mean.
  apply ewm_from_bounds; [now apply span_alpha | lra | lra | exact Hxs].
Qed.

(** X10.  An exponential moving average over a span of at least 1 has one
    value per observation, starts at the first observation, and never
    leaves the range of the observations. *)
Theorem ema_within_range data period lo hi :
  (1 <= period)%Z ->
  Forall (fun x => lo <= x <= hi) data ->
  length (TechnicalIndicators.ema data period) = length data /\
  Forall (fun y => lo <= y <= hi) (TechnicalIndicators.ema data period) /\
  (forall x rest, data = x :: rest ->
                  exists y ys, TechnicalIndicators.ema data period = y :: ys
                               /\ y == x).
Proof.
  intros Hspan Hxs. unfold TechnicalIndicators.ema.
  split; [apply ewm_from_length|].
  split; [now apply ewm_mean_bounds|].
  intros x rest ->. unfold ewm_mean. cbn [ewm_from].
  eexists _, _. split; [reflexivity|].
  set (a := 2 / (inject_Z period + 1)).
  setoid_replace (x + (1 - a) * 0) with x by ring.
  setoid_replace (1 + (1 - a) * 0) with 1 by ring.
  unfold Qdiv. change (/ 1) with 1. ring.
Qed.

Lemma ema_within_range_witness :
  length (TechnicalIndicators.ema [10; 12; 11; 15] 12) = 4%nat /\
  Forall (fun y => 10 <= y <= 15) (TechnicalIndicators.ema [10; 12; 11; 15] 12) /\
  (forall x rest, [10; 12; 11; 15] = x :: rest ->
                  exists y ys,
                    TechnicalIndicators.ema [10; 12; 11; 15] 12 = y :: ys
                    /\ y == x).
Proof.
  apply (ema_within_range [10; 12; 11; 15] 12 10 15).
  - lia.
  - repeat constructor; discriminate.
Defined.

Lemma Forall_zip_with {A B C} (P : A -> Prop) (Q' : B -> Prop)
      (R : C -> Prop) (f : A -> B -> C) xs ys :
  (forall a b, P a -> Q' b -> R (f a b)) ->
  Forall P xs -> Forall Q' ys -> Forall R (zip_with f xs ys).
Proof.
  intros Hf Hxs. revert ys.
  induction Hxs as [|x xs Hx _ IH]; intros ys Hys; [constructor|].
  destruct Hys as [|y ys Hy Hys]; [constructor|].
  simpl. constructor; [now apply Hf | now apply IH].
Qed.

Lemma macd_bounds data fast slow signal lo hi :
  (1 <= fast)%Z -> (1 <= slow)%Z -> (1 <= signal)%Z ->
  Forall (fun x => lo <= x <= hi) data ->
  let '(macd_line, signal_line, histogram) :=
    TechnicalIndicators.macd data fast slow signal in
  (length macd_line = length data /\ length signal_line = length data
   /\ length histogram = length data) /\
  Forall (fun m => lo - hi <= m <= hi - lo) macd_line /\
  Forall (fun s => lo - hi <= s <= hi - lo) signal_line /\
  Forall (fun h => 2 * (lo - hi) <= h <= 2 * (hi - lo)) histogram.
Proof.
  intros Hf Hs Hg Hxs. unfold TechnicalIndicators.macd, TechnicalIndicators.ema.
  set (ema_fast := ewm_mean fast data).
  set (ema_slow := ewm_mean slow data).
  set (macd_line := zip_with Qminus ema_fast ema_slow).
  set (signal_line := ewm_mean signal macd_line).
  assert (Hlm : length macd_line = length data).
  { unfold macd_line, ema_fast, ema_slow, ewm_mean.
    rewrite zip_with_length, !ewm_from_length. lia. }
  assert (Hls : length signal_line = length data)
    by (unfold signal_line, ewm_mean; now rewrite ewm_from_length).
  assert (Hm : Forall (fun m => lo - hi <= m <= hi - lo) macd_line).
  { apply (Forall_zip_with (fun x => lo <= x <= hi) (fun x => lo <= x <= hi)).
    - intros a b Ha Hb. unfold Qminus. lra.
    - now apply ewm_mean_bounds.
    - now apply ewm_mean_bounds. }
  assert (Hsg : Forall (fun s => lo - hi <= s <= hi - lo) signal_line)
    by (now apply ewm_mean_bounds).
  split; [split; [exact Hlm|split; [exact Hls|]]|].
  - rewrite zip_with_length. lia.
  - split; [exact Hm|]. split; [exact Hsg|].
    apply (Forall_zip_with (fun m => lo - hi <= m <= hi - lo)
             (fun s => lo - hi <= s <= hi - lo)); try assumption.
    intros a b Ha Hb. unfold Qminus. lra.
Qed.

(** X11.  The MACD line, its signal line and the histogram have one value
    per observation; for observations within [lo, hi] the MACD and signal
    lines stay within [hi - lo] of zero and the histogram within twice
    that. *)
Theorem macd_within_range data fast slow signal lo hi :
  (1 <= fast)%Z -> (1 <= slow)%Z -> (1 <= signal)%Z ->
  Forall (fun x => lo <= x <= hi) data ->
  exists macd_line signal_line histogram,
    TechnicalIndicators.macd data fast slow signal
    = (macd_line, signal_line, histogram) /\
    (length macd_line = length data /\ length signal_line = length data
     /\ length histogram = length data) /\
    Forall (fun m => lo - hi <= m <= hi - lo) macd_line /\
    Forall (fun s => lo - hi <= s <= hi - lo) signal_line /\
    Forall (fun h => 2 * (lo - hi) <= h <= 2 * (hi - lo)) histogram.
Proof.
  intros Hf Hs Hg Hxs.
  pose proof (macd_bounds data fast slow signal lo hi Hf Hs Hg Hxs) as H.
  destruct (TechnicalIndicators.macd data fast slow signal)
    as [[macd_line signal_line] histogram].
  exists macd_line, signal_line, histogram. split; [reflexivity|exact H].
Qed.

Lemma macd_within_range_witness :
  exists macd_line signal_line histogram,
    TechnicalIndicators.macd [10; 12; 11; 15] 12 26 9
    = (macd_line, signal_line, histogram) /\
    (length macd_line = 4%nat /\ length signal_line = 4%nat
     /\ length histogram = 4%nat) /\
    Forall (fun m => 10 - 15 <= m <= 15 - 10) macd_line /\
    Forall (fun s => 10 - 15 <= s <= 15 - 10) signal_line /\
    Forall (fun h => 2 * (10 - 15) <= h <= 2 * (15 - 10)) histogram.
Proof.
  apply (macd_within_range [10; 12; 11; 15] 12 26 9 10 15); try lia.
  repeat constructor; discriminate.
Defined.

(** X12.  For a flat series [_calculate_macd] returns three series of
    zeros, one value per observation. *)
Theorem macd_of_flat_series_is_zero data c :
  Forall (fun x => x == c) data ->
  exists macd signal_line histogram,
    _calculate_macd data = (Some macd, Some signal_line, Some histogram) /\
    length macd = length data /\ length signal_line = length data /\
    length histogram = length data /\
    Forall (fun m => m == 0) macd /\
    Forall (fun s => s == 0) signal_line /\
    Forall (fun h => h == 0) histogram.
Proof.
  intros Hflat.
  assert (Hxs : Forall (fun x => c <= x <= c) data)
    by (eapply Forall_impl; [|exact Hflat]; intros x Hx; simpl in Hx; lra).
  pose proof (macd_bounds data 12 26 9 c c ltac:(lia) ltac:(lia) ltac:(lia)
                Hxs) as H.
  unfold _calculate_macd.
  unfold TechnicalIndicators.macd, TechnicalIndicators.ema in H.
  cbv zeta in H. destruct H as ((H1 & H2 & H3) & Hm & Hs & Hh).
  eexists _, _, _. split; [reflexivity|].
  repeat split; try assumption;
    (eapply Forall_impl; [|eassumption]); intros x Hx; simpl in Hx; lra.
Qed.

Lemma macd_of_flat_series_is_zero_witness :
  exists macd signal_line histogram,
    _calculate_macd (repeat 10 5)
    = (Some macd, Some signal_line, Some histogram) /\
    length macd = 5%nat /\ length signal_line = 5%nat /\
    length histogram = 5%nat /\
    Forall (fun m => m == 0) macd /\
    Forall (fun s => s == 0) signal_line /\
    Forall (fun h => h == 0) histogram.
Proof.
  apply (macd_of_flat_series_is_zero (repeat 10 5) 10).
  repeat constructor.
Defined.

(** ** The technical-signal snapshot *)

Lemma iloc_last_ok {A} (xs : list A) k :
  (1 <= k <= length xs)%nat -> exists v, iloc_last xs k = Ok v.
Proof.
  intros H. unfold iloc_last, iloc.
  destruct (Nat.ltb_spec (length xs) k); [lia|].
  destruct (nth_error xs (length xs - k)) eqn:E; [eauto|].
  apply nth_error_None in E. lia.
Qed.

Lemma ewm_mean_length span xs : length (ewm_mean span xs) = length xs.
Proof. apply ewm_from_length. Qed.

(** With a single observation the signal line equals the MACD line. *)
Lemma single_signal_equals_macd span m s :
  iloc_last (ewm_mean span [m]) 1 = Ok s -> s == m.
Proof.
  unfold ewm_mean. cbn. intros [= <-].
  set (a := 2 / (inject_Z span + 1)).
  setoid_replace (m + (1 - a) * 0) with m by ring.
  setoid_replace (1 + (1 - a) * 0) with 1 by ring.
  unfold Qdiv. change (/ 1) with 1. ring.
Qed.

Lemma macd_pair_defined closes m1 s1 :
  iloc_last (zip_with Qminus (ewm_mean 12 closes) (ewm_mean 26 closes)) 1
  = Ok m1 ->
  iloc_last
    (ewm_mean 9 (zip_with Qminus (ewm_mean 12 closes) (ewm_mean 26 closes))) 1
  = Ok s1 ->
  ~ s1 == m1 ->
  exists m2 s2,
    iloc_last (zip_with Qminus (ewm_mean 12 closes) (ewm_mean 26 closes)) 2
    = Ok m2 /\
    iloc_last
      (ewm_mean 9 (zip_with Qminus (ewm_mean 12 closes) (ewm_mean 26 closes)))
      2 = Ok s2.
Proof.
  set (macd := zip_with Qminus (ewm_mean 12 closes) (ewm_mean 26 closes)).
  intros Hm1 Hs1 Hneq.
  assert (Hlen : length macd = length closes).
  { unfold macd. rewrite zip_with_length, !ewm_mean_length. lia. }
  destruct closes as [|x [|y rest]].
  - discriminate.
  - exfalso. apply Hneq.
    assert (Hsingle : exists m, macd = [m])
      by (eexists; unfold macd, ewm_mean; cbn [ewm_from zip_with];
          reflexivity).
    destruct Hsingle as [m Hsingle]. rewrite Hsingle in Hm1, Hs1.
    injection Hm1 as <-.
    now apply single_signal_equals_macd in Hs1.
  - destruct (iloc_last_ok macd 2) as [m2 Hm2]; [cbn [length] in Hlen; lia|].
    destruct (iloc_last_ok (ewm_mean 9 macd) 2) as [s2 Hs2];
      [rewrite ewm_mean_length; cbn [length] in Hlen; lia|].
    eauto.
Qed.

(** What [_analyze_technical_signals] returns on a frame that has bars and
    a close column. *)
Lemma analyze_technical_signals_eq data :
  rows data <> [] -> has_column data Close = true ->
  exists r m1 s1 h1 up down a b,
    iloc_last (zip_with rsi_of (rsi_gain (col Close data) 14)
                 (rsi_loss (col Close data) 14)) 1 = Ok r /\
    iloc_last (rolling Qlist_mean 20 false (col Close data)) 1 = Ok a /\
    iloc_last (rolling Qlist_mean 50 false (col Close data)) 1 = Ok b /\
    (up = true -> s1 < m1) /\ (down = true -> m1 < s1) /\
    _analyze_technical_signals data
    = {| sig_rsi :=
           Some {| rsi_current := not_na r;
                   rsi_overbought := Float.gt r (Fin 70);
                   rsi_oversold := Float.lt r (Fin 30) |};
         sig_macd :=
           Some {| macd_current := Some m1;
                   macd_signal := Some s1;
                   macd_histogram := Some h1;
                   macd_bullish_crossover := up;
                   macd_bearish_crossover := down |};
         sig_trend :=
           Some {| trend_sma_20 := not_na a;
                   trend_sma_50 := not_na b;
                   trend_bullish :=
                     if Float.isna a || Float.isna b then None
                     else Some (Float.gt a b) |} |}.
Proof.
  intros Hne Hcol.
  unfold _analyze_technical_signals, try_except, analyze_technical_signals_body.
  unfold bind at 1. unfold lift at 1. rewrite (getitem_ok _ _ Hcol).
  set (closes := col Close data).
  assert (Hn : (1 <= length closes)%nat).
  { unfold closes, col. rewrite length_map.
    destruct (rows data); [congruence|simpl; lia]. }
  unfold _calculate_rsi, _calculate_macd.
  set (rsi := zip_with rsi_of _ _).
  pose proof (macd_pair_defined closes) as Hpair.
  set (macd := zip_with Qminus (ewm_mean 12 closes) (ewm_mean 26 closes)) in *.
  set (signal := ewm_mean 9 macd) in *.
  set (hist := zip_with Qminus macd signal).
  set (sma_20 := rolling Qlist_mean 20 false closes).
  set (sma_50 := rolling Qlist_mean 50 false closes).
  assert (Hlm : length macd = length closes).
  { unfold macd. rewrite zip_with_length, !ewm_mean_length. lia. }
  assert (Hls : length signal = length closes)
    by (unfold signal; now rewrite ewm_mean_length).
  destruct (iloc_last_ok rsi 1) as [r Hr].
  { unfold rsi. rewrite zip_with_length. unfold rsi_gain, rsi_loss.
    rewrite !rolling_length, !length_map.
    assert (length (diff closes) = length closes).
    { destruct closes as [|x c]; [reflexivity|]. cbn [diff length].
      rewrite zip_with_length. cbn [tl length]. lia. }
    lia. }
  destruct (iloc_last_ok macd 1) as [m1 Hm1]; [lia|].
  destruct (iloc_last_ok signal 1) as [s1 Hs1]; [lia|].
  destruct (iloc_last_ok hist 1) as [h1 Hh1];
    [unfold hist; rewrite zip_with_length; lia|].
  destruct (iloc_last_ok sma_20 1) as [a Ha];
    [unfold sma_20; rewrite rolling_length; lia|].
  destruct (iloc_last_ok sma_50 1) as [b Hb];
    [unfold sma_50; rewrite rolling_length; lia|].
  specialize (Hpair m1 s1 Hm1 Hs1).
  unfold bind, lift, modify, ret.
  rewrite Hr, Hm1, Hs1, Hh1, Ha, Hb. cbv beta iota.
  exists r, m1, s1, h1.
  destruct (Qlt_bool s1 m1) eqn:E1; destruct (Qlt_bool m1 s1) eqn:E2;
    try (apply Qlt_bool_iff in E1); try (apply Qlt_bool_iff in E2).
  - lra.
  - destruct Hpair as (m2 & s2 & -> & ->); [lra|].
    exists (Qle_bool m2 s2), false, a, b. cbn.
    repeat split; try assumption; congruence.
  - destruct Hpair as (m2 & s2 & -> & ->); [lra|].
    exists false, (Qle_bool s2 m2), a, b. cbn.
    repeat split; try assumption; congruence.
  - exists false, false, a, b. cbn.
    repeat split; try assumption; congruence.
Qed.

Lemma iloc_last_rolling agg w xs v :
  iloc_last (rolling agg w false xs) 1 = Ok v ->
  v = rolling_at agg w false xs (length xs - 1).
Proof.
  unfold iloc_last, iloc. rewrite rolling_length.
  destruct (length xs <? 1)%nat; [discriminate|].
  destruct (nth_error (rolling agg w false xs) (length xs - 1)) eqn:E;
    [|discriminate].
  intros [= <-]. now apply nth_error_rolling_inv in E.
Qed.

(** X13.  On a frame that has bars and a close column the snapshot holds
    all three groups of signals.  The RSI is never flagged overbought and
    oversold together, and is flagged as neither when it is undefined; the
    MACD is never flagged with a bullish and a bearish crossover together;
    with fewer than 50 bars the slow average and the trend direction are
    absent. *)
Theorem technical_signals_snapshot data :
  rows data <> [] -> has_column data Close = true ->
  exists rs ms ts,
    _analyze_technical_signals data
    = {| sig_rsi := Some rs; sig_macd := Some ms; sig_trend := Some ts |} /\
    rsi_overbought rs && rsi_oversold rs = false /\
    (rsi_current rs = None ->
     rsi_overbought rs = false /\ rsi_oversold rs = false) /\
    macd_bullish_crossover ms && macd_bearish_crossover ms = false /\
    ((length (rows data) < 50)%nat ->
     trend_sma_50 ts = None /\ trend_bullish ts = None).
Proof.
  intros Hne Hcol.
  destruct (analyze_technical_signals_eq data Hne Hcol)
    as (r & m1 & s1 & h1 & up & down & a & b & Hr & Ha & Hb & Hup & Hdown & ->).
  eexists _, _, _. split; [reflexivity|].
  cbn [rsi_overbought rsi_oversold rsi_current macd_bullish_crossover
         macd_bearish_crossover trend_sma_50 trend_bullish].
  split; [|split; [|split]].
  - destruct r as [q| | |]; try reflexivity.
    unfold Float.gt, Float.lt.
    destruct (Qlt_bool 70 q) eqn:E1; [|reflexivity].
    destruct (Qlt_bool q 30) eqn:E2; [|reflexivity].
    apply Qlt_bool_iff in E1, E2. lra.
  - destruct r; cbn; try discriminate. auto.
  - destruct up; [|reflexivity]. destruct down; [|reflexivity].
    specialize (Hup eq_refl). specialize (Hdown eq_refl). lra.
  - intros Hn. apply iloc_last_rolling in Hb.
    rewrite rolling_at_early in Hb.
    + subst b. split; [reflexivity|]. now rewrite orb_true_r.
    + unfold col. rewrite length_map. lia.
Qed.

Lemma technical_signals_snapshot_witness :
  exists rs ms ts,
    _analyze_technical_signals divergence_data
    = {| sig_rsi := Some rs; sig_macd := Some ms; sig_trend := Some ts |} /\
    rsi_overbought rs && rsi_oversold rs = false /\
    (rsi_current rs = None ->
     rsi_overbought rs = false /\ rsi_oversold rs = false) /\
    macd_bullish_crossover ms && macd_bearish_crossover ms = false /\
    ((length (rows divergence_data) < 50)%nat ->
     trend_sma_50 ts = None /\ trend_bullish ts = None).
Proof.
  apply (technical_signals_snapshot divergence_data).
  - discriminate.
  - reflexivity.
Defined.

(** X14.  Without a close column, or without bars, the snapshot is
    empty. *)
Theorem technical_signals_absent data :
  has_column data Close = false \/ rows data = [] ->
  _analyze_technical_signals data = no_signals.
Proof.
  intros [H|H]; [|now apply analyze_technical_signals_empty].
  unfold _analyze_technical_signals, try_except,
    analyze_technical_signals_body, bind, lift.
  now rewrite (getitem_missing _ _ H).
Qed.

Lemma technical_signals_absent_witness :
  _analyze_technical_signals
    {| rows := rows divergence_data; columns := [Open; High; Low; Volume] |}
  = no_signals.
Proof.
  apply technical_signals_absent. left. reflexivity.
Defined.

(** ** More on level clustering *)

Lemma find_cluster_Some level tol ks c :
  find_cluster level tol ks = Ok (Some c) ->
  In c ks /\ near level c tol = Ok true.
Proof.
  induction ks as [|k ks IH]; simpl; [discriminate|].
  destruct (near level k tol) as [[|]|e] eqn:E; simpl; [| |discriminate].
  - intros [= <-]. auto.
  - intros H. destruct (IH H). auto.
Qed.

Lemma find_cluster_None level tol ks :
  find_cluster level tol ks = Ok None ->
  forall k, In k ks -> near level k tol = Ok false.
Proof.
  induction ks as [|k ks IH]; simpl; [tauto|].
  destruct (near level k tol) as [[|]|e] eqn:E; simpl; try discriminate.
  intros H k' [<-|Hk']; [exact E | now apply IH].
Qed.

Lemma near_equal level k tol :
  0 <= tol -> k == level -> near level k tol <> Ok false.
Proof.
  intros Htol Heq. unfold near, py_truediv, res_bind.
  destruct (Qeq_bool k 0); [discriminate|].
  intros [= H]. apply not_true_iff_false in H. apply H.
  apply Qle_bool_iff.
  assert (Qabs (level - k) == 0).
  { setoid_replace (level - k) with 0 by (rewrite Heq; ring). reflexivity. }
  setoid_replace (Qabs (level - k) / k) with 0
    by (rewrite H0; unfold Qdiv; ring).
  exact Htol.
Qed.

Lemma sorted_lt_unique ks a b :
  StronglySorted Qlt ks -> In a ks -> In b ks -> a == b -> a = b.
Proof.
  induction 1 as [|k ks Hs IH Hall]; [contradiction|].
  rewrite Forall_forall in Hall.
  intros [<-|Ha] [<-|Hb] Heq; auto.
  - specialize (Hall b Hb). rewrite Heq in Hall.
    now apply Qlt_irrefl in Hall.
  - specialize (Hall a Ha). rewrite Heq in Hall.
    now apply Qlt_irrefl in Hall.
Qed.

Lemma dict_update_split {V} (d : dict V) c (f : V -> V) :
  StronglySorted Qlt (keys d) -> In c (keys d) ->
  exists d1 v d2,
    d = d1 ++ (c, v) :: d2 /\ dict_update d c f = d1 ++ (c, f v) :: d2.
Proof.
  induction d as [|[k v] d IH]; [contradiction|].
  intros Hs Hin. cbn [dict_update].
  destruct (Qeq_bool k c) eqn:E.
  - apply Qeq_bool_iff in E.
    assert (k = c)
      by (apply (sorted_lt_unique (keys ((k, v) :: d))); auto; now left).
    subst k. exists [], v, d. split; reflexivity.
  - destruct Hin as [Hin|Hin].
    + cbn in Hin. subst k. rewrite Qeq_bool_refl in E. discriminate.
    + cbn [keys map] in Hs. apply StronglySorted_inv in Hs as [Hs _].
      destruct (IH Hs Hin) as (d1 & v' & d2 & -> & ->).
      exists ((k, v) :: d1), v', d2. split; reflexivity.
Qed.

Lemma cluster_step_cases tol d level d1 :
  cluster_step tol d level = Ok d1 ->
  (exists c, find_cluster level tol (keys d) = Ok (Some c) /\
             d1 = dict_update d c (fun l => l ++ [level])) \/
  (find_cluster level tol (keys d) = Ok None /\
   d1 = dict_set d level [level]).
Proof.
  unfold cluster_step, res_bind.
  destruct (find_cluster level tol (keys d)) as [[c|]|e]; [| |discriminate];
    intros [= <-]; eauto.
Qed.

(** One step of the walk, for a tolerance that is not negative. *)
Lemma cluster_step_structure tol d level d1 :
  0 <= tol ->
  StronglySorted Qlt (keys d) ->
  (forall k, In k (keys d) -> k <= level) ->
  Forall (cluster_ok tol) d ->
  cluster_step tol d level = Ok d1 ->
  Forall (cluster_ok tol) d1 /\
  Permutation (concat (map snd d1)) (concat (map snd d) ++ [level]) /\
  (forall k, In k (keys d1) -> In k (keys d) \/ k = level).
Proof.
  intros Htol Hs Hle Hok Hstep.
  apply cluster_step_cases in Hstep as [(c & Hfind & ->)|(Hfind & ->)].
  - apply find_cluster_Some in Hfind as [Hc Hnear].
    destruct (dict_update_split d c (fun l => l ++ [level]) Hs Hc)
      as (da & v & db & Hd & Hupd).
    split; [|split].
    + rewrite Hupd. rewrite Hd in Hok.
      apply Forall_app in Hok as [Ha Hb].
      apply Forall_cons_iff in Hb as [Hv Hb].
      apply Forall_app. split; [exact Ha|]. constructor; [|exact Hb].
      destruct Hv as (rest & Hv & Hrest). cbn [fst snd] in *. subst v.
      exists (rest ++ [level]). split; [reflexivity|].
      apply Forall_app. split; [exact Hrest|].
      repeat constructor; [apply Hle; exact Hc | exact Hnear].
    + rewrite Hupd, Hd. rewrite !map_app, !concat_app. cbn [map concat snd].
      rewrite <- !app_assoc.
      apply Permutation_app_head. apply Permutation_app_head.
      apply Permutation_app_comm.
    + intros k Hk. rewrite keys_dict_update in Hk. now left.
  - assert (Hhas : dict_has d level = false).
    { rewrite dict_has_keys. apply not_true_iff_false. intros H.
      apply existsb_exists in H as (k & Hk & Heq).
      apply Qeq_bool_iff in Heq.
      apply (near_equal level k tol Htol Heq).
      exact (find_cluster_None _ _ _ Hfind k Hk). }
    unfold dict_set. rewrite Hhas. split; [|split].
    + apply Forall_app. split; [exact Hok|].
      repeat constructor. exists []. split; [reflexivity|constructor].
    + rewrite map_app, concat_app. cbn [map concat snd].
      now rewrite app_nil_r.
    + intros k Hk. unfold keys in Hk. rewrite map_app in Hk.
      apply in_app_or in Hk as [Hk|[<-|[]]]; [now left|now right].
Qed.

Lemma cluster_loop_structure tol levels d d' :
  0 <= tol ->
  StronglySorted Qle levels ->
  StronglySorted Qlt (keys d) ->
  separated tol (keys d) ->
  (forall k l, In k (keys d) -> In l levels -> k <= l) ->
  Forall (cluster_ok tol) d ->
  cluster_loop tol levels d = Ok d' ->
  Forall (cluster_ok tol) d' /\
  Permutation (concat (map snd d')) (concat (map snd d) ++ levels).
Proof.
  intros Htol. revert d.
  induction levels as [|level rest IH]; intros d Hlv Hks Hsep Hle Hok.
  - simpl. intros [= <-]. split; [exact Hok|now rewrite app_nil_r].
  - cbn [cluster_loop]. unfold res_bind at 1.
    destruct (cluster_step tol d level) as [d1|e] eqn:Hstep; [|discriminate].
    intros Hloop.
    pose proof Hlv as Hlv'.
    apply StronglySorted_inv in Hlv' as [Hrest Hall].
    rewrite Forall_forall in Hall.
    destruct (cluster_step_structure tol d level d1 Htol Hks
                ltac:(intros k Hk; apply Hle; [exact Hk|now left]) Hok Hstep)
      as (Hok1 & Hperm1 & Hkeys1).
    destruct (cluster_loop_invariant tol [level] d d1) as [Hks1 Hsep1];
      try assumption.
    + repeat constructor.
    + intros k l Hk [<-|[]]. apply Hle; [exact Hk|now left].
    + cbn [cluster_loop]. now rewrite Hstep.
    + destruct (IH d1 Hrest Hks1 Hsep1) as [Hok' Hperm']; try assumption.
      * intros k l Hk Hl. destruct (Hkeys1 k Hk) as [Hk'| ->].
        -- apply Hle; [exact Hk'|now right].
        -- now apply Hall.
      * split; [exact Hok'|].
        eapply Permutation_trans; [exact Hperm'|].
        replace (concat (map snd d) ++ level :: rest)
          with ((concat (map snd d) ++ [level]) ++ rest)
          by (now rewrite <- app_assoc).
        now apply Permutation_app_tail.
Qed.

Lemma cluster_levels_structure (levels : Series) tol clustered :
  0 <= tol ->
  _cluster_levels levels tol = Ok clustered ->
  Permutation (concat (map snd clustered)) (map snd levels) /\
  Forall (cluster_ok tol) clustered /\
  StronglySorted Qlt (keys clustered).
Proof.
  unfold _cluster_levels. intros Htol Hrun.
  assert (Hsorted : StronglySorted Qle (map snd (sort_values levels)))
    by apply sorted_values, sort_values_sorted.
  destruct (cluster_loop_structure tol _ [] clustered Htol Hsorted)
    as [Hok Hperm]; try assumption.
  - constructor.
  - intros n k Hk. destruct n; discriminate.
  - intros k l [].
  - constructor.
  - split; [|split; [exact Hok|]].
    + eapply Permutation_trans; [exact Hperm|]. cbn [map concat app].
      apply Permutation_map, sort_values_perm.
    + apply (cluster_loop_invariant tol _ [] clustered Hsorted);
        try assumption.
      * constructor.
      * intros n k Hk. destruct n; discriminate.
      * intros k l [].
Qed.

(** X15.  With a tolerance that is not negative, a clustering that returns
    loses no level and invents none: the touches of its clusters, taken
    together, are the levels it was given.  Every cluster starts with its
    representative, and each of its other touches is at or above the
    representative and within the tolerance of it. *)
Theorem cluster_levels_partition (levels : Series) tol clustered :
  0 <= tol ->
  _cluster_levels levels tol = Ok clustered ->
  Permutation (concat (map snd clustered)) (map snd levels) /\
  Forall (cluster_ok tol) clustered /\
  StronglySorted Qlt (keys clustered).
Proof. apply cluster_levels_structure. Qed.

Lemma cluster_levels_partition_witness :
  Permutation
    (concat (map snd [(100, [100; 101]); (105, [105])]))
    (map snd [(0%Z, 100); (1%Z, 105); (2%Z, 101)]) /\
  Forall (cluster_ok (2 # 100)) [(100, [100; 101]); (105, [105])] /\
  StronglySorted Qlt (keys [(100, [100; 101]); (105, [105])]).
Proof.
  apply (cluster_levels_partition
           [(0%Z, 100); (1%Z, 105); (2%Z, 101)] (2 # 100)).
  - discriminate.
  - reflexivity.
Defined.

Lemma find_cluster_total level tol ks :
  Forall (fun k => ~ k == 0) ks -> exists r, find_cluster level tol ks = Ok r.
Proof.
  induction 1 as [|k ks Hk _ IH]; simpl; [eauto|].
  unfold near, py_truediv, res_bind.
  destruct (Qeq_bool k 0) eqn:E; [apply Qeq_bool_iff in E; contradiction|].
  destruct (Qle_bool (Qabs (level - k) / k) tol); eauto.
Qed.

Lemma keys_dict_set {V} (d : dict V) k v x :
  In x (keys (dict_set d k v)) -> In x (keys d) \/ x = k.
Proof.
  unfold dict_set. destruct (dict_has d k).
  - rewrite keys_dict_update. now left.
  - unfold keys. rewrite map_app. intros H.
    apply in_app_or in H as [H|[<-|[]]]; auto.
Qed.

Lemma cluster_step_keys tol d level d1 x :
  cluster_step tol d level = Ok d1 ->
  In x (keys d1) -> In x (keys d) \/ x = level.
Proof.
  intros Hstep Hx.
  apply cluster_step_cases in Hstep as [(c & _ & ->)|(_ & ->)].
  - rewrite keys_dict_update in Hx. now left.
  - now apply keys_dict_set in Hx.
Qed.

Lemma cluster_loop_keys tol levels d d' x :
  cluster_loop tol levels d = Ok d' ->
  In x (keys d') -> In x (keys d) \/ In x levels.
Proof.
  revert d. induction levels as [|level rest IH]; intros d; simpl.
  - intros [= <-]. now left.
  - unfold res_bind at 1.
    destruct (cluster_step tol d level) as [d1|e] eqn:Hstep; [|discriminate].
    intros Hloop Hx. destruct (IH d1 Hloop Hx) as [H|H]; [|auto].
    destruct (cluster_step_keys _ _ _ _ _ Hstep H) as [H'| ->]; auto.
Qed.

Lemma cluster_loop_total tol levels d :
  Forall (fun k => ~ k == 0) (keys d) ->
  Forall (fun l => ~ l == 0) levels ->
  exists d', cluster_loop tol levels d = Ok d'.
Proof.
  intros Hd Hl. revert d Hd.
  induction Hl as [|level rest Hlevel _ IH]; intros d Hd; simpl; [eauto|].
  destruct (find_cluster_total level tol (keys d) Hd) as [r Hr].
  assert (Hstep : exists d1, cluster_step tol d level = Ok d1)
    by (unfold cluster_step; rewrite Hr; destruct r; simpl; eauto).
  destruct Hstep as [d1 Hstep]. rewrite Hstep. simpl.
  apply IH. apply Forall_forall. intros x Hx.
  destruct (cluster_step_keys _ _ _ _ _ Hstep Hx) as [H| ->]; [|exact Hlevel].
  rewrite Forall_forall in Hd. now apply Hd.
Qed.

(** X16.  Clustering raises nothing when no level is zero, whatever the
    tolerance. *)
Theorem cluster_levels_returns_without_zero (levels : Series) tol :
  Forall (fun l => ~ snd l == 0) levels ->
  exists clustered, _cluster_levels levels tol = Ok clustered.
Proof.
  intros H. unfold _cluster_levels. apply cluster_loop_total; [constructor|].
  apply Forall_forall. intros v Hv.
  apply in_map_iff in Hv as (l & <- & Hl).
  rewrite Forall_forall in H. apply H.
  now apply (Permutation_in _ (sort_values_perm levels)).
Qed.

Lemma cluster_levels_returns_without_zero_witness :
  exists clustered,
    _cluster_levels [(0%Z, 100); (1%Z, 105); (2%Z, 101)] (2 # 100)
    = Ok clustered.
Proof.
  apply (cluster_levels_returns_without_zero
           [(0%Z, 100); (1%Z, 105); (2%Z, 101)] (2 # 100)).
  repeat constructor; discriminate.
Defined.

(** X17.  Clustering two levels or more, none negative and one of them
    zero, raises ZeroDivisionError: the zero level, the smallest, becomes
    the first representative and the next level is divided by it. *)
Theorem cluster_levels_raises_on_zero (levels : Series) tol :
  Forall (fun l => 0 <= snd l) levels ->
  Exists (fun l => snd l == 0) levels ->
  (2 <= length levels)%nat ->
  _cluster_levels levels tol = Raise ZeroDivisionError.
Proof.
  intros Hnonneg Hzero Hlen. unfold _cluster_levels.
  pose proof (sort_values_sorted levels) as Hsorted.
  pose proof (sort_values_perm levels) as Hperm.
  assert (Hl : length (sort_values levels) = length levels)
    by (now apply Permutation_length).
  destruct (sort_values levels) as [|[i0 v0] [|[i1 v1] rest]];
    cbn [length] in Hl; try lia.
  assert (Hv0 : v0 == 0).
  { apply Exists_exists in Hzero as (z & Hz & Hz0).
    apply StronglySorted_inv in Hsorted as [_ Hall].
    rewrite Forall_forall in Hall, Hnonneg.
    assert (H0 : 0 <= v0)
      by (apply (Hnonneg (i0, v0)), (Permutation_in _ Hperm); now left).
    apply Permutation_sym in Hperm.
    apply (Permutation_in _ Hperm) in Hz. destruct Hz as [<-|Hz].
    - exact Hz0.
    - specialize (Hall z Hz). unfold by_value in Hall. cbn [snd] in Hall. lra. }
  cbn [map snd cluster_loop]. unfold cluster_step at 1.
  cbn [keys map find_cluster res_bind dict_set dict_has existsb app].
  unfold cluster_step at 1. cbn [keys map fst find_cluster].
  unfold near, py_truediv. apply Qeq_bool_iff in Hv0. rewrite Hv0.
  reflexivity.
Qed.

Lemma cluster_levels_raises_on_zero_witness :
  _cluster_levels [(3600%Z, 5); (0%Z, 0)] (2 # 100)
  = Raise ZeroDivisionError.
Proof.
  apply (cluster_levels_raises_on_zero [(3600%Z, 5); (0%Z, 0)] (2 # 100)).
  - repeat constructor; discriminate.
  - right. left. reflexivity.
  - simpl. lia.
Defined.

(** ** The levels reported *)

Lemma select_length {A} (xs : list A) mask :
  (length (select xs mask) <= length xs)%nat.
Proof.
  revert mask. induction xs as [|x xs IH]; intros [|m mask]; simpl; try lia.
  destruct m; simpl; specialize (IH mask); lia.
Qed.

Lemma candidates_source data c extrema :
  (length (candidates data (col c data) extrema) <= length (rows data))%nat /\
  forall v, In v (map snd (candidates data (col c data) extrema)) ->
            exists b, In b (rows data) /\ v = cell c b.
Proof.
  unfold candidates. split.
  - eapply Nat.le_trans; [apply select_length|].
    rewrite length_combine. unfold index, col. rewrite !length_map. lia.
  - intros v Hv. apply in_map_iff in Hv as ([t v'] & <- & Hin).
    apply In_select_In, in_combine_r in Hin.
    unfold col in Hin. apply in_map_iff in Hin as (b & <- & Hb). eauto.
Qed.

Lemma cluster_member_length (d : dict (list Q)) k ts :
  In (k, ts) d -> (length ts <= length (concat (map snd d)))%nat.
Proof.
  induction d as [|[k' ts'] d IH]; [contradiction|].
  cbn [map concat snd]. rewrite length_app. intros [[= <- <-]|H]; [lia|].
  specialize (IH H). lia.
Qed.

Lemma Qnat_le a b : (a <= b)%nat -> Qnat a <= Qnat b.
Proof. intros H. unfold Qnat. rewrite <- Zle_Qle. lia. Qed.

Lemma Qnat_pos a : (1 <= a)%nat -> 0 < Qnat a.
Proof.
  intros H. unfold Qnat. change 0 with (inject_Z 0). rewrite <- Zlt_Qlt. lia.
Qed.

Lemma level_events_ok ty cfg data c (cands : Series) clusters :
  cell c = match ty with resistance => high | support => low end ->
  (length cands <= length (rows data))%nat ->
  (forall v, In v (map snd cands) -> exists b, In b (rows data) /\ v = cell c b) ->
  _cluster_levels cands (tolerance cfg) = Ok clusters ->
  preserves (level_ok cfg data) (level_events ty cfg data clusters).
Proof.
  intros Hcell Hlen Hsrc Hrun. unfold level_events.
  apply preserves_for_each. intros [level touches] Hin.
  destruct (min_touches cfg <=? length touches)%nat eqn:Hmin;
    [|apply preserves_ret].
  apply Nat.leb_le in Hmin.
  apply preserves_lift_bind. intros ratio Hratio.
  apply preserves_lift_bind. intros last_touch _.
  apply preserves_append.
  unfold level_ok, level_source. cbn [lv_touches lv_level lv_type lv_strength].
  split; [exact Hmin|]. split.
  - assert (Hk : In level (keys clusters))
      by (apply in_map_iff; exists (level, touches); split; auto).
    unfold _cluster_levels in Hrun.
    apply (cluster_loop_keys _ _ _ _ _ Hrun) in Hk as [[]|Hk].
    apply in_map_iff in Hk as (l & <- & Hl).
    apply (Permutation_in _ (sort_values_perm cands)) in Hl.
    destruct (Hsrc (snd l) (in_map snd _ _ Hl)) as (b & Hb & Hv).
    exists b. split; [exact Hb|]. rewrite Hv, Hcell. now destruct ty.
  - intros Htol.
    destruct (cluster_levels_structure cands _ clusters Htol Hrun)
      as (Hperm & Hok & _).
    assert (H1 : (1 <= length touches)%nat).
    { rewrite Forall_forall in Hok.
      destruct (Hok _ Hin) as (rest & Hts & _). cbn [snd] in Hts.
      rewrite Hts. simpl. lia. }
    assert (H2 : (length touches <= length (rows data))%nat).
    { pose proof (cluster_member_length _ _ _ Hin) as H.
      rewrite (Permutation_length Hperm), length_map in H. lia. }
    split; [lia|].
    unfold py_truediv in Hratio.
    destruct (Qeq_bool (Qnat (length (rows data))) 0); [discriminate|].
    injection Hratio as <-.
    assert (Hn : 0 < Qnat (length (rows data))) by (apply Qnat_pos; lia).
    assert (Ht : 0 < Qnat (length touches)) by (now apply Qnat_pos).
    assert (Hle : Qnat (length touches) <= Qnat (length (rows data)))
      by (now apply Qnat_le).
    assert (Hr1 : 0 < Qnat (length touches) / Qnat (length (rows data)))
      by (apply Qlt_shift_div_l; lra).
    assert (Hr2 : Qnat (length touches) / Qnat (length (rows data)) <= 1)
      by (apply Qle_shift_div_r; lra).
    lra.
Qed.

(** X18.  Every level reported has at least [min_touches] touches, and its
    price is the high of a bar of the input for a resistance, the low of a
    bar for a support.  With a tolerance that is not negative its touches
    number at most the bars of the input and its strength lies in
    (0, 100]. *)
Theorem support_resistance_levels cfg data e :
  In e (_detect_support_resistance cfg data) -> level_ok cfg data e.
Proof.
  intros He. revert e He. apply Forall_forall.
  apply try_except_preserves. unfold detect_support_resistance_body.
  apply preserves_lift_bind. intros high_col Hh.
  apply preserves_lift_bind. intros low_col Hl.
  apply getitem_col in Hh, Hl. subst high_col low_col.
  apply preserves_lift_bind. intros resistance_levels Hr.
  apply preserves_bind.
  - destruct (candidates_source data High
                (rolling Qlist_max 5 true (col High data))) as [H1 H2].
    now apply (level_events_ok resistance cfg data High _ _ eq_refl H1 H2).
  - intros _ _ _.
    apply preserves_lift_bind. intros support_levels Hs.
    destruct (candidates_source data Low
                (rolling Qlist_min 5 true (col Low data))) as [H1 H2].
    now apply (level_events_ok support cfg data Low _ _ eq_refl H1 H2).
Qed.

Lemma support_resistance_levels_witness :
  level_ok default_config levels_data
    (mkLevel resistance 10 3 (300 # 9) (PyFloat (101 # 10))).
Proof.
  apply (support_resistance_levels default_config levels_data).
  vm_compute. left. reflexivity.
Defined.

(** ** The averages reported with a trend change *)

Lemma Float_lt_defined a b : Float.lt a b = true -> a <> NaN /\ b <> NaN.
Proof. destruct a, b; simpl; intros H; split; congruence. Qed.

Lemma rolling_mean_value w c xs i :
  rolling_at Qlist_mean w c xs i = NaN \/
  exists m, rolling_at Qlist_mean w c xs i = Fin m.
Proof.
  destruct (fval_nan_dec (rolling_at Qlist_mean w c xs i)) as [E|Hdef];
    [now left|].
  apply rolling_at_defined in Hdef as [_ ->].
  destruct (Qlist_mean_cases
              (slice xs (i + 1 + window_offset w c - w)
                 (i + 1 + window_offset w c))) as [->| ->]; eauto.
Qed.

Lemma located_row {A} (rows : list A) (xs ys : list fval) i r :
  nth_error (combine rows (combine xs ys)) i = Some r ->
  nth_error rows i = Some (fst r) /\
  nth_error xs i = Some (fst (snd r)) /\
  nth_error ys i = Some (snd (snd r)).
Proof.
  intros H. apply nth_error_combine_inv in H as [H1 H2].
  apply nth_error_combine_inv in H2 as [H2 H3]. auto.
Qed.

(** X19.  A trend change carries two defined averages: the 20-bar mean is
    strictly above the 50-bar mean at a bullish crossover and strictly
    under it at a bearish crossover. *)
Theorem trend_change_averages data e :
  In e (_detect_trend_changes data) ->
  exists fast slow,
    tc_sma_20 e = Fin fast /\ tc_sma_50 e = Fin slow /\
    match tc_type e with
    | bullish_crossover => slow < fast
    | bearish_crossover => fast < slow
    end.
Proof.
  rewrite detect_trend_changes_eq.
  destruct (has_column data Close); [|contradiction]. cbv zeta.
  set (closes := col Close data).
  intros He.
  assert (Hcase :
            exists i r ty,
              e = trend_event ty r /\
              nth_error (rolling Qlist_mean 20 false closes) i
              = Some (fst (snd r)) /\
              nth_error (rolling Qlist_mean 50 false closes) i
              = Some (snd (snd r)) /\
              match ty with
              | bullish_crossover =>
                  Float.gt (fst (snd r)) (snd (snd r)) = true
              | bearish_crossover =>
                  Float.lt (fst (snd r)) (snd (snd r)) = true
              end).
  { apply in_app_or in He as [He|He];
      apply in_map_iff in He as (r & <- & Hr);
      apply In_select in Hr as (i & Hi & Hmask);
      apply located_row in Hi as (_ & H20 & H50);
      [exists i, r, bullish_crossover | exists i, r, bearish_crossover];
      (split; [reflexivity|]); (split; [exact H20|]); (split; [exact H50|]);
      apply nth_error_zip_with in Hmask as (u & u' & Hu & _ & Hand);
      symmetry in Hand; apply andb_true_iff in Hand as [-> _];
      apply nth_error_zip_with in Hu as (a & b & Ha & Hb & Hcmp);
      rewrite H20 in Ha; rewrite H50 in Hb;
      injection Ha as <-; injection Hb as <-; now symmetry. }
  destruct Hcase as (i & [b [f s]] & ty & -> & H20 & H50 & Hcmp).
  cbn [fst snd] in *. cbn [trend_event tc_sma_20 tc_sma_50 tc_type fst snd].
  apply nth_error_rolling_inv in H20 as [_ ->].
  apply nth_error_rolling_inv in H50 as [_ ->].
  assert (Hdef : rolling_at Qlist_mean 20 false closes i <> NaN /\
                 rolling_at Qlist_mean 50 false closes i <> NaN)
    by (destruct ty; [now apply Float_gt_defined | now apply Float_lt_defined]).
  destruct Hdef as [Hd20 Hd50].
  destruct (rolling_mean_value 20 false closes i) as [E20|[fast E20]];
    [contradiction|].
  destruct (rolling_mean_value 50 false closes i) as [E50|[slow E50]];
    [contradiction|].
  rewrite E20, E50 in *.
  exists fast, slow. split; [reflexivity|]. split; [reflexivity|].
  destruct ty; unfold Float.gt, Float.lt in Hcmp; now apply Qlt_bool_iff.
Qed.

Lemma trend_change_averages_witness :
  exists fast slow,
    Fin (290 # 20) = Fin fast /\ Fin (648 # 50) = Fin slow /\ slow < fast.
Proof.
  apply (trend_change_averages trend_data
           (mkTrendChange bullish_crossover 180000 100
              (Fin (290 # 20)) (Fin (648 # 50)))).
  vm_compute. left. reflexivity.
Defined.

(** ** The deviation reported with a volume anomaly *)

(** X20.  Every volume anomaly reported has a defined mean volume under
    its volume and a deviation that is a finite number strictly above 2. *)
Theorem volume_anomaly_deviation fsqrt data e :
  (forall x, 0 <= fsqrt x) ->
  (forall x, 0 < x -> 0 < fsqrt x) ->
  In e (_detect_volume_anomalies fsqrt data) ->
  exists mean dev,
    va_avg_volume e = Fin mean /\ mean < va_volume e /\
    va_deviation e = Fin dev /\ 2 < dev.
Proof.
  intros Hnonneg Hpos. rewrite detect_volume_anomalies_eq.
  destruct (has_column data Volume); [|contradiction]. cbv zeta.
  set (vols := col Volume data).
  intros He. apply in_map_iff in He as ([b [avg sd]] & <- & Hr).
  apply In_select in Hr as (i & Hi & Hmask).
  apply located_row in Hi as (Hb & Havg & Hsd). cbn [fst snd] in *.
  pose proof (nth_error_anomaly_mask fsqrt data i b Hb) as Hm.
  fold vols in Hm.
  assert (Hgt : Float.gt (Fin (volume b))
                  (Float.add (rolling_at Qlist_mean 20 false vols i)
                     (Float.mul (Fin 2)
                        (rolling_at (Qlist_std fsqrt) 20 false vols i)))
                = true) by congruence.
  clear Hm Hmask.
  apply nth_error_rolling_inv in Havg as [_ ->].
  apply nth_error_rolling_inv in Hsd as [_ ->].
  pose proof (nth_error_col Volume _ _ _ Hb) as Hv. fold vols in Hv.
  cbn [cell] in Hv.
  destruct (fval_nan_dec (rolling_at (Qlist_std fsqrt) 20 false vols i))
    as [Hnan|Hdef].
  { rewrite (anomaly_mask_false_without_std fsqrt vols i (volume b)
               Hpos Hv (or_introl Hnan)) in Hgt. discriminate. }
  pose proof Hdef as Hdef'.
  apply rolling_at_defined in Hdef' as [_ Heq].
  destruct (Qlist_std_cases fsqrt
              (slice vols (i + 1 + window_offset 20 false - 20)
                 (i + 1 + window_offset 20 false))) as [E|[s E]];
    [congruence|].
  assert (Hs : 0 <= s).
  { unfold Qlist_std in E.
    destruct (length _ <=? 1)%nat; [discriminate|]. injection E as <-.
    apply Hnonneg. }
  rewrite E in Heq.
  assert (Hs0 : ~ s == 0).
  { intros Hzero.
    rewrite (anomaly_mask_false_without_std fsqrt vols i (volume b)
               Hpos Hv (or_intror (ex_intro _ s (conj Heq Hzero)))) in Hgt.
    discriminate. }
  cbn [anomaly_event va_avg_volume va_volume va_deviation].
  rewrite Heq in *.
  destruct (rolling_mean_value 20 false vols i) as [Em|[m Em]];
    rewrite Em in *; [discriminate|].
  cbn [Float.mul Float.add Float.gt Float.lt] in Hgt.
  apply Qlt_bool_iff in Hgt.
  assert (Hspos : 0 < s).
  { destruct (Qle_lt_or_eq _ _ Hs) as [H|H]; [exact H|].
    elim Hs0. now symmetry. }
  exists m. eexists. split; [reflexivity|]. split; [lra|].
  cbn [Float.sub Float.neg Float.add Float.div].
  destruct (Qeq_bool s 0) eqn:Es; [apply Qeq_bool_eq in Es; contradiction|].
  split; [reflexivity|].
  apply Qlt_shift_div_l; lra.
Qed.

Lemma newton_sqrt_nonneg x : 0 <= newton_sqrt x.
Proof.
  unfold newton_sqrt. destruct (Qlt_bool 0 x) eqn:E; [|apply Qle_refl].
  apply Qlt_le_weak. pose proof (newton_sqrt_pos x) as H.
  unfold newton_sqrt in H. rewrite E in H. apply H. now apply Qlt_bool_iff.
Qed.

Lemma volume_anomaly_deviation_witness :
  exists mean dev,
    Fin (3000 # 20) = Fin mean /\ mean < 1000 /\
    Fin (3710327549912537695330056000 # 873592412340060177682718420)
    = Fin dev /\ 2 < dev.
Proof.
  apply (volume_anomaly_deviation newton_sqrt spike_data
           (mkVolumeAnomaly 72000 1000 (Fin (3000 # 20))
              (Fin (3710327549912537695330056000
                    # 873592412340060177682718420)))).
  - exact newton_sqrt_nonneg.
  - exact newton_sqrt_pos.
  - vm_compute. left. reflexivity.
Defined.

(** ** Indicators drawn on the charts *)

Lemma Qlen_cons x xs : Qlen (x :: xs) == Qlen xs + 1.
Proof.
  unfold Qlen. cbn [length]. rewrite Nat2Z.inj_succ, <- Z.add_1_r.
  rewrite inject_Z_plus. reflexivity.
Qed.

Lemma Qsum_bounds lo hi xs :
  Forall (fun x => lo <= x <= hi) xs ->
  lo * Qlen xs <= Qsum xs <= hi * Qlen xs.
Proof.
  induction 1 as [|x xs Hx _ IH].
  - change (Qlen []) with 0. change (Qsum []) with 0.
    setoid_replace (lo * 0) with 0 by ring.
    setoid_replace (hi * 0) with 0 by ring.
    split; apply Qle_refl.
  - cbn [Qsum fold_right]. fold (Qsum xs). rewrite Qlen_cons.
    setoid_replace (lo * (Qlen xs + 1)) with (lo * Qlen xs + lo) by ring.
    setoid_replace (hi * (Qlen xs + 1)) with (hi * Qlen xs + hi) by ring.
    lra.
Qed.

Lemma Qmean_bounds lo hi xs :
  xs <> [] -> Forall (fun x => lo <= x <= hi) xs -> lo <= Qmean xs <= hi.
Proof.
  intros Hne Hxs. pose proof (Qsum_bounds lo hi xs Hxs) as [H1 H2].
  pose proof (Qlen_pos xs Hne) as Hlen. unfold Qmean.
  split; [apply Qle_shift_div_l | apply Qle_shift_div_r]; assumption.
Qed.

Lemma rolling_mean_bounds lo hi w c xs i m :
  Forall (fun x => lo <= x <= hi) xs ->
  rolling_at Qlist_mean w c xs i = Fin m -> lo <= m <= hi.
Proof.
  intros Hxs Hm.
  assert (Hdef : rolling_at Qlist_mean w c xs i <> NaN)
    by (rewrite Hm; discriminate).
  apply rolling_at_defined in Hdef as [_ Heq]. rewrite Hm in Heq.
  destruct (slice xs _ _) as [|x rest] eqn:E; [discriminate|].
  injection Heq as ->. apply Qmean_bounds; [discriminate|].
  rewrite <- E. now apply Forall_slice.
Qed.

(** X21.  A simple moving average has one value per observation, is
    undefined at the first [period - 1] positions, and where it is defined
    lies within the range of the observations. *)
Theorem sma_within_range data period lo hi :
  Forall (fun x => lo <= x <= hi) data ->
  length (TechnicalIndicators.sma data period) = length data /\
  forall i v,
    nth_error (TechnicalIndicators.sma data period) i = Some v ->
    ((i + 1 < period)%nat -> v = NaN) /\
    (v <> NaN -> exists m, v = Fin m /\ lo <= m <= hi).
Proof.
  intros Hxs. unfold TechnicalIndicators.sma.
  split; [apply rolling_length|].
  intros i v Hv. apply nth_error_rolling_inv in Hv as [_ ->]. split.
  - apply rolling_at_early.
  - intros Hdef.
    destruct (rolling_mean_value period false data i) as [E|[m E]];
      [contradiction|].
    exists m. split; [exact E|]. now apply (rolling_mean_bounds lo hi) in E.
Qed.

Lemma sma_within_range_witness :
  length (TechnicalIndicators.sma [10; 12; 11; 15] 2) = 4%nat /\
  forall i v,
    nth_error (TechnicalIndicators.sma [10; 12; 11; 15] 2) i = Some v ->
    ((i + 1 < 2)%nat -> v = NaN) /\
    (v <> NaN -> exists m, v = Fin m /\ 10 <= m <= 15).
Proof.
  apply (sma_within_range [10; 12; 11; 15] 2 10 15).
  repeat constructor; discriminate.
Defined.

Lemma rolling_std_value fsqrt w xs i :
  (forall x, 0 <= fsqrt x) ->
  rolling_at (Qlist_std fsqrt) w false xs i = NaN \/
  exists s, rolling_at (Qlist_std fsqrt) w false xs i = Fin s /\ 0 <= s.
Proof.
  intros Hnonneg.
  destruct (fval_nan_dec (rolling_at (Qlist_std fsqrt) w false xs i))
    as [E|Hdef]; [now left|].
  apply rolling_at_defined in Hdef as [_ ->].
  unfold Qlist_std. destruct (length _ <=? 1)%nat; [now left|right].
  eexists. split; [reflexivity|]. apply Hnonneg.
Qed.

(** X22.  At every position the upper and lower Bollinger bands are defined
    together; where they are, with a multiplier that is not negative, the
    lower band is at or under the middle band, the upper band at or above
    it, and both are at the same distance from it. *)
Theorem bollinger_bands_ordered fsqrt data period std_dev i u m l :
  (forall x, 0 <= fsqrt x) ->
  0 <= std_dev ->
  (let '(upper, middle, lower) :=
     TechnicalIndicators.bollinger_bands fsqrt data period std_dev in
   nth_error upper i = Some u /\ nth_error middle i = Some m
   /\ nth_error lower i = Some l) ->
  (u = NaN /\ l = NaN) \/
  exists uq mq lq,
    u = Fin uq /\ m = Fin mq /\ l = Fin lq /\
    lq <= mq <= uq /\ uq - mq == mq - lq.
Proof.
  intros Hnonneg Hk. unfold TechnicalIndicators.bollinger_bands,
    TechnicalIndicators.sma. cbv zeta. intros (Hu & Hm & Hl).
  apply nth_error_zip_with in Hu as (a & b & Ha & Hb & ->).
  apply nth_error_zip_with in Hl as (a' & b' & Ha' & Hb' & ->).
  rewrite Ha in Ha', Hm. rewrite Hb in Hb'.
  injection Ha' as <-. injection Hb' as <-. injection Hm as <-.
  rewrite nth_error_map in Hb.
  destruct (nth_error (rolling (Qlist_std fsqrt) period false data) i)
    as [sd|] eqn:Hsd; [|discriminate].
  injection Hb as <-.
  apply nth_error_rolling_inv in Ha as [_ ->].
  apply nth_error_rolling_inv in Hsd as [_ ->].
  destruct (rolling_std_value fsqrt period data i Hnonneg) as [->|(s & -> & Hs)].
  - left. cbn [Float.mul]. unfold Float.sub.
    destruct (rolling_at Qlist_mean period false data i); auto.
  - destruct (rolling_mean_value period false data i) as [->|[mq ->]].
    + left. auto.
    + right. cbn [Float.mul Float.add Float.sub Float.neg].
      eexists _, mq, _. repeat split; try reflexivity.
      * assert (0 <= s * std_dev) by (now apply Qmult_le_0_compat). lra.
      * assert (0 <= s * std_dev) by (now apply Qmult_le_0_compat). lra.
      * ring.
Qed.

Lemma bollinger_bands_ordered_witness :
  exists u m l,
    (let '(upper, middle, lower) :=
       TechnicalIndicators.bollinger_bands newton_sqrt [10; 12; 11; 15] 3 2 in
     nth_error upper 3 = Some u /\ nth_error middle 3 = Some m
     /\ nth_error lower 3 = Some l) /\
    ((u = NaN /\ l = NaN) \/
     exists uq mq lq,
       u = Fin uq /\ m = Fin mq /\ l = Fin lq /\
       lq <= mq <= uq /\ uq - mq == mq - lq).
Proof.
  eexists _, _, _.
  assert (H : let '(upper, middle, lower) :=
                TechnicalIndicators.bollinger_bands newton_sqrt
                  [10; 12; 11; 15] 3 2 in
              nth_error upper 3 = Some _ /\ nth_error middle 3 = Some _
              /\ nth_error lower 3 = Some _)
    by (vm_compute; repeat split; reflexivity).
  split; [exact H|].
  apply (bollinger_bands_ordered newton_sqrt [10; 12; 11; 15] 3 2 3 _ _ _
           newton_sqrt_nonneg ltac:(discriminate) H).
Defined.

Lemma max_skipna_nonneg a y :
  0 <= a -> (y = NaN \/ exists b, y = Fin b /\ 0 <= b) ->
  exists q, max_skipna (Fin a) y = Fin q /\ 0 <= q.
Proof.
  intros Ha [->|(b & -> & Hb)]; [exists a; auto|].
  cbn [max_skipna Float.lt]. destruct (Qlt_bool a b); eauto.
Qed.

Lemma In_removelast {A} (l : list A) x : In x (removelast l) -> In x l.
Proof.
  induction l as [|a l IH]; [contradiction|].
  destruct l as [|b l]; [contradiction|].
  change (removelast (a :: b :: l)) with (a :: removelast (b :: l)).
  intros [<-|H]; [now left|right; auto].
Qed.

Lemma shifted_close_value close i c :
  nth_error (shift1 (Fins close)) i = Some c -> c = NaN \/ exists q, c = Fin q.
Proof.
  intros H. apply nth_error_In in H.
  destruct (Fins close) as [|x s] eqn:E; [contradiction|].
  cbn [shift1] in H. destruct H as [<-|H]; [now left|right].
  apply In_removelast in H. rewrite <- E in H.
  unfold Fins in H. apply in_map_iff in H as (q & <- & _). eauto.
Qed.

Lemma distance_nonneg x c :
  c = NaN \/ (exists q, c = Fin q) ->
  Float.abs (Float.sub (Fin x) c) = NaN \/
  exists b, Float.abs (Float.sub (Fin x) c) = Fin b /\ 0 <= b.
Proof.
  intros [->|[q ->]]; [now left|right].
  cbn [Float.sub Float.neg Float.add Float.abs].
  eexists. split; [reflexivity|]. apply Qabs_nonneg.
Qed.

Lemma true_range_nonneg high low close i v :
  (forall h l, nth_error high i = Some h -> nth_error low i = Some l ->
               l <= h) ->
  nth_error (TechnicalIndicators.true_range high low close) i = Some v ->
  exists q, v = Fin q /\ 0 <= q.
Proof.
  intros Hhl. unfold TechnicalIndicators.true_range. cbv zeta. intros H.
  apply nth_error_zip_with in H as (m12 & t3 & H12 & H3 & ->).
  apply nth_error_zip_with in H12 as (t1 & t2 & H1 & H2 & ->).
  apply nth_error_zip_with in H1 as (h & l & Hh & Hl & ->).
  apply nth_error_zip_with in H2 as (h' & c & _ & Hc & ->).
  apply nth_error_zip_with in H3 as (l' & c' & _ & Hc' & ->).
  specialize (Hhl h l Hh Hl).
  destruct (max_skipna_nonneg (h - l) _ ltac:(lra)
              (distance_nonneg h' c (shifted_close_value _ _ _ Hc)))
    as (q1 & -> & Hq1).
  exact (max_skipna_nonneg q1 _ Hq1
           (distance_nonneg l' c' (shifted_close_value _ _ _ Hc'))).
Qed.

Lemma all_defined_In xs qs q :
  all_defined xs = Some qs -> In q qs -> In (Fin q) xs.
Proof.
  revert qs. induction xs as [|x xs IH]; intros qs; simpl.
  - intros [= <-] [].
  - destruct x as [p| | |]; try discriminate.
    destruct (all_defined xs) as [ps|]; [|discriminate].
    intros [= <-] [<-|H]; [now left|right; eauto].
Qed.

Lemma rolling_nan_at_early agg w xs i :
  (i + 1 < w)%nat -> rolling_nan_at agg w xs i = NaN.
Proof.
  intros H. unfold rolling_nan_at, window_bounds. cbn [window_offset].
  rewrite Nat.add_0_r.
  destruct (w =? 0)%nat; [reflexivity|].
  destruct (Nat.ltb_spec (Nat.min (i + 1) (length xs)
                          - Nat.min (i + 1 - w) (length xs)) w);
    [reflexivity|lia].
Qed.

(** X23.  The average true range is undefined at the first [period - 1]
    positions; where it is defined, on bars whose high is not under their
    low, it is a finite number that is not negative. *)
Theorem atr_nonneg high low close period i v :
  (forall j h l, nth_error high j = Some h -> nth_error low j = Some l ->
                 l <= h) ->
  nth_error (TechnicalIndicators.atr high low close period) i = Some v ->
  ((i + 1 < period)%nat -> v = NaN) /\
  (v <> NaN -> exists q, v = Fin q /\ 0 <= q).
Proof.
  intros Hhl. unfold TechnicalIndicators.atr, rolling_nan. intros Hv.
  assert (Hi : (i < length (TechnicalIndicators.true_range high low close))%nat).
  { assert (H : nth_error
                  (map (rolling_nan_at Qlist_mean period
                          (TechnicalIndicators.true_range high low close))
                     (seq 0 (length
                               (TechnicalIndicators.true_range high low close))))
                  i <> None) by congruence.
    apply nth_error_Some in H. now rewrite length_map, length_seq in H. }
  rewrite nth_error_map_seq in Hv by exact Hi. injection Hv as <-.
  split; [apply rolling_nan_at_early|].
  unfold rolling_nan_at.
  destruct (window_bounds period false _ i) as [start stop].
  destruct ((period =? 0)%nat || (stop - start <? period)%nat);
    [intros H; now elim H|].
  destruct (all_defined (slice _ start stop)) as [qs|] eqn:E;
    [|intros H; now elim H].
  intros Hdef. destruct (Qlist_mean_cases qs) as [H|H]; [contradiction|].
  rewrite H. eexists. split; [reflexivity|].
  apply Qdiv_nonneg; [|apply Qlen_nonneg].
  apply Qsum_nonneg, Forall_forall. intros q Hq.
  apply (all_defined_In _ _ _ E), In_slice_inv, In_nth_error in Hq as [j Hj].
  destruct (true_range_nonneg high low close j (Fin q) (Hhl j) Hj)
    as (q' & [= ->] & Hq'). exact Hq'.
Qed.

Lemma atr_nonneg_witness :
  ((3 + 1 < 2)%nat -> Fin (7 # 2) = NaN) /\
  (Fin (7 # 2) <> NaN -> exists q, Fin (7 # 2) = Fin q /\ 0 <= q).
Proof.
  apply (atr_nonneg [11; 13; 12; 16] [9; 11; 10; 13] [10; 12; 11; 15] 2 3).
  - intros j h l Hh Hl.
    do 4 (destruct j as [|j];
          [injection Hh as <-; injection Hl as <-; discriminate|]).
    destruct j; discriminate.
  - vm_compute. reflexivity.
Defined.

(** ** Report statistics *)

Lemma fold_count_breakout bs s :
  let s' := fold_left count_breakout bs s in
  (st_resistance_breakouts s' + st_support_breakouts s'
   = st_resistance_breakouts s + st_support_breakouts s + length bs)%nat /\
  (st_total_symbols s', st_total_breakouts s', st_total_divergences s',
   st_total_trend_changes s', st_total_volume_anomalies s',
   st_symbols_with_breakouts s', st_symbols_with_divergences s',
   st_bullish_divergences s', st_bearish_divergences s')
  = (st_total_symbols s, st_total_breakouts s, st_total_divergences s,
     st_total_trend_changes s, st_total_volume_anomalies s,
     st_symbols_with_breakouts s, st_symbols_with_divergences s,
     st_bullish_divergences s, st_bearish_divergences s).
Proof.
  revert s. induction bs as [|e bs IH]; intros s; cbn [fold_left].
  - cbn [length]. split; [lia|reflexivity].
  - destruct (IH (count_breakout s e)) as [H1 H2]. cbv zeta.
    rewrite H2. split; [|reflexivity]. rewrite H1.
    unfold count_breakout. cbn [st_resistance_breakouts st_support_breakouts
                                  length].
    destruct (bo_type e); lia.
Qed.

Lemma fold_count_divergence ds s :
  let s' := fold_left count_divergence ds s in
  (st_bullish_divergences s' + st_bearish_divergences s'
   = st_bullish_divergences s + st_bearish_divergences s + length ds)%nat /\
  (st_total_symbols s', st_total_breakouts s', st_total_divergences s',
   st_total_trend_changes s', st_total_volume_anomalies s',
   st_symbols_with_breakouts s', st_symbols_with_divergences s',
   st_resistance_breakouts s', st_support_breakouts s')
  = (st_total_symbols s, st_total_breakouts s, st_total_divergences s,
     st_total_trend_changes s, st_total_volume_anomalies s,
     st_symbols_with_breakouts s, st_symbols_with_divergences s,
     st_resistance_breakouts s, st_support_breakouts s).
Proof.
  revert s. induction ds as [|e ds IH]; intros s; cbn [fold_left].
  - cbn [length]. split; [lia|reflexivity].
  - destruct (IH (count_divergence s e)) as [H1 H2]. cbv zeta.
    rewrite H2. split; [|reflexivity]. rewrite H1.
    unfold count_divergence. cbn [st_bullish_divergences
                                    st_bearish_divergences length].
    destruct (dv_type e); lia.
Qed.

Lemma count_entry_consistent seen s item :
  statistics_consistent seen s ->
  statistics_consistent (S seen) (count_entry s item) /\
  st_total_symbols (count_entry s item) = st_total_symbols s.
Proof.
  unfold statistics_consistent, count_entry.
  intros (H1 & H2 & H3 & H4 & H5 & H6).
  destruct (entry_patterns (snd item)) as [p|];
    [|repeat split; try assumption; lia].
  unfold count_rest, count_divergences, count_breakouts.
  cbn [st_resistance_breakouts st_support_breakouts st_total_breakouts
         st_bullish_divergences st_bearish_divergences st_total_divergences
         st_symbols_with_breakouts st_symbols_with_divergences
         st_total_symbols].
  match goal with
  | |- context [fold_left count_divergence ?ds ?s1] =>
      destruct (fold_count_divergence ds s1) as [D1 D2];
        cbv zeta in D1, D2; injection D2 as E1 E2 E3 E4 E5 E6 E7 E8 E9;
        cbn [st_resistance_breakouts st_support_breakouts st_total_breakouts
               st_bullish_divergences st_bearish_divergences
               st_total_divergences st_symbols_with_breakouts
               st_symbols_with_divergences st_total_symbols
               st_total_trend_changes st_total_volume_anomalies] in *
  end.
  match goal with
  | _ : context [fold_left count_breakout ?bs ?s1] |- _ =>
      destruct (fold_count_breakout bs s1) as [B1 B2];
        cbv zeta in B1, B2; injection B2 as F1 F2 F3 F4 F5 F6 F7 F8 F9;
        cbn [st_resistance_breakouts st_support_breakouts st_total_breakouts
               st_bullish_divergences st_bearish_divergences
               st_total_divergences st_symbols_with_breakouts
               st_symbols_with_divergences st_total_symbols
               st_total_trend_changes st_total_volume_anomalies] in *
  end.
  destruct (breakouts p) as [|b bs]; destruct (divergences p) as [|d ds];
    cbn [length] in *; repeat split; lia.
Qed.

Lemma fold_count_entry_consistent items seen s :
  statistics_consistent seen s ->
  statistics_consistent (seen + length items) (fold_left count_entry items s)
  /\ st_total_symbols (fold_left count_entry items s) = st_total_symbols s.
Proof.
  revert seen s. induction items as [|item items IH]; intros seen s Hs;
    cbn [fold_left length].
  - rewrite Nat.add_0_r. auto.
  - destruct (count_entry_consistent seen s item Hs) as [H1 H2].
    destruct (IH (S seen) _ H1) as [H3 H4].
    replace (seen + S (length items))%nat with (S seen + length items)%nat
      by lia.
    split; [exact H3|congruence].
Qed.

(** X24.  The statistics of a set of results are consistent: the counts by
    type add up to the totals of breakouts and of divergences, and the
    symbols counted as having breakouts (or divergences) number at most the
    symbols and at most the breakouts (or divergences). *)
Theorem statistics_are_consistent analysis_results :
  statistics_consistent (length analysis_results)
    (_calculate_statistics analysis_results) /\
  st_total_symbols (_calculate_statistics analysis_results)
  = length analysis_results.
Proof.
  unfold _calculate_statistics.
  apply (fold_count_entry_consistent analysis_results 0).
  unfold statistics_consistent. cbn. repeat split; lia.
Qed.

(** ** The loop over the tickers *)

Lemma In_sdict_set {V} (d : sdict V) k v k' v' :
  In (k', v') (sdict_set d k v) -> (k' = k /\ v' = v) \/ In (k', v') d.
Proof.
  induction d as [|[k0 v0] d IH]; cbn [sdict_set].
  - intros [[= <- <-]|[]]. now left.
  - destruct (String.eqb k0 k) eqn:E.
    + apply String.eqb_eq in E. subst k0.
      intros [[= <- <-]|H]; [now left|right; now right].
    + intros [H|H]; [right; now left|].
      destruct (IH H) as [H'|H']; [now left|right; now right].
Qed.

Lemma sdict_get_set {V} (d : sdict V) k v :
  sdict_get (sdict_set d k v) k = Some v.
Proof.
  induction d as [|[k0 v0] d IH]; cbn [sdict_set sdict_get].
  - now rewrite String.eqb_refl.
  - destruct (String.eqb k0 k) eqn:E; cbn [sdict_get]; now rewrite E.
Qed.

Lemma sdict_get_set_other {V} (d : sdict V) k v k' :
  k' <> k -> sdict_get (sdict_set d k v) k' = sdict_get d k'.
Proof.
  intros Hne. induction d as [|[k0 v0] d IH]; cbn [sdict_set sdict_get].
  - destruct (String.eqb k k') eqn:E; [|reflexivity].
    apply String.eqb_eq in E. congruence.
  - destruct (String.eqb k0 k) eqn:E; cbn [sdict_get].
    + apply String.eqb_eq in E. subst k0.
      destruct (String.eqb k k') eqn:E'; [|reflexivity].
      apply String.eqb_eq in E'. congruence.
    + now rewrite IH.
Qed.

Lemma DataFrame_not_empty data :
  DataFrame_empty data = false -> rows data <> [] /\ columns data <> [].
Proof.
  unfold DataFrame_empty.
  destruct (rows data), (columns data); try discriminate.
  split; discriminate.
Qed.

Lemma analyze_ticker_cases get_data create_chart find_peaks fsqrt analyzed_at
      stored_at cfg i results ticker :
  analyze_ticker get_data create_chart find_peaks fsqrt analyzed_at stored_at
    cfg i results ticker
  = results \/
  exists entry,
    entry_of get_data create_chart find_peaks fsqrt analyzed_at stored_at cfg
      i ticker entry /\
    analyze_ticker get_data create_chart find_peaks fsqrt analyzed_at
      stored_at cfg i results ticker
    = sdict_set results ticker entry.
Proof.
  unfold analyze_ticker, entry_of.
  destruct (get_data i ticker) as [[data|]|e]; auto.
  destruct (DataFrame_empty data) eqn:Hempty; auto.
  destruct (create_chart i ticker data) as [chart_path|e] eqn:Hchart; auto.
  rewrite analyze_eq. right. eexists. split; [|reflexivity].
  apply DataFrame_not_empty in Hempty as [H1 H2].
  exists data, chart_path. eexists.
  repeat (split; [first [apply analyze_eq | assumption | reflexivity]|]).
  reflexivity.
Qed.

Lemma analyze_ticker_stores get_data create_chart find_peaks fsqrt analyzed_at
      stored_at cfg i results ticker entry :
  entry_of get_data create_chart find_peaks fsqrt analyzed_at stored_at cfg
    i ticker entry ->
  analyze_ticker get_data create_chart find_peaks fsqrt analyzed_at stored_at
    cfg i results ticker
  = sdict_set results ticker entry.
Proof.
  unfold analyze_ticker, entry_of.
  intros (data & chart_path & patterns & Hget & H1 & H2 & Hchart & Ha & ->).
  rewrite Hget.
  assert (DataFrame_empty data = false) as ->.
  { unfold DataFrame_empty. destruct (rows data), (columns data); congruence. }
  now rewrite Hchart, Ha.
Qed.

Lemma analyze_tickers_loop_entries get_data create_chart find_peaks fsqrt
      analyzed_at stored_at cfg tickers i results ticker entry :
  In (ticker, entry)
     (analyze_tickers_loop get_data create_chart find_peaks fsqrt analyzed_at
        stored_at cfg i tickers results) ->
  In (ticker, entry) results \/
  exists j,
    nth_error tickers j = Some ticker /\
    entry_of get_data create_chart find_peaks fsqrt analyzed_at stored_at cfg
      (i + j)%nat ticker entry.
Proof.
  revert i results. induction tickers as [|t tickers IH]; intros i results;
    cbn [analyze_tickers_loop]; [now left|].
  intros H. apply IH in H as [H|(j & Hj & He)].
  - destruct (analyze_ticker_cases get_data create_chart find_peaks fsqrt
                analyzed_at stored_at cfg i results t) as [E|(e & He & E)];
      rewrite E in H; [now left|].
    apply In_sdict_set in H as [[-> ->]|H]; [right|now left].
    exists 0%nat. split; [reflexivity|]. now rewrite Nat.add_0_r.
  - right. exists (S j). split; [exact Hj|].
    now replace (i + S j)%nat with (S i + j)%nat by lia.
Qed.

Lemma analyze_tickers_loop_app get_data create_chart find_peaks fsqrt
      analyzed_at stored_at cfg pre post i results :
  analyze_tickers_loop get_data create_chart find_peaks fsqrt analyzed_at
    stored_at cfg i (pre ++ post) results
  = analyze_tickers_loop get_data create_chart find_peaks fsqrt analyzed_at
      stored_at cfg (i + length pre) post
      (analyze_tickers_loop get_data create_chart find_peaks fsqrt
         analyzed_at stored_at cfg i pre results).
Proof.
  revert i results. induction pre as [|t pre IH]; intros i results;
    cbn [analyze_tickers_loop app length].
  - now rewrite Nat.add_0_r.
  - rewrite IH. f_equal. lia.
Qed.

Lemma analyze_tickers_loop_other get_data create_chart find_peaks fsqrt
      analyzed_at stored_at cfg tickers i results ticker :
  ~ In ticker tickers ->
  sdict_get
    (analyze_tickers_loop get_data create_chart find_peaks fsqrt analyzed_at
       stored_at cfg i tickers results) ticker
  = sdict_get results ticker.
Proof.
  revert i results. induction tickers as [|t tickers IH]; intros i results Hn;
    cbn [analyze_tickers_loop]; [reflexivity|].
  rewrite IH by (intros H; apply Hn; now right).
  destruct (analyze_ticker_cases get_data create_chart find_peaks fsqrt
              analyzed_at stored_at cfg i results t) as [E|(e & He & E)];
    rewrite E; [reflexivity|].
  apply sdict_get_set_other. intros ->. apply Hn. now left.
Qed.

(** X25.  Every entry of the results of [analyze_tickers] was stored by a
    pass of the loop on its ticker: the ticker is one of those asked for,
    the fetch of that pass returned data with bars and columns, the chart
    generator returned, and the entry holds that data, the chart path and
    the result of [analyze] on the data.  So a ticker whose data is missing
    or empty, or whose fetch or chart raised, in every pass has no entry. *)
Theorem analyze_tickers_entries get_data create_chart find_peaks fsqrt
        analyzed_at stored_at cfg tickers ticker entry :
  In (ticker, entry)
     (analyze_tickers get_data create_chart find_peaks fsqrt analyzed_at
        stored_at cfg tickers) ->
  exists i,
    nth_error tickers i = Some ticker /\
    entry_of get_data create_chart find_peaks fsqrt analyzed_at stored_at cfg
      i ticker entry.
Proof.
  unfold analyze_tickers. intros H.
  apply analyze_tickers_loop_entries in H as [[]|H]. exact H.
Qed.

(** X26.  The results are looked up by ticker, and a later pass replaces
    the entry of an earlier one: when the pass on the last occurrence of a
    ticker succeeds, the lookup of that ticker in the results of
    [analyze_tickers] gives the entry of that pass. *)
Theorem analyze_tickers_keeps_last_entry get_data create_chart find_peaks
        fsqrt analyzed_at stored_at cfg pre post ticker entry :
  ~ In ticker post ->
  entry_of get_data create_chart find_peaks fsqrt analyzed_at stored_at cfg
    (length pre) ticker entry ->
  sdict_get
    (analyze_tickers get_data create_chart find_peaks fsqrt analyzed_at
       stored_at cfg (pre ++ ticker :: post)) ticker
  = Some entry.
Proof.
  intros Hpost He. unfold analyze_tickers.
  rewrite analyze_tickers_loop_app. cbn [analyze_tickers_loop].
  rewrite analyze_tickers_loop_other by exact Hpost.
  rewrite (analyze_ticker_stores _ _ _ _ _ _ _ _ _ _ _ He).
  apply sdict_get_set.
Qed.

Lemma analyze_tickers_entries_witness :
  exists entry,
    In ("AAA"%string, entry)
       (analyze_tickers sample_get_data sample_create_chart strict_peaks
          newton_sqrt (fun _ => 0%Z) (fun _ => 1%Z) default_config
          sample_tickers) /\
    exists i,
      nth_error sample_tickers i = Some "AAA"%string /\
      entry_of sample_get_data sample_create_chart strict_peaks newton_sqrt
        (fun _ => 0%Z) (fun _ => 1%Z) default_config i "AAA" entry.
Proof.
  eexists. split.
  - vm_compute. left. reflexivity.
  - apply (analyze_tickers_entries sample_get_data sample_create_chart
             strict_peaks newton_sqrt (fun _ => 0%Z) (fun _ => 1%Z)
             default_config sample_tickers).
    vm_compute. left. reflexivity.
Defined.

Lemma analyze_tickers_keeps_last_entry_witness :
  exists entry,
    entry_of sample_get_data sample_create_chart strict_peaks newton_sqrt
      (fun _ => 0%Z) (fun _ => 1%Z) default_config 1 "AAA" entry /\
    sdict_get
      (analyze_tickers sample_get_data sample_create_chart strict_peaks
         newton_sqrt (fun _ => 0%Z) (fun _ => 1%Z) default_config
         sample_tickers) "AAA"
    = Some entry.
Proof.
  assert (exists entry,
    entry_of sample_get_data sample_create_chart strict_peaks newton_sqrt
      (fun _ => 0%Z) (fun _ => 1%Z) default_config 1 "AAA" entry) as [e He].
  { eexists. exists levels_data. eexists. eexists.
    split; [reflexivity|]. split; [discriminate|]. split; [discriminate|].
    split; [reflexivity|]. split; [apply analyze_eq|reflexivity]. }
  exists e. split; [exact He|].
  apply (analyze_tickers_keeps_last_entry sample_get_data sample_create_chart
           strict_peaks newton_sqrt (fun _ => 0%Z) (fun _ => 1%Z)
           default_config ["BBB"%string] ["CCC"; "DDD"]%string "AAA" e).
  - intros [H|[H|[]]]; discriminate.
  - exact He.
Defined.

(** ** The configuration dict *)

Lemma split_dots_not_empty key : ConfigDict.split_dots key <> [].
Proof.
  induction key as [|c key IH]; cbn [ConfigDict.split_dots]; [discriminate|].
  destruct (Ascii.eqb c "."); [discriminate|].
  destruct (ConfigDict.split_dots key); discriminate.
Qed.

Lemma set_path_cons k k' rest value config :
  ConfigDict.set_path (k :: k' :: rest) value config
  = match config with
    | YDict items =>
        match ConfigDict.set_path (k' :: rest) value
                (match sdict_get items k with
                 | Some v => v
                 | None => YDict []
                 end) with
        | Updated child' => Updated (YDict (sdict_set items k child'))
        | raised => raised
        end
    | _ => TypeError
    end.
Proof. reflexivity. Qed.

Lemma set_path_then_get_path keys value config config' default :
  ConfigDict.set_path keys value config = Updated config' ->
  ConfigDict.get_path keys config' default = value.
Proof.
  revert config config'.
  induction keys as [|k [|k' rest] IH]; intros config config'.
  - discriminate.
  - cbn [ConfigDict.set_path]. destruct config; try discriminate.
    intros [= <-]. cbn [ConfigDict.get_path]. now rewrite sdict_get_set.
  - rewrite set_path_cons. destruct config; try discriminate.
    destruct (ConfigDict.set_path (k' :: rest) value _) as [child'| |] eqn:E;
      try discriminate.
    intros [= <-]. cbn [ConfigDict.get_path]. rewrite sdict_get_set.
    exact (IH _ _ E).
Qed.



Lemma find_path_empty_dict p x :
  find_path p (YDict []) = Some x -> is_dict x = true.
Proof. destruct p; cbn; [now intros [= <-]|discriminate]. Qed.

Lemma set_path_raises keys value config :
  keys <> [] ->
  ConfigDict.set_path keys value config = TypeError <->
  exists p k r x,
    keys = p ++ k :: r /\ find_path p config = Some x /\ is_dict x = false.
Proof.
  revert config. induction keys as [|k [|k' rest] IH]; intros config Hne.
  - congruence.
  - cbn [ConfigDict.set_path]. split.
    + intros H. exists [], k, [], config. repeat split.
      destruct config; try reflexivity. discriminate.
    + intros (p & k0 & r & x & Hk & Hp & Hx).
      destruct p as [|k1 p]; [|now destruct p].
      cbn in Hp. injection Hp as <-. destruct config; try reflexivity.
      discriminate.
  - rewrite set_path_cons.
    specialize (fun c => IH c ltac:(discriminate)).
    destruct config as [items| | | | | |];
      try (split; [intros _; exists [], k, (k' :: rest); eexists;
                   repeat split; reflexivity | reflexivity]).
    split.
    + intros H.
      destruct (ConfigDict.set_path (k' :: rest) value _) eqn:E;
        try discriminate.
      apply IH in E as (p & k0 & r & x & Hk & Hp & Hx).
      exists (k :: p), k0, r, x. split; [cbn [app]; now rewrite Hk|].
      split; [|exact Hx]. cbn [find_path].
      destruct (sdict_get items k); [exact Hp|].
      apply find_path_empty_dict in Hp. congruence.
    + intros (p & k0 & r & x & Hk & Hp & Hx).
      destruct p as [|k1 p].
      * cbn in Hp. injection Hp as <-. discriminate.
      * cbn [app] in Hk. injection Hk as <- Hk.
        cbn [find_path] in Hp.
        destruct (sdict_get items k) as [v|]; [|discriminate].
        assert (ConfigDict.set_path (k' :: rest) value v = TypeError) as ->;
          [|reflexivity].
        apply IH. now exists p, k0, r, x.
Qed.

(** X27.  Round trip of the configuration: when [set] returns, [get] of the
    same key on the updated configuration gives the value that was set,
    whatever the default. *)
Theorem config_set_then_get config key value config' default :
  ConfigDict.set config key value = Updated config' ->
  ConfigDict.get config' key default = value.
Proof. apply set_path_then_get_path. Qed.

Lemma config_set_then_get_witness :
  exists config',
    ConfigDict.set ConfigDict._get_default_config
      "patterns.breakout.lookback_periods" (YInt 30) = Updated config' /\
    ConfigDict.get config' "patterns.breakout.lookback_periods" YNone
    = YInt 30.
Proof.
  eexists. split; [vm_compute; reflexivity|].
  apply (config_set_then_get ConfigDict._get_default_config
           "patterns.breakout.lookback_periods" (YInt 30)).
  vm_compute. reflexivity.
Defined.



(** X29.  [set] raises TypeError exactly when the dotted key passes through
    a value that is there and is no dict: some proper prefix of its path
    leads to such a value.  Missing keys never make it raise, the dicts are
    created. *)
Theorem config_set_raises_iff config key value :
  ConfigDict.set config key value = TypeError <->
  exists p k r x,
    ConfigDict.split_dots key = p ++ k :: r /\
    find_path p config = Some x /\ is_dict x = false.
Proof. apply set_path_raises, split_dots_not_empty. Qed.

Lemma config_set_raises_iff_witness :
  ConfigDict.set ConfigDict._get_default_config "charts.width.unit"
    (YStr "px") = TypeError.
Proof.
  apply (config_set_raises_iff ConfigDict._get_default_config
           "charts.width.unit" (YStr "px")).
  exists ["charts"; "width"]%string, "unit"%string, [], (YInt 1200).
  repeat split.
Defined.
